(** * CCEP sustainability analytics: retrieval core and domain agents

    A shallow embedding of the retrieval-augmented generation core
    ([srv/lib/agentic-rag.js]) and of the modular domain agents
    ([srv/lib/agents/base-agent.js] and its four subclasses), with the
    properties of their chunking, embedding, ranking, routing, validation
    and scoring code.

    JavaScript numbers are IEEE-754 binary64 values.  The numeric code of
    the retrieval core is written once, over an interface [Number], and
    read at two instances: [float] (Rocq's primitive binary64 floats,
    the arithmetic the program runs on) and [R] (exact real arithmetic,
    the arithmetic in which the usual bounds are stated).  Strings are
    sequences of 8-bit code units (the Latin-1 part of UTF-16). *)

From Stdlib Require Import Bool Arith ZArith QArith Lia List String Ascii.
From Stdlib Require Import Floats Reals Lra Lqa Psatz.
From Stdlib Require Import Permutation Sorted.
Import ListNotations.

Set Implicit Arguments.
Local Close Scope Q_scope.
Local Open Scope string_scope.
Local Open Scope list_scope.
Local Open Scope nat_scope.

(* ================================================================= *)
(** ** JavaScript strings *)

Module JsString.

Definition code (c : ascii) : nat := nat_of_ascii c.

(** [WhiteSpace] and [LineTerminator] code units below 256, the ones
    [String.prototype.trim] strips. *)
Definition is_space (c : ascii) : bool :=
  let n := code c in
  (((9 <=? n) && (n <=? 13)) || (n =? 32) || (n =? 160))%nat.

(** The class [\w] of regular expressions: [[A-Za-z0-9_]]. *)
Definition is_word_char (c : ascii) : bool :=
  let n := code c in
  (((48 <=? n) && (n <=? 57)) || ((65 <=? n) && (n <=? 90))
   || ((97 <=? n) && (n <=? 122)) || (n =? 95))%nat.

Definition is_digit (c : ascii) : bool :=
  let n := code c in ((48 <=? n) && (n <=? 57))%nat.

(** The class [[.!?]] used to cut sentences. *)
Definition is_sentence_end (c : ascii) : bool :=
  let n := code c in ((n =? 46) || (n =? 33) || (n =? 63))%nat.

Definition lower_char (c : ascii) : ascii :=
  let n := code c in
  if (((65 <=? n) && (n <=? 90))
      || ((192 <=? n) && (n <=? 222) && negb (n =? 215)))%nat
  then ascii_of_nat (n + 32) else c.

Fixpoint toLowerCase (s : string) : string :=
  match s with
  | EmptyString => EmptyString
  | String c s' => String (lower_char c) (toLowerCase s')
  end.

Definition upper_char (c : ascii) : ascii :=
  let n := code c in
  if (((97 <=? n) && (n <=? 122))
      || ((224 <=? n) && (n <=? 254) && negb (n =? 247)))%nat
  then ascii_of_nat (n - 32) else c.

Fixpoint toUpperCase (s : string) : string :=
  match s with
  | EmptyString => EmptyString
  | String c s' => String (upper_char c) (toUpperCase s')
  end.

(** [s.replace(c, '')] for a one-character pattern: the first
    occurrence goes. *)
Fixpoint remove_first (c : ascii) (s : string) : string :=
  match s with
  | EmptyString => EmptyString
  | String c' s' => if Ascii.eqb c' c then s' else String c' (remove_first c s')
  end.

Fixpoint drop_while (p : ascii -> bool) (s : string) : string :=
  match s with
  | EmptyString => EmptyString
  | String c s' => if p c then drop_while p s' else s
  end.

Fixpoint rev_onto (s acc : string) : string :=
  match s with
  | EmptyString => acc
  | String c s' => rev_onto s' (String c acc)
  end.

Definition rev (s : string) : string := rev_onto s EmptyString.

Definition trimStart (s : string) : string := drop_while is_space s.
Definition trimEnd (s : string) : string := rev (drop_while is_space (rev s)).
Definition trim (s : string) : string := trimEnd (trimStart s).

(** A string is truthy when it is not empty. *)
Definition nonempty (s : string) : bool :=
  match s with
  | EmptyString => false
  | String _ _ => true
  end.

(** [s.includes(sub)] *)
Fixpoint includes (s sub : string) : bool :=
  if String.prefix sub s then true
  else match s with
       | EmptyString => false
       | String _ s' => includes s' sub
       end.

(** [s.split(/[sep]+/)]: the pieces between maximal runs of separator
    characters.  A run at either end leaves an empty piece there, and
    the empty string splits into one empty piece. *)
Fixpoint split_runs (sep : ascii -> bool) (acc : string) (in_run : bool)
         (s : string) : list string :=
  match s with
  | EmptyString => [acc]
  | String c s' =>
      if sep c then
        if in_run then split_runs sep EmptyString true s'
        else acc :: split_runs sep EmptyString true s'
      else split_runs sep (acc ++ String c EmptyString) false s'
  end.

Definition split_regex_class (sep : ascii -> bool) (s : string) : list string :=
  split_runs sep EmptyString false s.

(** [s.split(c)] for a one-character separator [c]: every occurrence
    cuts, so [n] occurrences give [n + 1] pieces. *)
Fixpoint split_at (sep : ascii) (acc : string) (s : string) : list string :=
  match s with
  | EmptyString => [acc]
  | String c s' =>
      if Ascii.eqb c sep then acc :: split_at sep EmptyString s'
      else split_at sep (acc ++ String c EmptyString) s'
  end.

Definition split_char (sep : ascii) (s : string) : list string :=
  split_at sep EmptyString s.

(** [arr.join(sep)] *)
Fixpoint join (sep : string) (l : list string) : string :=
  match l with
  | [] => EmptyString
  | [x] => x
  | x :: l' => x ++ sep ++ join sep l'
  end.

(** [s.substring(0, n)] *)
Fixpoint take (n : nat) (s : string) : string :=
  match n, s with
  | S n', String c s' => String c (take n' s')
  | _, _ => EmptyString
  end.

(** Decimal digits of a natural number, as template literals print an
    array index or a length. *)
Fixpoint digits_fuel (fuel n : nat) (acc : string) : string :=
  match fuel with
  | O => acc
  | S fuel' =>
      let acc' := String (ascii_of_nat (48 + n mod 10)) acc in
      if (n <? 10)%nat then acc' else digits_fuel fuel' (n / 10) acc'
  end.

Definition of_nat (n : nat) : string := digits_fuel (S n) n EmptyString.

(** [arr.slice(start)] and [arr.slice(0, end)], with the treatment of
    negative indices of [Array.prototype.slice]. *)
Definition rel_index (len : nat) (i : Z) : nat :=
  if (i <? 0)%Z then Z.to_nat (Z.max (Z.of_nat len + i) 0)
  else Nat.min (Z.to_nat i) len.

Definition slice_from {A} (start : Z) (l : list A) : list A :=
  skipn (rel_index (List.length l) start) l.

Definition slice_to {A} (stop : Z) (l : list A) : list A :=
  firstn (rel_index (List.length l) stop) l.

End JsString.

(* ================================================================= *)
(** ** JavaScript numbers *)

Module JsNumber.

(** The arithmetic the retrieval code uses. *)
Class Number (T : Type) : Type := {
  of_Z : Z -> T;                 (* integer literals, lengths *)
  of_Q : Q -> T;                 (* decimal literals such as 0.95 *)
  nadd : T -> T -> T;
  nsub : T -> T -> T;
  nmul : T -> T -> T;
  ndiv : T -> T -> T;
  nsqrt : T -> T;                (* Math.sqrt *)
  nltb : T -> T -> bool;         (* a < b *)
  neqb : T -> T -> bool;         (* a === b *)
  nmin : T -> T -> T;            (* Math.min *)
  nmax : T -> T -> T             (* Math.max *)
}.

(** *** binary64 *)

Definition float_of_Z (z : Z) : float :=
  match z with
  | Z0 => PrimFloat.zero
  | Zpos _ => PrimFloat.of_uint63 (Uint63.of_Z z)
  | Zneg p => PrimFloat.opp (PrimFloat.of_uint63 (Uint63.of_Z (Zpos p)))
  end.

(** A decimal literal denotes the binary64 value nearest to it, which
    is what the correctly rounded quotient of its numerator and
    denominator gives. *)
Definition float_of_Q (q : Q) : float :=
  PrimFloat.div (float_of_Z (Qnum q)) (float_of_Z (Zpos (Qden q))).

Definition is_neg_zero (x : float) : bool :=
  PrimFloat.is_zero x && PrimFloat.get_sign x.

(** [Math.max]: NaN if either argument is NaN, and [+0] above [-0]. *)
Definition float_max (a b : float) : float :=
  if PrimFloat.is_nan a || PrimFloat.is_nan b then PrimFloat.nan
  else if PrimFloat.ltb a b then b
  else if PrimFloat.ltb b a then a
  else if is_neg_zero a then b else a.

(** [Math.min]: NaN if either argument is NaN, and [-0] below [+0]. *)
Definition float_min (a b : float) : float :=
  if PrimFloat.is_nan a || PrimFloat.is_nan b then PrimFloat.nan
  else if PrimFloat.ltb a b then a
  else if PrimFloat.ltb b a then b
  else if is_neg_zero a then a else b.

#[export] Instance float_number : Number float := {
  of_Z := float_of_Z;
  of_Q := float_of_Q;
  nadd := PrimFloat.add;
  nsub := PrimFloat.sub;
  nmul := PrimFloat.mul;
  ndiv := PrimFloat.div;
  nsqrt := PrimFloat.sqrt;
  nltb := PrimFloat.ltb;
  neqb := PrimFloat.eqb;
  nmin := float_min;
  nmax := float_max
}.

(** *** exact reals *)

Definition R_ltb (a b : R) : bool := if Rlt_dec a b then true else false.
Definition R_eqb (a b : R) : bool := if Req_dec_T a b then true else false.

#[export] Instance real_number : Number R := {
  of_Z := IZR;
  of_Q := Q2R;
  nadd := Rplus;
  nsub := Rminus;
  nmul := Rmult;
  ndiv := Rdiv;
  nsqrt := R_sqrt.sqrt;
  nltb := R_ltb;
  neqb := R_eqb;
  nmin := Rmin;
  nmax := Rmax
}.

End JsNumber.

(* ================================================================= *)
(** ** Exceptions, the log, the clock and the host functions *)

Module Runtime.

(** A thrown [Error] object: its class name and its message. *)
Record Exn : Type := mkExn { exn_name : string; exn_message : string }.

Definition Error (msg : string) : Exn := mkExn "Error" msg.
Definition TypeError (msg : string) : Exn := mkExn "TypeError" msg.

Inductive Result (A : Type) : Type :=
| Ok (a : A)
| Throw (e : Exn).
Arguments Ok {A} a.
Arguments Throw {A} e.

(** One line handed to the winston logger. *)
Record LogEntry : Type := mkLog { log_level : string; log_message : string }.

(** What a call can see and change besides its arguments: the wall
    clock, read by every [new Date()], and the log.  [clock n] is the
    time value (milliseconds since the epoch) the [n]-th reading of the
    clock returns. *)
Record World : Type := mkWorld {
  clock : nat -> float;
  reads : nat;
  logged : list LogEntry
}.

(** Functions of the JavaScript runtime and of Node that the code
    calls and that are not modelled further. *)
Class Host : Type := {
  md5_hex : string -> string;              (* crypto md5 digest, hex *)
  number_toString : float -> string;       (* a number in a template literal *)
  number_toFixed : float -> nat -> string; (* Number.prototype.toFixed *)
  number_toLocaleString : float -> string; (* Number.prototype.toLocaleString *)
  string_toNumber : string -> float;       (* ToNumber on a string *)
  Date_parse : string -> float;            (* new Date(string), NaN if invalid *)
  Date_getFullYear : float -> float;       (* local-time calendar year *)
  Date_toISOString : float -> string
}.

(** State and exception monad over a state that carries a [World]. *)
Definition M (St A : Type) : Type := St -> Result A * St.

Definition ret {St A} (a : A) : M St A := fun s => (Ok a, s).

Definition bind {St A B} (m : M St A) (k : A -> M St B) : M St B :=
  fun s => match m s with
           | (Ok a, s') => k a s'
           | (Throw e, s') => (Throw e, s')
           end.

Definition throw {St A} (e : Exn) : M St A := fun s => (Throw e, s).

(** [try { m } catch (error) { h error }] *)
Definition try_catch {St A} (m : M St A) (h : Exn -> M St A) : M St A :=
  fun s => match m s with
           | (Ok a, s') => (Ok a, s')
           | (Throw e, s') => h e s'
           end.

Class HasWorld (St : Type) : Type := {
  get_world : St -> World;
  set_world : World -> St -> St
}.

#[export] Instance world_has_world : HasWorld World := {
  get_world := fun w => w;
  set_world := fun w _ => w
}.

Definition logger {St} `{HasWorld St} (level msg : string) : M St unit :=
  fun s =>
    let w := get_world s in
    (Ok tt, set_world (mkWorld (clock w) (reads w)
                               (logged w ++ [mkLog level msg])) s).

(** [new Date()]: one reading of the clock. *)
Definition new_Date {St} `{HasWorld St} : M St float :=
  fun s =>
    let w := get_world s in
    (Ok (clock w (reads w)),
     set_world (mkWorld (clock w) (S (reads w)) (logged w)) s).

End Runtime.

Declare Scope js_scope.
Delimit Scope js_scope with js.
Notation "x <- m ;; k" := (Runtime.bind m (fun x => k))
  (at level 61, m at next level, right associativity) : js_scope.
Notation "m ;;; k" := (Runtime.bind m (fun _ => k))
  (at level 61, right associativity) : js_scope.

(* ================================================================= *)
(** ** JavaScript values and plain objects, as the agents receive them *)

Module JsValue.
Import JsString JsNumber Runtime.
Local Open Scope float_scope.

(** The primitive values a field of an input record can hold. *)
Inductive value : Type :=
| VUndefined
| VNull
| VBool (b : bool)
| VNum (x : float)
| VStr (s : string).

(** A plain object: its own enumerable properties, first binding of a
    name first. *)
Definition record : Type := list (string * value).

(** What a caller can pass where a record is expected. *)
Inductive data : Type :=
| DValue (v : value)      (* undefined, null or another primitive *)
| DObject (r : record).

Fixpoint has_own (r : record) (name : string) : bool :=
  match r with
  | [] => false
  | (k, _) :: r' => String.eqb k name || has_own r' name
  end.

(** [r.name]: [undefined] for a property the record does not have.
    The names read by the agents are not members of
    [Object.prototype]. *)
Fixpoint get (r : record) (name : string) : value :=
  match r with
  | [] => VUndefined
  | (k, v) :: r' => if String.eqb k name then v else get r' name
  end.

(** [Object.keys(r)] *)
Fixpoint keys (r : record) : list string :=
  match r with
  | [] => []
  | (k, _) :: r' => k :: filter (fun k' => negb (String.eqb k k')) (keys r')
  end.

Section Coercions.
Context {host : Host}.

Definition to_number (v : value) : float :=
  match v with
  | VUndefined => PrimFloat.nan
  | VNull => 0
  | VBool true => 1
  | VBool false => 0
  | VNum x => x
  | VStr s => string_toNumber s
  end.

Definition to_string (v : value) : string :=
  match v with
  | VUndefined => "undefined"
  | VNull => "null"
  | VBool true => "true"
  | VBool false => "false"
  | VNum x => number_toString x
  | VStr s => s
  end.

(** [a + b]: concatenation as soon as one side is a string. *)
Definition plus (a b : value) : value :=
  match a, b with
  | VStr _, _ | _, VStr _ => VStr (to_string a ++ to_string b)
  | _, _ => VNum (to_number a + to_number b)
  end.
End Coercions.

Definition number_truthy (x : float) : bool :=
  negb (PrimFloat.is_zero x || PrimFloat.is_nan x).

Definition truthy (v : value) : bool :=
  match v with
  | VUndefined | VNull => false
  | VBool b => b
  | VNum x => number_truthy x
  | VStr s => nonempty s
  end.

(** [v !== undefined] *)
Definition defined (v : value) : bool :=
  match v with
  | VUndefined => false
  | _ => true
  end.

(** [v === 'text'] *)
Definition is_string (v : value) (text : string) : bool :=
  match v with
  | VStr s => String.eqb s text
  | _ => false
  end.

(** Comparisons of numbers: false as soon as one side is NaN. *)
Definition gt (a b : float) : bool := PrimFloat.ltb b a.
Definition ge (a b : float) : bool := PrimFloat.leb b a.
Definition lt (a b : float) : bool := PrimFloat.ltb a b.
Definition le (a b : float) : bool := PrimFloat.leb a b.

(** [Math.ceil], through the sign, mantissa and exponent of the
    argument. *)
Definition ceil (x : float) : float :=
  match Prim2SF x with
  | S754_finite negative m e =>
      if (0 <=? e)%Z then x
      else
        let d := (2 ^ (- e))%Z in
        let q := (Zpos m / d)%Z in
        if negative then
          if (q =? 0)%Z then PrimFloat.neg_zero else float_of_Z (- q)
        else float_of_Z (if (Zpos m mod d =? 0)%Z then q else q + 1)
  | _ => x
  end.

(** A property of an object literal of the program, read by a name
    computed at run time: a value the literal defines, a member
    inherited from [Object.prototype] (truthy, and none of the
    literal's values), or [undefined]. *)
Inductive Property (A : Type) : Type :=
| Own (a : A)
| Inherited (name : string)
| Undefined.
Arguments Own {A} a.
Arguments Inherited {A} name.
Arguments Undefined {A}.

Definition object_prototype_names : list string :=
  [ "constructor"; "__defineGetter__"; "__defineSetter__"; "hasOwnProperty";
    "__lookupGetter__"; "__lookupSetter__"; "isPrototypeOf";
    "propertyIsEnumerable"; "toString"; "valueOf"; "__proto__";
    "toLocaleString" ].

Fixpoint assoc {A} (own : list (string * A)) (name : string) : option A :=
  match own with
  | [] => None
  | (k, a) :: own' => if String.eqb k name then Some a else assoc own' name
  end.

Definition literal_get {A} (own : list (string * A)) (name : string) : Property A :=
  match assoc own name with
  | Some a => Own a
  | None => if existsb (String.eqb name) object_prototype_names
            then Inherited name else Undefined
  end.

(** An inherited member in a template literal: the source text of a
    built-in function, or of the prototype object for [__proto__]. *)
Definition inherited_text (name : string) : string :=
  if String.eqb name "__proto__" then "[object Object]"
  else if String.eqb name "constructor" then "function Object() { [native code] }"
  else "function " ++ name ++ "() { [native code] }".

Definition property_text (p : Property string) : string :=
  match p with
  | Own s => s
  | Inherited name => inherited_text name
  | Undefined => "undefined"
  end.

(** A number read from a table, as an operand of [+] or [/]. *)
Definition property_value (p : Property float) : value :=
  match p with
  | Own x => VNum x
  | Inherited name => VStr (inherited_text name)
  | Undefined => VUndefined
  end.

End JsValue.

(* ================================================================= *)
(** ** The retrieval core: [srv/lib/agentic-rag.js] *)

Module Rag.
Import JsString JsNumber JsValue Runtime.
Local Open Scope js_scope.

(** *** Chunking *)

(** [text.split(/[.!?]+/).filter(s => s.trim().length > 0)] *)
Definition sentences (text : string) : list string :=
  filter (fun s => 0 <? String.length (trim s))
         (split_regex_class is_sentence_end text).

(** The overlap carried into the next chunk:
    [words.slice(-Math.floor(chunkOverlap / 10))] over
    [currentChunk.split(' ')]. *)
Definition overlapWords (currentChunk : string) (chunkOverlap : Z) : list string :=
  slice_from (- (chunkOverlap / 10))%Z (split_char " "%char currentChunk).

(** [currentChunk += (currentChunk ? ' ' : '') + sentence] *)
Definition extend (currentChunk sentence : string) : string :=
  (currentChunk ++ (if nonempty currentChunk then " " else "") ++ sentence)%string.

(** One turn of the loop of [splitText] over the pair
    [(chunks, currentChunk)]. *)
Definition splitText_step (chunkSize chunkOverlap : Z)
           (st : list string * string) (sentence : string)
  : list string * string :=
  let '(chunks, currentChunk) := st in
  if (Z.of_nat (String.length (currentChunk ++ sentence)) >? chunkSize)%Z
     && (0 <? String.length currentChunk)
  then (chunks ++ [trim currentChunk],
        (join " " (overlapWords currentChunk chunkOverlap) ++ " " ++ sentence)%string)
  else (chunks, extend currentChunk sentence).

Definition splitText (text : string) (chunkSize chunkOverlap : Z) : list string :=
  let '(chunks, currentChunk) :=
    fold_left (splitText_step chunkSize chunkOverlap) (sentences text) ([], "") in
  if nonempty (trim currentChunk)
  then chunks ++ [trim currentChunk] else chunks.

(** *** Embedding *)

Definition sustainabilityTerms : list string :=
  [ "packaging"; "emission"; "carbon"; "recycl"; "sustain"; "environment";
    "plastic"; "bottle"; "aluminum"; "glass"; "transport"; "energy";
    "target"; "goal"; "reduction"; "footprint"; "circular"; "regulation" ].

(** [text.toLowerCase().split(/\W+/).filter(w => w.length > 2)] *)
Definition embedding_words (text : string) : list string :=
  filter (fun w => 2 <? String.length w)
         (split_regex_class (fun c => negb (is_word_char c)) (toLowerCase text)).

(** The number of words that contain each term, as natural numbers. *)
Definition term_counts (text : string) : list nat :=
  map (fun term =>
         List.length (filter (fun word => includes word term) (embedding_words text)))
      sustainabilityTerms.

Section Numeric.
Context {T : Type} `{Number T}.

Definition createSimpleEmbedding (text : string) : list T :=
  map (fun n => of_Z (Z.of_nat n)) (term_counts text).

(** *** Similarity *)

(** The loop of [cosineSimilarity] over the pairs of components,
    from given values of [dotProduct], [normA] and [normB]. *)
Definition sums_from (acc : T * T * T) (l : list (T * T)) : T * T * T :=
  fold_left
    (fun acc xy =>
       let '(dotProduct, normA, normB) := acc in
       let '(x, y) := xy in
       (nadd dotProduct (nmul x y), nadd normA (nmul x x), nadd normB (nmul y y)))
    l acc.

Definition cosine_sums (vecA vecB : list T) : T * T * T :=
  sums_from (of_Z 0, of_Z 0, of_Z 0) (combine vecA vecB).

Definition cosineSimilarity (vecA vecB : list T) : T :=
  if negb (List.length vecA =? List.length vecB) then of_Z 0
  else
    let '(dotProduct, normA, normB) := cosine_sums vecA vecB in
    if neqb normA (of_Z 0) || neqb normB (of_Z 0) then of_Z 0
    else ndiv dotProduct (nmul (nsqrt normA) (nsqrt normB)).

(** *** The vector store *)

Record Metadata : Type := mkMetadata { source : string; chunk : nat }.

Record Doc : Type := mkDoc {
  doc_content : string;
  doc_embedding : list T;
  doc_metadata : Metadata
}.

Record Chunk : Type := mkChunk {
  chunk_id : string;
  chunk_content : string;
  chunk_embedding : list T;
  chunk_metadata : Metadata
}.

(** One entry of [similarities]. *)
Record Scored : Type := mkScored {
  id : string;
  similarity : T;
  content : string;
  metadata : Metadata
}.

(** [calculateConfidence(results)] *)
Definition calculateConfidence (results : list Scored) : T :=
  if List.length results =? 0 then of_Z 0
  else
    let avgSimilarity :=
      ndiv (fold_left (fun sum r => nadd sum (similarity r)) results (of_Z 0))
           (of_Z (Z.of_nat (List.length results))) in
    nmin (of_Q 0.95%Q) (nmax (of_Q 0.1%Q) avgSimilarity).

(** [Array.prototype.sort(compare)] is a stable sort.  [positive a b]
    says that [compare(a, b) > 0], which puts [a] after [b]. *)
Fixpoint sort_insert {A} (positive : A -> A -> bool) (x : A) (l : list A) : list A :=
  match l with
  | [] => [x]
  | y :: l' => if positive x y then y :: sort_insert positive x l'
               else x :: l
  end.

Definition sort {A} (positive : A -> A -> bool) (l : list A) : list A :=
  fold_right (sort_insert positive) [] l.

(** [(a, b) => b.similarity - a.similarity] is positive. *)
Definition by_similarity (a b : Scored) : bool :=
  nltb (of_Z 0) (nsub (similarity b) (similarity a)).

(** A JavaScript [Map] with string keys: the entries in insertion
    order; [set] overwrites in place or appends. *)
Fixpoint map_set {V} (k : string) (v : V) (m : list (string * V)) : list (string * V) :=
  match m with
  | [] => [(k, v)]
  | (k', v') :: m' =>
      if String.eqb k k' then (k, v) :: m' else (k', v') :: map_set k v m'
  end.

(** [process.env] after [parseInt]: [None] is NaN (unset or not a
    number). *)
Record Env : Type := mkEnv {
  RAG_CHUNK_SIZE : option Z;
  RAG_CHUNK_OVERLAP : option Z
}.

(** [parseInt(x) || d] *)
Definition or_default (x : option Z) (d : Z) : Z :=
  match x with
  | None | Some Z0 => d
  | Some z => z
  end.

(** What one call of the language model comes to. *)
Inductive LlmOutcome : Type :=
| Rejects (e : Exn)          (* generateContent rejects: error, timeout *)
| NoResponse                 (* the result carries no response object *)
| TextThrows (e : Exn)       (* response.text() throws: malformed response *)
| Generated (text : string) (tokenCount : option nat).

Record Message : Type := mkMessage { role : string; msg_content : string }.

(** The fields of an [AgenticRAGSystem]. *)
Record System : Type := mkSystem {
  model : list Message -> LlmOutcome;
  vectorStore : list (string * Doc);
  knowledgeBase : list (string * string);
  documentChunks : list Chunk;
  env : Env;
  world : World
}.

#[export] Instance system_has_world : HasWorld System := {
  get_world := world;
  set_world := fun w s =>
    mkSystem (model s) (vectorStore s) (knowledgeBase s) (documentChunks s) (env s) w
}.

Context {host : Host}.

(** The body of [chunks.forEach] in [initializeVectorStore]. *)
Definition add_chunk (filename : string)
           (st : list Chunk * list (string * Doc)) (ic : nat * string)
  : list Chunk * list (string * Doc) :=
  let '(chunks, store) := st in
  let '(index, chunk) := ic in
  let chunkId := md5_hex (filename ++ "-" ++ of_nat index ++ "-" ++ chunk) in
  let embedding := createSimpleEmbedding chunk in
  let meta := mkMetadata filename index in
  (chunks ++ [mkChunk chunkId chunk embedding meta],
   map_set chunkId (mkDoc chunk embedding meta) store).

Definition add_file (chunkSize chunkOverlap : Z)
           (st : list Chunk * list (string * Doc)) (file : string * string)
  : list Chunk * list (string * Doc) :=
  let '(filename, text) := file in
  let chunks := splitText text chunkSize chunkOverlap in
  fold_left (add_chunk filename) (combine (seq 0 (List.length chunks)) chunks) st.

Definition initializeVectorStore : M System unit :=
  fun s =>
    let chunkSize := or_default (RAG_CHUNK_SIZE (env s)) 1000 in
    let chunkOverlap := or_default (RAG_CHUNK_OVERLAP (env s)) 200 in
    let '(chunks, store) :=
      fold_left (add_file chunkSize chunkOverlap) (knowledgeBase s)
                ([], vectorStore s) in
    logger "info"
           ("Vector store initialized with " ++ of_nat (List.length chunks)
            ++ " document chunks")
           (mkSystem (model s) store (knowledgeBase s) chunks (env s) (world s)).

(** *** Retrieval *)

(** The list [similarities]: one entry per stored document, in the
    iteration order of the map. *)
Definition similarities (query : string) (store : list (string * Doc)) : list Scored :=
  let queryEmbedding := createSimpleEmbedding query in
  map (fun entry =>
         let '(id, doc) := entry in
         mkScored id (cosineSimilarity queryEmbedding (doc_embedding doc))
                  (doc_content doc) (doc_metadata doc))
      store.

(** The list [results]:
    [similarities.sort((a, b) => b.similarity - a.similarity).slice(0, topK)]. *)
Definition results (query : string) (topK : Z) (store : list (string * Doc)) : list Scored :=
  slice_to topK (sort by_similarity (similarities query store)).

Record Knowledge : Type := mkKnowledge {
  context : string;
  sources : list Metadata;
  confidence : T
}.

Definition nl : string := String (ascii_of_nat 10) EmptyString.

(** [queryKnowledge(query, agentType, topK = 5)] *)
Definition queryKnowledge (query : string) (topK : Z) : M System Knowledge :=
  try_catch
    ((fun s => if List.length (vectorStore s) =? 0
               then initializeVectorStore s else (Ok tt, s)) ;;;
     store <- (fun s => (Ok (vectorStore s), s)) ;;
     let res := results query topK store in
     logger "info" ("Knowledge query processed: " ++ take 50 query ++ "...") ;;;
     ret (mkKnowledge (join (nl ++ nl) (map content res))
                      (map metadata res)
                      (calculateConfidence res)))
    (fun error =>
       logger "error" ("Error querying knowledge base: " ++ exn_message error) ;;;
       throw error).

(** The store a query ranks: the one at hand, or the one built from
    the knowledge base when the one at hand is empty. *)
Definition indexed_store (s : System) : list (string * Doc) :=
  if List.length (vectorStore s) =? 0
  then snd (fold_left (add_file (or_default (RAG_CHUNK_SIZE (env s)) 1000)
                                (or_default (RAG_CHUNK_OVERLAP (env s)) 200))
                      (knowledgeBase s) ([], vectorStore s))
  else vectorStore s.

(** *** Agents and dispatch *)

Inductive AgentKind : Type := Packaging | Emission | SupplyChain | Regulatory.

Definition specialization (a : AgentKind) : string :=
  match a with
  | Packaging => "packaging"
  | Emission => "emission"
  | SupplyChain => "supplyChain"
  | Regulatory => "regulatory"
  end.

(** [this.agents[agentType]] *)
Definition agents_get (agentType : string) : Property AgentKind :=
  literal_get [ ("packaging", Packaging); ("emission", Emission);
                ("supplyChain", SupplyChain); ("regulatory", Regulatory) ]
              agentType.

(** [agentMap[analysisType]] *)
Definition agentMap_get (analysisType : string) : Property AgentKind :=
  literal_get [ ("packaging", Packaging); ("emissions", Emission);
                ("supply_chain", SupplyChain); ("regulatory", Regulatory) ]
              analysisType.

(** [agentMap[analysisType] || this.agents.packaging] *)
Definition getAgentForAnalysis (analysisType : string) : Property AgentKind :=
  match agentMap_get analysisType with
  | Undefined => Own Packaging
  | p => p
  end.

Definition buildPrompt (query context : string) : string :=
  "
Context Information about CCEP Sustainability:
" ++ context ++ "

User Query: " ++ query ++ "

Please provide a comprehensive answer based on the context information above. 
Focus on CCEP's sustainability goals:
- 30% GHG emission reduction by 2030
- 100% recyclable packaging by 2025  
- 50% recycled content in PET bottles by 2025
- Packaging accounts for 38% of carbon footprint
- Collection rates: Europe 76.7%, Asia Pacific 53%

Provide actionable insights and specific recommendations.
".

(** The system prompts of the four agents.  The two arrows (U+2192)
    of the packaging prompt lie outside the 8-bit code units of this
    model; each is held as the three bytes of its UTF-8 form. *)
Definition getSystemPrompt (a : AgentKind) : string :=
  match a with
  | Packaging =>
"You are a packaging sustainability expert for CCEP. You specialize in:
- Packaging material analysis and optimization
- Recyclability assessment and improvement strategies
- Recycled content implementation (target: 50% in PET bottles by 2025)
- Collection rate improvements (Europe: 76.7% → 85%, Asia Pacific: 53% → 70%)
- Packaging carbon footprint reduction (currently 38% of total emissions)
- Circular economy principles in packaging design
- Lightweighting and material innovation

Key CCEP targets:
- 100% recyclable packaging by 2025
- 50% recycled content in PET bottles by 2025
- Improve collection rates across regions
- Reduce packaging carbon footprint significantly

Always provide specific, measurable recommendations with timelines."
  | Emission =>
"You are a carbon emissions expert for CCEP. You specialize in:
- GHG emissions tracking and reduction
- Carbon footprint analysis
- Scope 1, 2, and 3 emissions management
- Emission factor calculations
- Climate target achievement
- Carbon reduction strategies

Key CCEP target:
- 30% GHG emission reduction by 2030
- Focus on packaging emissions (38% of total footprint)"
  | SupplyChain =>
"You are a sustainable supply chain expert for CCEP. You specialize in:
- Supplier sustainability assessment
- Supply chain carbon footprint
- Sustainable sourcing strategies
- Supplier engagement and development
- Supply chain risk management
- Circular supply chain design"
  | Regulatory =>
"You are a regulatory compliance expert for CCEP. You specialize in:
- Environmental regulations and compliance
- Extended Producer Responsibility (EPR)
- Packaging waste directives
- Carbon reporting requirements
- Regional regulatory differences
- Compliance risk assessment"
  end.

Record AgentResponse : Type := mkAgentResponse {
  answer : string;
  answer_confidence : T;
  tokensUsed : nat
}.

(** [BaseAgent.processQuery(query, knowledge)], inherited by the four
    agents. *)
Definition agent_processQuery (a : AgentKind) (query : string)
           (knowledge : Knowledge) : M System AgentResponse :=
  let prompt := buildPrompt query (context knowledge) in
  try_catch
    (fun s =>
       match model s [ mkMessage "system" (getSystemPrompt a);
                       mkMessage "user" prompt ] with
       | Rejects e => (Throw e, s)
       | NoResponse =>
           (Throw (TypeError "Cannot read properties of undefined (reading 'text')"), s)
       | TextThrows e => (Throw e, s)
       | Generated text tokenCount =>
           (Ok (mkAgentResponse text (confidence knowledge)
                                (match tokenCount with Some n => n | None => 0 end)),
            s)
       end)
    (fun error =>
       logger "error" ("Error in " ++ specialization a ++ " agent: "
                       ++ exn_message error) ;;;
       throw error).

Record QueryResponse : Type := mkQueryResponse {
  response : string;
  response_confidence : T;
  response_sources : list Metadata;
  agentType : string;
  timestamp : string
}.

(** [processQuery(query, agentType = 'general')] *)
Definition processQuery (query : string) (agentType : option string)
  : M System QueryResponse :=
  let agentType := match agentType with Some a => a | None => "general" end in
  try_catch
    (agent <- match agents_get agentType with
              | Undefined => throw (Error ("Unknown agent type: " ++ agentType))
              | p => ret p
              end ;;
     knowledge <- queryKnowledge query 5 ;;
     response <- match agent with
                 | Own a => agent_processQuery a query knowledge
                 | _ => throw (TypeError "agent.processQuery is not a function")
                 end ;;
     now <- new_Date ;;
     ret (mkQueryResponse (answer response) (answer_confidence response)
                          (sources knowledge) agentType (Date_toISOString now)))
    (fun error =>
       logger "error" ("Error processing query: " ++ exn_message error) ;;;
       throw error).

End Numeric.
End Rag.

(* ================================================================= *)
(** ** The domain agents: [srv/lib/agents/] *)

Module Agents.
Import JsString JsNumber JsValue Runtime.
Local Open Scope js_scope.
Local Open Scope float_scope.
#[local] Set Warnings "-inexact-float".

Section WithHost.
Context {host : Host}.

(* ------------------------------------------------------------- *)
(** *** [BaseAgent] *)

(** [requiredFields.every(field => ...)] over an object.  The values
    of a record are not functions, so a record with a property of
    its own named [hasOwnProperty] makes the call throw. *)
Fixpoint every_field (r : record) (requiredFields : list string) : M World bool :=
  match requiredFields with
  | [] => ret true
  | field :: rest =>
      if has_own r "hasOwnProperty"
      then throw (TypeError "data.hasOwnProperty is not a function")
      else
        let hasField :=
          has_own r field
          && match get r field with
             | VNull | VUndefined => false
             | _ => true
             end in
        if hasField then every_field r rest
        else logger "warn" ("Missing required field: " ++ field) ;;; ret false
  end.

(** [validateData(data, requiredFields)] *)
Definition validateData (d : data) (requiredFields : list string) : M World bool :=
  match d with
  | DValue _ => ret false
  | DObject r => every_field r requiredFields
  end.

(** A match of [\d+%], [\d+\.\d+] or [\$\d+] somewhere in the text. *)
Fixpoint has_metric_number (s : string) : bool :=
  match s with
  | String a (String b rest as s') =>
      (is_digit a && Ascii.eqb b "%")
      || (is_digit a && Ascii.eqb b "."
          && match rest with String c _ => is_digit c | EmptyString => false end)
      || (Ascii.eqb a "$" && is_digit b)
      || has_metric_number s'
  | _ => false
  end.

(** [/\d+%|\d+\.\d+|\$\d+|target|goal/i.test(s)] *)
Definition hasMetrics (s : string) : bool :=
  has_metric_number s
  || includes (toLowerCase s) "target" || includes (toLowerCase s) "goal".

(** [calculateConfidence(data, response)] of an agent whose
    [specialization] is given. *)
Definition calculateConfidence (specialization : string) (r : record)
           (response : string) : float :=
  let confidence := 0.5 in
  let confidence :=
    if (0 <? List.length (keys r))%nat then confidence + 0.1 else confidence in
  let confidence :=
    if nonempty response && (100 <? String.length response)%nat
    then confidence + 0.1 else confidence in
  let confidence := if hasMetrics response then confidence + 0.2 else confidence in
  let confidence :=
    if negb (String.eqb specialization "general")
    then confidence + 0.1 else confidence in
  float_min 0.95 confidence.

Definition getPriority (recommendation : string) : string :=
  let text := toLowerCase recommendation in
  if existsb (includes text) ["urgent"; "critical"; "immediate"; "compliance"; "risk"]
  then "High"
  else if existsb (includes text) ["improve"; "optimize"; "enhance"; "target"]
  then "Medium"
  else "Low".

Definition estimateImpact (recommendation : string) : string :=
  let text := toLowerCase recommendation in
  if existsb (includes text) ["reduce"; "increase"; "target"; "goal"; "significant"]
  then "High" else "Medium".

Definition estimateTimeframe (recommendation : string) : string :=
  let text := toLowerCase recommendation in
  if includes text "immediate" || includes text "urgent" then "1-3 months"
  else if includes text "short" || includes text "quick" then "3-6 months"
  else if includes text "long" || includes text "strategic" then "12+ months"
  else "6-12 months".

Record Recommendation : Type := mkRecommendation {
  rec_id : string;
  recommendation : string;
  priority : string;
  category : string;
  estimatedImpact : string;
  timeframe : string
}.

(** [formatRecommendations(recommendations)] *)
Definition formatRecommendations (specialization : string)
           (recommendations : list string) : list Recommendation :=
  map (fun ir : nat * string =>
         let '(index, rec) := ir in
         mkRecommendation (specialization ++ "_rec_" ++ of_nat (index + 1))
                          rec (getPriority rec) specialization
                          (estimateImpact rec) (estimateTimeframe rec))
      (combine (seq 0 (List.length recommendations)) recommendations).

(** [new Date().toISOString()] *)
Definition timestamp_now : M World string :=
  now <- new_Date ;; ret (Date_toISOString now).

(** A field of an entry of one of the program's tables, read through
    what the table lookup returned: [undefined] on anything but an
    entry. *)
Definition field {A} (p : Property A) (f : A -> value) : value :=
  match p with
  | Own a => f a
  | _ => VUndefined
  end.

(** [table[key] || fallback] *)
Definition or_else {A} (p : Property A) (fallback : A) : Property A :=
  match p with
  | Undefined => Own fallback
  | _ => p
  end.

(** [x.toLocaleString()] on a field of the input. *)
Definition toLocaleString (v : value) : M World string :=
  match v with
  | VNum x => ret (number_toLocaleString x)
  | VStr s => ret s
  | VBool true => ret "true"
  | VBool false => ret "false"
  | VNull => throw (TypeError "Cannot read properties of null (reading 'toLocaleString')")
  | VUndefined =>
      throw (TypeError "Cannot read properties of undefined (reading 'toLocaleString')")
  end.

(** [x.split(',')] on a truthy field of the input: only strings have
    the method. *)
Definition split_commas (what : string) (v : value) : M World (list string) :=
  match v with
  | VStr s => ret (split_char "," s)
  | _ => throw (TypeError (what ++ ".split is not a function"))
  end.

(** [x.toLowerCase()] on a field of the input. *)
Definition lower (what : string) (v : value) : M World string :=
  match v with
  | VStr s => ret (toLowerCase s)
  | VNull =>
      throw (TypeError "Cannot read properties of null (reading 'toLowerCase')")
  | VUndefined =>
      throw (TypeError "Cannot read properties of undefined (reading 'toLowerCase')")
  | _ => throw (TypeError (what ++ ".toLowerCase is not a function"))
  end.

Definition num (n : nat) : float := float_of_Z (Z.of_nat n).

(** [arr.push(...items)] when the condition holds. *)
Definition push_if {A} (c : bool) (items : list A) (l : list A) : list A :=
  if c then l ++ items else l.
(* ------------------------------------------------------------- *)
(** *** [PackagingAnalysisAgent] *)

Record MaterialTarget : Type := mkMaterialTarget {
  recyclableTarget : float;
  recycledContentTarget : float;
  carbonFootprintMax : float
}.

Definition PET : MaterialTarget := mkMaterialTarget 100 50 0.090.

Definition materialTargets : list (string * MaterialTarget) :=
  [ ("PET", PET);
    ("Aluminum", mkMaterialTarget 100 75 0.160);
    ("Glass", mkMaterialTarget 100 45 0.240);
    ("HDPE", mkMaterialTarget 90 35 0.070);
    ("Cardboard", mkMaterialTarget 95 80 0.050) ].

(** [this.materialTargets[material] || this.materialTargets.PET] *)
Definition targets_of (material : value) : Property MaterialTarget :=
  or_else (literal_get materialTargets (to_string material)) PET.

Record MaterialSpecific : Type := mkMaterialSpecific {
  recyclabilityStatus : option string;
  recycledContentStatus : option string;
  carbonFootprintStatus : option string;
  collectionStatus : option string;
  volumeCategory : option string
}.

Record PackagingAnalysis : Type := mkPackagingAnalysis {
  pa_insights : list string;
  materialSpecific : MaterialSpecific
}.

Definition categorizeVolume (volume : value) : string :=
  if ge (to_number volume) 5000000 then "Large"
  else if ge (to_number volume) 1000000 then "Medium"
  else if ge (to_number volume) 100000 then "Small"
  else "Pilot".

(** [analyzePackagingPerformance(data)] *)
Definition analyzePackagingPerformance (r : record) : M World PackagingAnalysis :=
  let material := to_string (get r "material") in
  let targets := targets_of (get r "material") in
  let recyclableT := field targets (fun t => VNum (recyclableTarget t)) in
  let recycledT := field targets (fun t => VNum (recycledContentTarget t)) in
  let carbonMax := field targets (fun t => VNum (carbonFootprintMax t)) in
  (* Recyclability Analysis *)
  let recyclableContent := get r "recyclableContent" in
  let '(insights, recyclability) :=
    if defined recyclableContent then
      let recyclabilityGap := to_number recyclableT - to_number recyclableContent in
      if gt recyclabilityGap 0 then
        ([ (material ++ " recyclability at " ++ to_string recyclableContent
            ++ "% is " ++ number_toString recyclabilityGap ++ "% below the "
            ++ to_string recyclableT ++ "% target")%string ],
         Some "Below Target")
      else
        ([ (material ++ " recyclability at " ++ to_string recyclableContent
            ++ "% meets or exceeds the " ++ to_string recyclableT
            ++ "% target")%string ],
         Some "On Target")
    else ([], None) in
  (* Recycled Content Analysis *)
  let recycledContent := get r "recycledContent" in
  let '(insights, recycled) :=
    if defined recycledContent then
      let recycledContentGap := to_number recycledT - to_number recycledContent in
      if gt recycledContentGap 0 then
        (insights ++
         [ (material ++ " recycled content at " ++ to_string recycledContent
            ++ "% needs " ++ number_toString recycledContentGap
            ++ "% improvement to meet " ++ to_string recycledT ++ "% target")%string ],
         Some "Below Target")
      else
        (insights ++
         [ (material ++ " recycled content at " ++ to_string recycledContent
            ++ "% meets the " ++ to_string recycledT ++ "% target")%string ],
         Some "On Target")
    else (insights, None) in
  (* Carbon Footprint Analysis *)
  let carbonFootprint := get r "carbonFootprint" in
  let '(insights, carbon) :=
    if defined carbonFootprint then
      if gt (to_number carbonFootprint) (to_number carbonMax) then
        let excess :=
          number_toFixed
            ((to_number carbonFootprint - to_number carbonMax)
             / to_number carbonMax * 100) 1 in
        (insights ++
         [ (material ++ " carbon footprint at " ++ to_string carbonFootprint
            ++ " kg CO2e is " ++ excess ++ "% above optimal levels")%string ],
         Some "Above Target")
      else
        (insights ++
         [ (material ++ " carbon footprint at " ++ to_string carbonFootprint
            ++ " kg CO2e is within optimal range")%string ],
         Some "On Target")
    else (insights, None) in
  (* Collection Rate Analysis *)
  let collectionRate := get r "collectionRate" in
  let region := to_string (get r "region") in
  let '(insights, collection) :=
    if defined collectionRate then
      let regionTarget := if is_string (get r "region") "Europe" then 85 else 70 in
      let collectionGap := regionTarget - to_number collectionRate in
      if gt collectionGap 0 then
        (insights ++
         [ ("Collection rate in " ++ region ++ " at " ++ to_string collectionRate
            ++ "% needs " ++ number_toString collectionGap
            ++ "% improvement to meet " ++ number_toString regionTarget
            ++ "% target")%string ],
         Some "Below Target")
      else
        (insights ++
         [ ("Collection rate in " ++ region ++ " at " ++ to_string collectionRate
            ++ "% meets the " ++ number_toString regionTarget ++ "% target")%string ],
         Some "On Target")
    else (insights, None) in
  (* Volume and Scale Analysis *)
  let volume := get r "volume" in
  if defined volume then
    let volumeCategory := categorizeVolume volume in
    units <- toLocaleString volume ;;
    ret (mkPackagingAnalysis
           (insights ++
            [ (material ++ " volume at " ++ units ++ " units represents "
               ++ volumeCategory ++ " scale production")%string ])
           (mkMaterialSpecific recyclability recycled carbon collection
                               (Some volumeCategory)))
  else
    ret (mkPackagingAnalysis insights
           (mkMaterialSpecific recyclability recycled carbon collection None)).

Definition status_is (status : option string) (text : string) : bool :=
  match status with
  | Some s => String.eqb s text
  | None => false
  end.

(** [generatePackagingRecommendations(analysis)] *)
Definition generatePackagingRecommendations (analysis : PackagingAnalysis)
  : list string :=
  let m := materialSpecific analysis in
  let recommendations :=
    push_if (status_is (recyclabilityStatus m) "Below Target")
      [ "Transition to fully recyclable material alternatives";
        "Eliminate multi-layer packaging that hinders recyclability";
        "Partner with recycling facilities to improve material compatibility" ] [] in
  let recommendations :=
    push_if (status_is (recycledContentStatus m) "Below Target")
      [ "Increase supplier partnerships for recycled materials";
        "Invest in recycled content processing capabilities";
        "Implement closed-loop recycling systems" ] recommendations in
  let recommendations :=
    push_if (status_is (carbonFootprintStatus m) "Above Target")
      [ "Optimize packaging design to reduce material usage";
        "Switch to lower-carbon alternative materials";
        "Improve transportation efficiency through packaging optimization" ]
      recommendations in
  let recommendations :=
    push_if (status_is (collectionStatus m) "Below Target")
      [ "Expand collection infrastructure in underperforming regions";
        "Implement consumer education programs on proper disposal";
        "Partner with local governments on collection initiatives" ]
      recommendations in
  recommendations ++
    [ "Explore bio-based packaging alternatives";
      "Implement smart packaging with recycling instructions";
      "Develop regional packaging strategies based on local infrastructure" ].

Record PackagingKPIs : Type := mkPackagingKPIs {
  recyclabilityScore : option value;
  pk_sustainabilityIndex : option float;
  carbonIntensity : option float;
  recyclabilityAchievement : option float;
  recycledContentAchievement : option float
}.

(** [sum += x; factors++] when [x !== undefined] *)
Definition accumulate (x : value) (acc : value * nat) : value * nat :=
  if defined x then (plus (fst acc) x, S (snd acc)) else acc.

(** [calculatePackagingKPIs(data)] *)
Definition calculatePackagingKPIs (r : record) : PackagingKPIs :=
  let recyclableContent := get r "recyclableContent" in
  let recycledContent := get r "recycledContent" in
  let collectionRate := get r "collectionRate" in
  let carbonFootprint := get r "carbonFootprint" in
  let volume := get r "volume" in
  let '(sustainabilityIndex, factors) :=
    accumulate collectionRate
      (accumulate recycledContent
         (accumulate recyclableContent (VNum 0, O))) in
  let targets := targets_of (get r "material") in
  mkPackagingKPIs
    (if defined recyclableContent then Some recyclableContent else None)
    (if (0 <? factors)%nat
     then Some (to_number sustainabilityIndex / num factors) else None)
    (if defined carbonFootprint && defined volume && gt (to_number volume) 0
     then Some (to_number carbonFootprint / to_number volume * 1000) else None)
    (if defined recyclableContent
     then Some (to_number recyclableContent
                / to_number (field targets (fun t => VNum (recyclableTarget t)))
                * 100)
     else None)
    (if defined recycledContent
     then Some (to_number recycledContent
                / to_number (field targets (fun t => VNum (recycledContentTarget t)))
                * 100)
     else None).

Record PackagingInsights : Type := mkPackagingInsights {
  p_insights : list string;
  p_recommendations : list Recommendation;
  p_kpis : PackagingKPIs;
  p_confidence : float;
  p_agent : string;
  p_timestamp : string;
  materialAnalysis : MaterialSpecific
}.

(** [PackagingAnalysisAgent.generateInsights(packagingData)] *)
Definition generateInsights_packaging (d : data) : M World PackagingInsights :=
  try_catch
    (valid <- validateData d ["material"; "region"] ;;
     match valid, d with
     | true, DObject r =>
         analysis <- analyzePackagingPerformance r ;;
         let recommendations := generatePackagingRecommendations analysis in
         let kpis := calculatePackagingKPIs r in
         logger "info" ("Generated packaging insights for "
                        ++ to_string (get r "material") ++ " in "
                        ++ to_string (get r "region")) ;;;
         timestamp <- timestamp_now ;;
         ret (mkPackagingInsights
                (pa_insights analysis)
                (formatRecommendations "packaging" recommendations)
                kpis
                (calculateConfidence "packaging" r (join " " (pa_insights analysis)))
                "packaging" timestamp (materialSpecific analysis))
     | _, _ => throw (Error "Invalid packaging data provided")
     end)
    (fun error =>
       logger "error" ("Error generating packaging insights: "
                       ++ exn_message error) ;;;
       throw error).
(* ------------------------------------------------------------- *)
(** *** [EmissionTrackingAgent] *)

(** [this.emissionTargets] *)
Definition overall_reductionTarget : float := 30.
Definition overall_baselineYear : float := 2020.
Definition overall_targetYear : float := 2030.

Definition scope_target (scope : string) : float :=
  if String.eqb scope "scope1" then 25
  else if String.eqb scope "scope2" then 35
  else 30.

Record RegionalTarget : Type := mkRegionalTarget {
  regional_target : float;
  currentProgress : float
}.

Definition regional : list (string * RegionalTarget) :=
  [ ("Europe", mkRegionalTarget 32 19.8);
    ("Asia Pacific", mkRegionalTarget 28 18.5) ].

(** [list.includes(source)] for a list of strings *)
Definition among (source : value) (l : list string) : bool :=
  match source with
  | VStr s => existsb (String.eqb s) l
  | _ => false
  end.

Definition determineScope (source : value) : string :=
  if among source ["Manufacturing"; "Operations"; "Water Treatment"] then "scope1"
  else if among source ["Energy Consumption"; "Refrigeration"] then "scope2"
  else if among source ["Packaging"; "Transportation"; "Supply Chain"; "SupplyChain"]
  then "scope3"
  else "scope3".

(** [((data.baseline - data.value) / data.baseline) * 100] *)
Definition reduction (r : record) : float :=
  (to_number (get r "baseline") - to_number (get r "value"))
  / to_number (get r "baseline") * 100.

Record ScopeSpecific : Type := mkScopeSpecific {
  performanceStatus : option string;
  reductionAchieved : option float;
  scope : string;
  scopeTarget : float;
  regionalStatus : option string;
  intensity : option float;
  verified : option value
}.

Record EmissionAnalysis : Type := mkEmissionAnalysis {
  ea_insights : list string;
  scopeSpecific : ScopeSpecific
}.

(** [analyzeEmissionPerformance(data)] *)
Definition analyzeEmissionPerformance (r : record) : EmissionAnalysis :=
  let source := to_string (get r "source") in
  let scope := determineScope (get r "source") in
  (* Current vs Baseline Analysis *)
  let '(insights, status, achieved) :=
    if truthy (get r "baseline") && truthy (get r "value") then
      let reductionAchieved := reduction r in
      let targetReduction := overall_reductionTarget in
      if ge reductionAchieved targetReduction then
        ([ (source ++ " emissions show " ++ number_toFixed reductionAchieved 1
            ++ "% reduction, exceeding the " ++ number_toString targetReduction
            ++ "% target")%string ],
         Some "Exceeding Target", Some reductionAchieved)
      else
        let gap := targetReduction - reductionAchieved in
        ([ (source ++ " emissions show " ++ number_toFixed reductionAchieved 1
            ++ "% reduction, " ++ number_toFixed gap 1 ++ "% short of "
            ++ number_toString targetReduction ++ "% target")%string ],
         Some "Below Target", Some reductionAchieved)
    else ([], None, None) in
  (* Scope-specific Analysis *)
  let scopeTarget := scope_target scope in
  let insights :=
    insights ++
    [ (source ++ " falls under " ++ toUpperCase scope ++ " with a "
       ++ number_toString scopeTarget ++ "% reduction target")%string ] in
  (* Regional Analysis *)
  let region := get r "region" in
  let entry := literal_get regional (to_string region) in
  let '(insights, regionalStatus) :=
    if truthy region
       && match entry with Undefined => false | _ => true end
    then
      let regionalTarget := field entry (fun e => VNum (regional_target e)) in
      let progress := field entry (fun e => VNum (currentProgress e)) in
      (insights ++
       [ (to_string region ++ " region shows " ++ to_string progress
          ++ "% progress toward " ++ to_string regionalTarget
          ++ "% target")%string ],
       Some (if ge (to_number progress) (to_number regionalTarget)
             then "On Track" else "Behind Target"))
    else (insights, None) in
  (* Intensity Analysis *)
  let '(insights, intensity) :=
    if truthy (get r "value") && truthy (get r "volume") then
      let intensity := to_number (get r "value") / to_number (get r "volume") in
      (insights ++
       [ ("Emission intensity for " ++ source ++ " is "
          ++ number_toFixed intensity 4 ++ " " ++ to_string (get r "unit")
          ++ "/unit")%string ],
       Some intensity)
    else (insights, None) in
  (* Verification Status *)
  let '(insights, verified) :=
    if defined (get r "verified") then
      let verificationStatus :=
        if truthy (get r "verified") then "third-party verified"
        else "not yet verified" in
      (insights ++
       [ (source ++ " emissions data is " ++ verificationStatus)%string ],
       Some (get r "verified"))
    else (insights, None) in
  mkEmissionAnalysis insights
    (mkScopeSpecific status achieved scope scopeTarget regionalStatus
                     intensity verified).

(** [generateEmissionRecommendations(analysis)] *)
Definition generateEmissionRecommendations (analysis : EmissionAnalysis)
  : list string :=
  let s := scopeSpecific analysis in
  let recommendations :=
    push_if (status_is (performanceStatus s) "Below Target")
      [ "Accelerate emission reduction initiatives to meet 2030 targets";
        "Implement additional carbon reduction projects";
        "Review and strengthen current reduction strategies" ] [] in
  let recommendations :=
    recommendations ++
    (if String.eqb (scope s) "scope1" then
       [ "Improve energy efficiency in manufacturing operations";
         "Switch to renewable energy sources for direct operations";
         "Optimize combustion processes and reduce fuel consumption" ]
     else if String.eqb (scope s) "scope2" then
       [ "Transition to renewable electricity contracts";
         "Implement energy management systems";
         "Upgrade to energy-efficient equipment and lighting" ]
     else if String.eqb (scope s) "scope3" then
       [ "Engage suppliers on emission reduction commitments";
         "Optimize transportation and logistics networks";
         "Implement sustainable packaging strategies" ]
     else []) in
  let recommendations :=
    push_if (status_is (regionalStatus s) "Behind Target")
      [ "Develop region-specific emission reduction roadmap";
        "Increase investment in regional clean technology";
        "Strengthen local partnerships for emission reduction" ] recommendations in
  let recommendations :=
    push_if (negb (match verified s with Some v => truthy v | None => false end))
      [ "Obtain third-party verification for emission data";
        "Implement robust monitoring and reporting systems";
        "Align with international standards (GHG Protocol, ISO 14064)" ]
      recommendations in
  recommendations ++
    [ "Invest in carbon capture and utilization technologies";
      "Explore nature-based carbon offset solutions";
      "Implement circular economy principles to reduce emissions" ].

Record EmissionKPIs : Type := mkEmissionKPIs {
  reductionProgress : option float;
  targetProgress : option float;
  emissionIntensity : option float;
  annualReductionRate : option float;
  targetAchievementScore : option float;
  carbonEfficiencyScore : option float
}.

(** [new Date().getFullYear()] *)
Definition current_year : M World float :=
  now <- new_Date ;; ret (Date_getFullYear now).

Definition truthy_number (x : option float) : bool :=
  match x with
  | Some v => number_truthy v
  | None => false
  end.

(** [calculateEmissionKPIs(data)] *)
Definition calculateEmissionKPIs (r : record) : M World EmissionKPIs :=
  let measured := truthy (get r "baseline") && truthy (get r "value") in
  (* Reduction Progress *)
  let reductionProgress := if measured then Some (reduction r) else None in
  let targetProgress :=
    if measured then Some (reduction r / overall_reductionTarget * 100) else None in
  (* Emission Intensity *)
  let emissionIntensity :=
    if truthy (get r "value") && truthy (get r "volume")
    then Some (to_number (get r "value") / to_number (get r "volume")) else None in
  (* Annual Reduction Rate *)
  annualReductionRate <-
    (if measured then
       year <- current_year ;;
       let yearsElapsed := year - overall_baselineYear in
       ret (if gt yearsElapsed 0 then Some (reduction r / yearsElapsed) else None)
     else ret None) ;;
  (* Target Achievement Score *)
  let targetAchievementScore :=
    match targetProgress with
    | Some p => if number_truthy p
                then Some (float_min 100 (float_max 0 p)) else None
    | None => None
    end in
  (* Carbon Efficiency Score *)
  let scopeTarget := scope_target (determineScope (get r "source")) in
  let carbonEfficiencyScore :=
    match reductionProgress with
    | Some p => if number_truthy p then Some (p / scopeTarget * 100) else None
    | None => None
    end in
  ret (mkEmissionKPIs reductionProgress targetProgress emissionIntensity
                      annualReductionRate targetAchievementScore
                      carbonEfficiencyScore).

Record Trajectory : Type := mkTrajectory {
  currentReduction : float;
  targetReduction : float;
  requiredAnnualReduction : float;
  onTrack : bool
}.

Record Scenario : Type := mkScenario {
  annualReduction : float;
  finalReduction : float
}.

Record Projections : Type := mkProjections {
  currentTrajectory : option Trajectory;
  conservative : option Scenario;
  realistic : option Scenario;
  optimistic : option Scenario
}.

(** [calculateEmissionProjections(data)] *)
Definition calculateEmissionProjections (r : record) : M World Projections :=
  currentYear <- current_year ;;
  let yearsToTarget := overall_targetYear - currentYear in
  if truthy (get r "baseline") && truthy (get r "value") && gt yearsToTarget 0 then
    let currentReduction := reduction r in
    let targetReduction := overall_reductionTarget in
    let requiredAnnualReduction := (targetReduction - currentReduction) / yearsToTarget in
    ret (mkProjections
           (Some (mkTrajectory currentReduction targetReduction
                               requiredAnnualReduction
                               (le requiredAnnualReduction 2.0)))
           (Some (mkScenario
                    (float_max 1.0 (requiredAnnualReduction * 0.7))
                    (currentReduction
                     + float_max 1.0 (requiredAnnualReduction * 0.7) * yearsToTarget)))
           (Some (mkScenario requiredAnnualReduction targetReduction))
           (Some (mkScenario
                    (requiredAnnualReduction * 1.3)
                    (currentReduction + requiredAnnualReduction * 1.3 * yearsToTarget))))
  else ret (mkProjections None None None None).

Record EmissionInsights : Type := mkEmissionInsights {
  e_insights : list string;
  e_recommendations : list Recommendation;
  e_kpis : EmissionKPIs;
  projections : Projections;
  e_confidence : float;
  e_agent : string;
  e_timestamp : string;
  scopeAnalysis : ScopeSpecific
}.

(** [data.region || 'Global'] *)
Definition region_or_global (r : record) : string :=
  if truthy (get r "region") then to_string (get r "region") else "Global".

(** [EmissionTrackingAgent.generateInsights(emissionData)] *)
Definition generateInsights_emission (d : data) : M World EmissionInsights :=
  try_catch
    (valid <- validateData d ["source"; "value"; "unit"] ;;
     match valid, d with
     | true, DObject r =>
         let analysis := analyzeEmissionPerformance r in
         let recommendations := generateEmissionRecommendations analysis in
         kpis <- calculateEmissionKPIs r ;;
         projections <- calculateEmissionProjections r ;;
         logger "info" ("Generated emission insights for "
                        ++ to_string (get r "source") ++ " in "
                        ++ region_or_global r) ;;;
         timestamp <- timestamp_now ;;
         ret (mkEmissionInsights
                (ea_insights analysis)
                (formatRecommendations "emission" recommendations)
                kpis projections
                (calculateConfidence "emission" r (join " " (ea_insights analysis)))
                "emission" timestamp (scopeSpecific analysis))
     | _, _ => throw (Error "Invalid emission data provided")
     end)
    (fun error =>
       logger "error" ("Error generating emission insights: "
                       ++ exn_message error) ;;;
       throw error).
(* ------------------------------------------------------------- *)
(** *** [SupplyChainAgent] *)

(** [categorizeSustainabilityScore(score)], with the minima of
    [this.sustainabilityThresholds]. *)
Definition categorizeSustainabilityScore (score : float) : string :=
  if ge score 8.5 then "Excellent"
  else if ge score 7.0 then "Good"
  else if ge score 5.5 then "Fair"
  else if ge score 3.0 then "Poor"
  else "Critical".

Definition categorizeContractValue (v : float) : string :=
  if ge v 50000000 then "Strategic"
  else if ge v 10000000 then "Key"
  else if ge v 1000000 then "Important"
  else "Standard".

Record SupplierSpecific : Type := mkSupplierSpecific {
  scoreCategory : string;
  scoreStatus : string;
  carbonIntensityStatus : option string;
  recycledContentCapability : option string;
  certificationCount : option nat;
  certifications : option (list string);
  sp_performanceStatus : option string;
  valueCategory : option string;
  riskLevel : option value
}.

Record SupplierAnalysis : Type := mkSupplierAnalysis {
  sa_insights : list string;
  supplierSpecific : SupplierSpecific
}.

(** [analyzeSupplierPerformance(data)] *)
Definition analyzeSupplierPerformance (r : record) : M World SupplierAnalysis :=
  let supplier := to_string (get r "supplier") in
  let score := get r "sustainabilityScore" in
  (* Sustainability Score Analysis *)
  let scoreCategory := categorizeSustainabilityScore (to_number score) in
  let insights :=
    [ (supplier ++ " has a sustainability score of " ++ to_string score
       ++ "/10, categorized as '" ++ scoreCategory ++ "'")%string ] in
  let scoreStatus :=
    if ge (to_number score) 8.5 then "Excellent"
    else if ge (to_number score) 7.0 then "Good" else "Needs Improvement" in
  (* Carbon Intensity Analysis *)
  let carbonIntensity := get r "carbonIntensity" in
  let '(insights, intensity) :=
    if defined carbonIntensity then
      let intensityStatus :=
        if le (to_number carbonIntensity) 2.0 then "Low"
        else if le (to_number carbonIntensity) 4.0 then "Medium" else "High" in
      (insights ++
       [ ("Carbon intensity at " ++ to_string carbonIntensity
          ++ " kg CO2e/unit is " ++ toLowerCase intensityStatus)%string ],
       Some intensityStatus)
    else (insights, None) in
  (* Recycled Content Capability Analysis *)
  let capability := get r "recycledContentCapability" in
  let '(insights, capabilityLevel) :=
    if defined capability then
      let level :=
        if ge (to_number capability) 75 then "High"
        else if ge (to_number capability) 50 then "Medium" else "Low" in
      (insights ++
       [ ("Recycled content capability at " ++ to_string capability
          ++ "% is " ++ toLowerCase level)%string ],
       Some level)
    else (insights, None) in
  (* Certification Analysis *)
  let certs := get r "certifications" in
  certification <-
    (if truthy certs then
       parts <- split_commas "data.certifications" certs ;;
       ret (insights ++
            [ ("Supplier holds " ++ of_nat (List.length parts)
               ++ " sustainability certification(s): " ++ to_string certs)%string ],
            Some (List.length parts), Some (map trim parts))
     else ret (insights, None, None)) ;;
  let '(insights, certCount, certList) := certification in
  (* Performance Rating Analysis *)
  let rating := get r "performanceRating" in
  let '(insights, ratingStatus) :=
    if defined rating then
      let status :=
        if ge (to_number rating) 8.0 then "Excellent"
        else if ge (to_number rating) 6.0 then "Good" else "Poor" in
      (insights ++
       [ ("Overall performance rating of " ++ to_string rating ++ "/10 is "
          ++ toLowerCase status)%string ],
       Some status)
    else (insights, None) in
  (* Contract Value Analysis *)
  let contractValue := get r "contractValue" in
  contract <-
    (if defined contractValue then
       let valueCategory := categorizeContractValue (to_number contractValue) in
       amount <- toLocaleString contractValue ;;
       ret (insights ++
            [ ("Contract value of " ++ amount ++ " represents " ++ valueCategory
               ++ " supplier relationship")%string ],
            Some valueCategory)
     else ret (insights, None)) ;;
  let '(insights, valueCategory) := contract in
  (* Risk Level Analysis *)
  let risk := get r "riskLevel" in
  if truthy risk then
    level <- lower "data.riskLevel" risk ;;
    ret (mkSupplierAnalysis
           (insights ++
            [ ("Supplier risk level is assessed as " ++ level)%string ])
           (mkSupplierSpecific scoreCategory scoreStatus intensity capabilityLevel
                               certCount certList ratingStatus valueCategory
                               (Some risk)))
  else
    ret (mkSupplierAnalysis insights
           (mkSupplierSpecific scoreCategory scoreStatus intensity capabilityLevel
                               certCount certList ratingStatus valueCategory None)).

(** [generateSupplyChainRecommendations(analysis)] *)
Definition generateSupplyChainRecommendations (analysis : SupplierAnalysis)
  : list string :=
  let s := supplierSpecific analysis in
  let recommendations :=
    push_if (String.eqb (scoreStatus s) "Needs Improvement")
      [ "Implement supplier development program to improve sustainability performance";
        "Provide sustainability training and capacity building support";
        "Set clear improvement targets with timeline and milestones" ] [] in
  let recommendations :=
    push_if (status_is (carbonIntensityStatus s) "High")
      [ "Work with supplier to develop carbon reduction roadmap";
        "Encourage adoption of renewable energy and energy efficiency measures";
        "Consider carbon pricing in supplier contracts" ] recommendations in
  let recommendations :=
    push_if (status_is (recycledContentCapability s) "Low")
      [ "Support supplier investment in recycled content processing capabilities";
        "Connect supplier with recycled material sources and technologies";
        "Establish recycled content targets in supply agreements" ] recommendations in
  let recommendations :=
    push_if (match certifications s, certificationCount s with
             | Some _, Some n => (n <? 2)%nat
             | _, _ => true
             end)
      [ "Encourage supplier to obtain relevant sustainability certifications";
        "Provide guidance on certification requirements and processes";
        "Consider certification requirements in future contracts" ] recommendations in
  let recommendations :=
    push_if (status_is (sp_performanceStatus s) "Poor")
      [ "Conduct detailed supplier assessment and improvement planning";
        "Consider supplier replacement if improvement targets are not met";
        "Implement enhanced monitoring and reporting requirements" ] recommendations in
  let recommendations :=
    push_if (match riskLevel s with Some v => is_string v "High" | None => false end)
      [ "Develop comprehensive risk mitigation plan";
        "Increase supplier monitoring and audit frequency";
        "Diversify supplier base to reduce dependency" ] recommendations in
  recommendations ++
    [ "Implement supplier sustainability scorecards and regular reviews";
      "Establish long-term partnerships with high-performing suppliers";
      "Integrate sustainability criteria into supplier selection processes" ].

Record SupplyChainKPIs : Type := mkSupplyChainKPIs {
  sc_sustainabilityIndex : option float;
  sc_carbonEfficiencyScore : option float;
  circularEconomyScore : option float;
  sc_complianceScore : option float;
  overallSupplierRating : option float;
  valueWeightedPerformance : option float
}.

(** [calculateSupplyChainKPIs(data)] *)
Definition calculateSupplyChainKPIs (r : record) : M World SupplyChainKPIs :=
  let score := get r "sustainabilityScore" in
  let carbonIntensity := get r "carbonIntensity" in
  let capability := get r "recycledContentCapability" in
  let rating := get r "performanceRating" in
  let certs := get r "certifications" in
  let contractValue := get r "contractValue" in
  let '(circularityScore, factors) := accumulate capability (VNum 0, O) in
  complianceScore <-
    (if truthy certs then
       parts <- split_commas "data.certifications" certs ;;
       ret (Some (float_min 100 (num (List.length parts) * 25)))
     else ret None) ;;
  let overallRating := 0 in
  let overallRating :=
    if defined score then overallRating + to_number score * 10 else overallRating in
  let overallRating :=
    if defined rating then overallRating + to_number rating * 10 else overallRating in
  let ratingFactors :=
    ((if defined score then 1 else 0) + (if defined rating then 1 else 0))%nat in
  ret (mkSupplyChainKPIs
         (if defined score then Some (to_number score / 10 * 100) else None)
         (if defined carbonIntensity
          then Some (float_max 0 (100 - to_number carbonIntensity * 25)) else None)
         (if (0 <? factors)%nat
          then Some (to_number circularityScore / num factors) else None)
         complianceScore
         (if (0 <? ratingFactors)%nat
          then Some (overallRating / num ratingFactors) else None)
         (if truthy contractValue && truthy score
          then Some (to_number contractValue * (to_number score / 10)) else None)).

Record RiskAssessment : Type := mkRiskAssessment {
  overallRisk : string;
  riskFactors : list string;
  mitigationStrategies : list string;
  riskScore : option float
}.

(** [assessSupplierRisk(data)] *)
Definition assessSupplierRisk (r : record) : RiskAssessment :=
  let score := get r "sustainabilityScore" in
  let carbonIntensity := get r "carbonIntensity" in
  let region := get r "region" in
  let contractValue := get r "contractValue" in
  (* Sustainability risk *)
  let sustainabilityRisk :=
    if lt (to_number score) 6.0 then 3%nat
    else if lt (to_number score) 8.0 then 1%nat else 0%nat in
  let '(riskScore, maxRiskScore, factors, strategies) :=
    if defined score then
      (sustainabilityRisk, 3%nat,
       push_if (0 <? sustainabilityRisk)%nat ["Low sustainability performance"] [],
       push_if (0 <? sustainabilityRisk)%nat ["Implement supplier development program"] [])
    else (0%nat, 0%nat, [], []) in
  (* Carbon intensity risk *)
  let carbonRisk :=
    if gt (to_number carbonIntensity) 4.0 then 2%nat
    else if gt (to_number carbonIntensity) 2.0 then 1%nat else 0%nat in
  let '(riskScore, maxRiskScore, factors, strategies) :=
    if defined carbonIntensity then
      ((riskScore + carbonRisk)%nat, (maxRiskScore + 2)%nat,
       push_if (0 <? carbonRisk)%nat ["High carbon intensity"] factors,
       push_if (0 <? carbonRisk)%nat ["Support carbon reduction initiatives"] strategies)
    else (riskScore, maxRiskScore, factors, strategies) in
  (* Geographic risk *)
  let geoRisk := if is_string region "Asia Pacific" then 1%nat else 0%nat in
  let '(riskScore, maxRiskScore, factors, strategies) :=
    if truthy region then
      ((riskScore + geoRisk)%nat, (maxRiskScore + 1)%nat,
       push_if (0 <? geoRisk)%nat ["Geographic regulatory risk"] factors,
       push_if (0 <? geoRisk)%nat ["Monitor regulatory changes and compliance"] strategies)
    else (riskScore, maxRiskScore, factors, strategies) in
  (* Contract value risk *)
  let valueRisk := if gt (to_number contractValue) 10000000 then 1%nat else 0%nat in
  let '(riskScore, maxRiskScore, factors, strategies) :=
    if defined contractValue then
      ((riskScore + valueRisk)%nat, (maxRiskScore + 1)%nat,
       push_if (0 <? valueRisk)%nat ["High contract value dependency"] factors,
       push_if (0 <? valueRisk)%nat ["Diversify supplier base"] strategies)
    else (riskScore, maxRiskScore, factors, strategies) in
  (* Calculate overall risk level *)
  if (0 <? maxRiskScore)%nat then
    let riskPercentage := num riskScore / num maxRiskScore * 100 in
    mkRiskAssessment
      (if gt riskPercentage 60 then "High"
       else if gt riskPercentage 30 then "Medium" else "Low")
      factors strategies (Some riskPercentage)
  else mkRiskAssessment "Medium" factors strategies None.

Record SupplyChainInsights : Type := mkSupplyChainInsights {
  s_insights : list string;
  s_recommendations : list Recommendation;
  s_kpis : SupplyChainKPIs;
  s_riskAssessment : RiskAssessment;
  s_confidence : float;
  s_agent : string;
  s_timestamp : string;
  supplierAnalysis : SupplierSpecific
}.

(** [SupplyChainAgent.generateInsights(supplierData)] *)
Definition generateInsights_supplyChain (d : data) : M World SupplyChainInsights :=
  try_catch
    (valid <- validateData d ["supplier"; "sustainabilityScore"] ;;
     match valid, d with
     | true, DObject r =>
         analysis <- analyzeSupplierPerformance r ;;
         let recommendations := generateSupplyChainRecommendations analysis in
         kpis <- calculateSupplyChainKPIs r ;;
         let riskAssessment := assessSupplierRisk r in
         logger "info" ("Generated supply chain insights for "
                        ++ to_string (get r "supplier") ++ " in "
                        ++ region_or_global r) ;;;
         timestamp <- timestamp_now ;;
         ret (mkSupplyChainInsights
                (sa_insights analysis)
                (formatRecommendations "supplyChain" recommendations)
                kpis riskAssessment
                (calculateConfidence "supplyChain" r (join " " (sa_insights analysis)))
                "supplyChain" timestamp (supplierSpecific analysis))
     | _, _ => throw (Error "Invalid supplier data provided")
     end)
    (fun error =>
       logger "error" ("Error generating supply chain insights: "
                       ++ exn_message error) ;;;
       throw error).
(* ------------------------------------------------------------- *)
(** *** [RegulatoryComplianceAgent] *)

Record Regulation : Type := mkRegulation {
  reg_deadline : string;
  requirements : list string;
  reg_riskLevel : string;
  penalties : string
}.

Definition regulations_europe : list (string * Regulation) :=
  [ ("EU Single-Use Plastics Directive",
     mkRegulation "2024-12-31"
       [ "Ban on certain single-use plastics";
         "90% collection target for PET bottles" ]
       "High" "Significant fines and market restrictions");
    ("Extended Producer Responsibility (EPR)",
     mkRegulation "2025-06-30"
       [ "Producer responsibility for packaging waste";
         "Financial contributions to recycling" ]
       "High" "Financial penalties and operational restrictions");
    ("Packaging and Packaging Waste Directive",
     mkRegulation "2025-12-31"
       [ "Recycling targets"; "Reusable packaging requirements" ]
       "Medium" "Fines and compliance orders");
    ("EU Taxonomy Regulation",
     mkRegulation "2024-01-01"
       [ "Sustainability reporting"; "Green investment classification" ]
       "Medium" "Reporting violations and investor scrutiny") ].

Definition regulations_asiaPacific : list (string * Regulation) :=
  [ ("China Plastic Waste Import Ban",
     mkRegulation "2024-01-01"
       [ "Domestic recycling capacity"; "Waste reduction targets" ]
       "High" "Import restrictions and operational limitations");
    ("Japan Plastic Resource Circulation Act",
     mkRegulation "2025-04-01"
       [ "Plastic waste reduction"; "Recycling promotion" ]
       "Medium" "Administrative guidance and fines");
    ("Australia National Packaging Targets",
     mkRegulation "2025-12-31"
       [ "100% recyclable packaging"; "70% recycling rate" ]
       "Medium" "Industry sanctions and public reporting") ].

Definition regulations_global : list (string * Regulation) :=
  [ ("Paris Agreement",
     mkRegulation "2030-12-31"
       [ "GHG emission reduction"; "Climate reporting" ]
       "High" "International sanctions and reputation damage");
    ("UN Sustainable Development Goals",
     mkRegulation "2030-12-31"
       [ "Sustainability targets"; "Progress reporting" ]
       "Low" "Reputation and stakeholder pressure") ].

Definition regulations : list (string * list (string * Regulation)) :=
  [ ("europe", regulations_europe);
    ("asiaPacific", regulations_asiaPacific);
    ("global", regulations_global) ].

(** [findRegulation(regulationName, region)].  The region key is looked
    up among the three regions of the table only.  For the two keys
    that name a member of [Object.prototype], [constructor] and
    [__proto__], the code reads a built-in object instead of a table
    of regulations; these keys are outside this model, and every
    statement about this function leaves them out
    ([Spec.plain_region]). *)
Definition findRegulation (regulationName region : value)
  : M World (Property Regulation) :=
  lowered <- lower "region" region ;;
  let regionKey := remove_first " " lowered in
  let table :=
    match assoc regulations regionKey with
    | Some t => t
    | None => regulations_global
    end in
  ret (literal_get table (to_string regulationName)).

(** [table[key] || fallback] for a table of numbers *)
Definition number_or (table : list (string * float)) (key : string)
           (fallback : float) : Property float :=
  match literal_get table key with
  | Own x => if number_truthy x then Own x else Own fallback
  | Inherited name => Inherited name
  | Undefined => Own fallback
  end.

Definition assessComplianceLevel (status : value) : Property string :=
  or_else (literal_get [ ("Compliant", "Full Compliance");
                         ("In Progress", "Partial Compliance");
                         ("Non-Compliant", "Non-Compliant");
                         ("Not Applicable", "Not Applicable") ]
                       (to_string status))
          "Unknown".

(** [new Date(v)]: the time value of the date. *)
Definition time_clip (t : float) : float :=
  if PrimFloat.is_nan t || gt (PrimFloat.abs t) 8.64e15 then PrimFloat.nan
  else if lt t 0 then ceil t + 0 else - ceil (- t) + 0.

Definition Date_of (v : value) : float :=
  match v with
  | VStr s => Date_parse s
  | VUndefined => PrimFloat.nan
  | _ => time_clip (to_number v)
  end.

(** [calculateDaysToDeadline(deadline)] *)
Definition calculateDaysToDeadline (deadline : value) : M World float :=
  let deadlineDate := Date_of deadline in
  today <- new_Date ;;
  let diffTime := deadlineDate - today in
  ret (ceil (diffTime / (1000 * 60 * 60 * 24))).

Definition assessUrgency (daysToDeadline : float) : string :=
  if lt daysToDeadline 30 then "High"
  else if lt daysToDeadline 90 then "Medium"
  else "Low".

Definition calculateComplianceScore (status : value) : Property float :=
  number_or [ ("Compliant", 100); ("In Progress", 60);
              ("Non-Compliant", 20); ("Not Applicable", 0) ]
            (to_string status) 0.

Definition getRegionalContext (region : value) : Property string :=
  literal_get
    [ ("Europe",
       "European regulations are comprehensive and strictly enforced with significant penalties");
      ("Asia Pacific",
       "Asia Pacific regulatory landscape is rapidly evolving with increasing stringency");
      ("Global",
       "International agreements provide framework for national and regional implementation") ]
    (to_string region).

Record ComplianceSpecific : Type := mkComplianceSpecific {
  complianceLevel : Property string;
  cs_daysToDeadline : option float;
  urgency : option string;
  regulatoryRisk : option string;
  keyRequirement : option value;
  actionCount : option nat;
  actions : option (list string);
  responsibleParty : option value;
  regionalContext : option (Property string)
}.

Record ComplianceAnalysis : Type := mkComplianceAnalysis {
  ca_insights : list string;
  complianceSpecific : ComplianceSpecific
}.

(** [analyzeComplianceStatus(data)] *)
Definition analyzeComplianceStatus (r : record) : M World ComplianceAnalysis :=
  regulation <- findRegulation (get r "regulation") (get r "region") ;;
  (* Compliance Status Analysis *)
  let level := assessComplianceLevel (get r "complianceStatus") in
  let insights :=
    [ (to_string (get r "regulation") ++ " compliance status is "
       ++ to_string (get r "complianceStatus") ++ " (" ++ property_text level
       ++ ")")%string ] in
  (* Deadline Analysis *)
  deadline <-
    (if truthy (get r "deadline") then
       daysToDeadline <- calculateDaysToDeadline (get r "deadline") ;;
       let urgency := assessUrgency daysToDeadline in
       ret (insights ++
            [ ("Compliance deadline is " ++ to_string (get r "deadline") ++ " ("
               ++ number_toString daysToDeadline ++ " days remaining, "
               ++ urgency ++ " urgency)")%string ],
            Some daysToDeadline, Some urgency)
     else ret (insights, None, None)) ;;
  let '(insights, days, urgency) := deadline in
  (* Risk Level Analysis *)
  let '(insights, risk) :=
    match regulation with
    | Own reg =>
        if nonempty (reg_riskLevel reg) then
          (insights ++
           [ ("Regulatory risk level is assessed as "
              ++ toLowerCase (reg_riskLevel reg))%string ],
           Some (reg_riskLevel reg))
        else (insights, None)
    | _ => (insights, None)
    end in
  (* Requirements Analysis *)
  let '(insights, requirement) :=
    if truthy (get r "requirement") then
      (insights ++
       [ ("Key requirement: " ++ to_string (get r "requirement"))%string ],
       Some (get r "requirement"))
    else (insights, None) in
  (* Actions Analysis *)
  action <-
    (if truthy (get r "actions") then
       parts <- split_commas "data.actions" (get r "actions") ;;
       ret (insights ++
            [ (of_nat (List.length parts)
               ++ " action item(s) identified for compliance")%string ],
            Some (List.length parts), Some (map trim parts))
     else ret (insights, None, None)) ;;
  let '(insights, count, items) := action in
  (* Responsible Party Analysis *)
  let '(insights, responsible) :=
    if truthy (get r "responsible") then
      (insights ++
       [ ("Compliance responsibility assigned to: "
          ++ to_string (get r "responsible"))%string ],
       Some (get r "responsible"))
    else (insights, None) in
  (* Regional Context *)
  let regional := getRegionalContext (get r "region") in
  let '(insights, context) :=
    match regional with
    | Own s => if nonempty s then (insights ++ [s], Some regional)
               else (insights, None)
    | Inherited name => (insights ++ [inherited_text name], Some regional)
    | Undefined => (insights, None)
    end in
  ret (mkComplianceAnalysis insights
         (mkComplianceSpecific level days urgency risk requirement count items
                               responsible context)).

Definition level_is (p : Property string) (text : string) : bool :=
  match p with
  | Own s => String.eqb s text
  | _ => false
  end.

(** [generateComplianceRecommendations(analysis)] *)
Definition generateComplianceRecommendations (analysis : ComplianceAnalysis)
  : list string :=
  let c := complianceSpecific analysis in
  let recommendations :=
    if level_is (complianceLevel c) "Non-Compliant" then
      [ "Immediate action required to achieve regulatory compliance";
        "Conduct comprehensive compliance gap analysis";
        "Engage legal counsel for compliance strategy development" ]
    else if level_is (complianceLevel c) "Partial Compliance" then
      [ "Accelerate compliance improvement initiatives";
        "Address remaining compliance gaps systematically";
        "Implement enhanced monitoring and reporting systems" ]
    else [] in
  let recommendations :=
    recommendations ++
    (if status_is (urgency c) "High" then
       [ "Establish dedicated compliance task force";
         "Prioritize resources for immediate compliance actions";
         "Consider interim measures to reduce non-compliance risk" ]
     else if status_is (urgency c) "Medium" then
       [ "Develop detailed compliance implementation timeline";
         "Allocate sufficient resources for compliance activities";
         "Regular progress monitoring and reporting" ]
     else []) in
  let recommendations :=
    push_if (status_is (regulatoryRisk c) "High")
      [ "Implement comprehensive risk mitigation strategy";
        "Engage with regulatory authorities proactively";
        "Consider compliance insurance or bonding" ] recommendations in
  let recommendations :=
    push_if (match actionCount c with Some n => (5 <? n)%nat | None => false end)
      [ "Prioritize compliance actions based on risk and impact";
        "Establish clear accountability and timelines for each action";
        "Implement project management approach for compliance activities" ]
      recommendations in
  recommendations ++
    [ "Establish regulatory monitoring and early warning system";
      "Develop compliance training programs for relevant staff";
      "Create compliance documentation and audit trails";
      "Engage with industry associations on regulatory developments" ].

Record ComplianceKPIs : Type := mkComplianceKPIs {
  complianceScore : Property float;
  daysToDeadline : option float;
  complianceProgress : option (Property float);
  kpi_riskScore : option float;
  urgencyScore : option float;
  overallComplianceHealth : option float
}.

(** [calculateComplianceKPIs(data)] *)
Definition calculateComplianceKPIs (r : record) : M World ComplianceKPIs :=
  let status := get r "complianceStatus" in
  (* Compliance Score (0-100) *)
  let complianceScore := calculateComplianceScore status in
  (* Days to Deadline *)
  days <- (if truthy (get r "deadline")
           then d <- calculateDaysToDeadline (get r "deadline") ;; ret (Some d)
           else ret None) ;;
  (* Compliance Progress *)
  let complianceProgress :=
    if truthy status && negb (is_string status "Not Applicable")
    then Some (number_or [ ("Compliant", 100); ("In Progress", 60);
                           ("Non-Compliant", 20) ]
                         (to_string status) 0)
    else None in
  (* Risk Score *)
  regulation <- findRegulation (get r "regulation") (get r "region") ;;
  let riskScore :=
    match regulation with
    | Own reg =>
        match number_or [ ("High", 80); ("Medium", 50); ("Low", 20) ]
                        (reg_riskLevel reg) 50 with
        | Own x => Some x
        | _ => Some 50
        end
    | Inherited _ => Some 50
    | Undefined => None
    end in
  (* Urgency Score *)
  let urgencyScore :=
    match days with
    | Some d => Some (float_max 0 (100 - d / 365 * 100))
    | None => None
    end in
  (* Overall Compliance Health *)
  let healthScore := plus (VNum 0) (property_value complianceScore) in
  let '(healthScore, factors) :=
    match riskScore with
    | Some x => (plus healthScore (VNum (100 - x)), 2%nat)
    | None => (healthScore, 1%nat)
    end in
  ret (mkComplianceKPIs complianceScore days complianceProgress riskScore
                        urgencyScore
                        (Some (to_number healthScore / num factors))).

(** [assessRegulatoryRisk(data)] *)
Definition assessRegulatoryRisk (r : record) : M World RiskAssessment :=
  (* Compliance status risk *)
  let nonCompliant := is_string (get r "complianceStatus") "Non-Compliant" in
  let factors := push_if nonCompliant ["Non-compliant status"] [] in
  let strategies := push_if nonCompliant ["Immediate compliance remediation"] [] in
  let overall := if nonCompliant then "High" else "Medium" in
  (* Deadline risk *)
  near <- (if truthy (get r "deadline")
           then d <- calculateDaysToDeadline (get r "deadline") ;; ret (lt d 90)
           else ret false) ;;
  let factors := push_if near ["Approaching compliance deadline"] factors in
  let strategies := push_if near ["Accelerate compliance activities"] strategies in
  let overall := if near then "High" else overall in
  (* Regulatory complexity risk *)
  regulation <- findRegulation (get r "regulation") (get r "region") ;;
  let high := match regulation with
              | Own reg => String.eqb (reg_riskLevel reg) "High"
              | _ => false
              end in
  let factors := push_if high ["High-risk regulation"] factors in
  let strategies := push_if high ["Enhanced compliance monitoring"] strategies in
  (* Regional risk *)
  let europe := is_string (get r "region") "Europe" in
  let factors := push_if europe ["Strict European regulatory environment"] factors in
  let strategies := push_if europe ["Proactive regulatory engagement"] strategies in
  ret (mkRiskAssessment overall factors strategies None).

Record RegulatoryInsights : Type := mkRegulatoryInsights {
  r_insights : list string;
  r_recommendations : list Recommendation;
  r_kpis : ComplianceKPIs;
  r_riskAssessment : RiskAssessment;
  r_confidence : float;
  r_agent : string;
  r_timestamp : string;
  complianceAnalysis : ComplianceSpecific
}.

(** [RegulatoryComplianceAgent.generateInsights(complianceData)] *)
Definition generateInsights_regulatory (d : data) : M World RegulatoryInsights :=
  try_catch
    (valid <- validateData d ["regulation"; "region"] ;;
     match valid, d with
     | true, DObject r =>
         analysis <- analyzeComplianceStatus r ;;
         let recommendations := generateComplianceRecommendations analysis in
         kpis <- calculateComplianceKPIs r ;;
         riskAssessment <- assessRegulatoryRisk r ;;
         logger "info" ("Generated regulatory insights for "
                        ++ to_string (get r "regulation") ++ " in "
                        ++ to_string (get r "region")) ;;;
         timestamp <- timestamp_now ;;
         ret (mkRegulatoryInsights
                (ca_insights analysis)
                (formatRecommendations "regulatory" recommendations)
                kpis riskAssessment
                (calculateConfidence "regulatory" r (join " " (ca_insights analysis)))
                "regulatory" timestamp (complianceSpecific analysis))
     | _, _ => throw (Error "Invalid compliance data provided")
     end)
    (fun error =>
       logger "error" ("Error generating regulatory insights: "
                       ++ exn_message error) ;;;
       throw error).

End WithHost.
End Agents.

(* ================================================================= *)
(** ** A host to run the model on

    The statements below quantify over every [Host].  To evaluate the
    model at concrete inputs one host is fixed here: a process whose
    local time is UTC, which parses ISO calendar dates ([YYYY-MM-DD], UTC
    midnight) and prints integers in decimal.  Where no example depends on
    the result it uses stand-ins: the digested text for its MD5 digest,
    and the integer formatting for every number. *)

Module ExampleHost.
Import JsString JsNumber JsValue Runtime.

Definition digit_value (c : ascii) : option Z :=
  if is_digit c then Some (Z.of_nat (code c) - 48)%Z else None.

Fixpoint digits_value (acc : Z) (s : string) : option Z :=
  match s with
  | EmptyString => Some acc
  | String c s' =>
      match digit_value c with
      | Some d => digits_value (acc * 10 + d)%Z s'
      | None => None
      end
  end.

(** Days from 1970-01-01 to the given civil date. *)
Definition days_from_civil (y m d : Z) : Z :=
  let y' := (if m <=? 2 then y - 1 else y)%Z in
  let era := (y' / 400)%Z in
  let yoe := (y' - era * 400)%Z in
  let mp := ((m + 9) mod 12)%Z in
  let doy := ((153 * mp + 2) / 5 + d - 1)%Z in
  let doe := (yoe * 365 + yoe / 4 - yoe / 100 + doy)%Z in
  (era * 146097 + doe - 719468)%Z.

(** The calendar year of a day counted from 1970-01-01. *)
Definition year_of_days (days : Z) : Z :=
  let z := (days + 719468)%Z in
  let era := (z / 146097)%Z in
  let doe := (z - era * 146097)%Z in
  let yoe := ((doe - doe / 1460 + doe / 36524 - doe / 146096) / 365)%Z in
  let doy := (doe - (365 * yoe + yoe / 4 - yoe / 100))%Z in
  let mp := ((5 * doy + 2) / 153)%Z in
  let m := (if mp <? 10 then mp + 3 else mp - 9)%Z in
  (yoe + era * 400 + (if m <=? 2 then 1 else 0))%Z.

(** [new Date('YYYY-MM-DD')] as Node reads it: midnight UTC of that
    day; a day number up to 31 is taken in every month, and runs over
    into the next month when the month is shorter. *)
Definition iso_date (s : string) : float :=
  match s with
  | String y1 (String y2 (String y3 (String y4 (String "-"
      (String m1 (String m2 (String "-" (String d1 (String d2 EmptyString))))))))) =>
      match digits_value 0 (String y1 (String y2 (String y3 (String y4 EmptyString)))),
            digits_value 0 (String m1 (String m2 EmptyString)),
            digits_value 0 (String d1 (String d2 EmptyString)) with
      | Some y, Some m, Some d =>
          if ((1 <=? m) && (m <=? 12) && (1 <=? d) && (d <=? 31))%Z
          then float_of_Z (days_from_civil y m d * 86400000)
          else PrimFloat.nan
      | _, _, _ => PrimFloat.nan
      end
  | _ => PrimFloat.nan
  end.

(** The integer part of a finite number, rounded down. *)
Definition floor_Z (x : float) : option Z :=
  match Prim2SF x with
  | S754_zero _ => Some 0%Z
  | S754_finite negative m e =>
      let v := (if 0 <=? e then Zpos m * 2 ^ e else Zpos m / 2 ^ (- e))%Z in
      if negative then
        Some (if (0 <=? e)%Z || (Zpos m mod 2 ^ (- e) =? 0)%Z then - v else - v - 1)%Z
      else Some v
  | _ => None
  end.

Definition full_year (t : float) : float :=
  match floor_Z t with
  | Some ms => float_of_Z (year_of_days (ms / 86400000))
  | None => PrimFloat.nan
  end.

Fixpoint digits_Z (fuel : nat) (z : Z) (acc : string) : string :=
  match fuel with
  | O => acc
  | S fuel' =>
      let acc' := String (ascii_of_nat (48 + Z.to_nat (z mod 10))) acc in
      if (z <? 10)%Z then acc' else digits_Z fuel' (z / 10) acc'
  end.

Definition print_Z (z : Z) : string :=
  digits_Z (S (Z.to_nat (Z.log2 z))) z EmptyString.

Definition print_integer (x : float) : string :=
  match floor_Z x with
  | Some z => if (z <? 0)%Z then "-" ++ print_Z (- z) else print_Z z
  | None => "NaN"
  end.

Definition utc_host : Host := {|
  md5_hex := fun text => text;
  number_toString := print_integer;
  number_toFixed := fun x _ => print_integer x;
  number_toLocaleString := print_integer;
  string_toNumber := fun _ => PrimFloat.nan;
  Date_parse := iso_date;
  Date_getFullYear := full_year;
  Date_toISOString := print_integer
|}.

(** A clock that stands still at [t], and a world that has logged
    nothing. *)
Definition world_at (t : float) : World := mkWorld (fun _ => t) 0 [].

(** A system without documents whose language model always fails. *)
Definition failing_model (e : Exn) : list Rag.Message -> Rag.LlmOutcome :=
  fun _ => Rag.Rejects e.

Definition empty_system (T : Type) `{Number T} : Rag.System (T:=T) :=
  Rag.mkSystem (failing_model (Error "deadline exceeded")) [] [] []
               (Rag.mkEnv None None) (world_at PrimFloat.zero).

(** The emission record of the scenario, and the compliance record
    of the agents' test script. *)
Definition emission_scenario : record :=
  [ ("source", VStr "Packaging"); ("value", VNum 815%float);
    ("baseline", VNum 1000%float); ("region", VStr "Europe") ].

Definition compliance_example : record :=
  [ ("regulation", VStr "EU Single-Use Plastics Directive");
    ("region", VStr "Europe");
    ("complianceStatus", VStr "In Progress");
    ("deadline", VStr "2024-12-31");
    ("requirement", VStr "90% collection target for PET bottles");
    ("actions", VStr "Improve collection infrastructure, Consumer education programs");
    ("responsible", VStr "Sustainability Team") ].

(** A system with a two-file knowledge base, not indexed yet. *)
Definition demo_system (T : Type) `{Number T} : Rag.System (T:=T) :=
  Rag.mkSystem (failing_model (Error "deadline exceeded")) []
               [ ("targets.txt",
                  "Carbon emission reduction target. Recycled plastic bottle goal");
                 ("rules.txt", "Packaging regulation") ]
               [] (Rag.mkEnv None None) (world_at PrimFloat.zero).

End ExampleHost.

(* ================================================================= *)
(** ** Words of the specification *)

Module Spec.
Import JsNumber.

(** The mean of a list of scores. *)
Definition mean (scores : list R) : R :=
  (fold_right Rplus 0 scores / INR (List.length scores))%R.

(** The entries with a given score, as [===] compares binary64
    numbers. *)
Definition with_score (score : float) (l : list (Rag.Scored (T:=float)))
  : list Rag.Scored :=
  filter (fun d => PrimFloat.eqb (Rag.similarity d) score) l.

(** Scores that do not increase from an entry to a later one. *)
Definition descending (a b : Rag.Scored (T:=float)) : Prop :=
  PrimFloat.leb (Rag.similarity b) (Rag.similarity a) = true.

(** No score of the list is NaN. *)
Definition numbers (l : list (Rag.Scored (T:=float))) : bool :=
  forallb (fun d => negb (PrimFloat.is_nan (Rag.similarity d))) l.

(** A binary64 value without a minus sign: NaN, or a zero, a finite
    number or an infinity whose sign bit is clear. *)
Definition unsigned (x : spec_float) : Prop :=
  match x with
  | S754_nan => True
  | S754_zero s | S754_infinity s | S754_finite s _ _ => s = false
  end.

(** A binary64 value that is [+0], or a positive finite number with
    an exponent between -52 and [hi]: when its mantissa has its 53
    digits, a number from 1 on, below [2 ^ (hi + 53)]. *)
Definition sized (hi : Z) (x : spec_float) : Prop :=
  match x with
  | S754_zero false => True
  | S754_finite false _ e => (-52 <= e <= hi)%Z
  | _ => False
  end.

Definition nonzero (x : spec_float) : Prop :=
  match x with S754_zero _ => False | _ => True end.

(** A store in which every entry holds the embedding of its own text.
    The store is empty when the system is constructed, and
    [initializeVectorStore], the only code that writes to it, adds
    such entries only. *)
Definition embedded {T : Type} `{Number T} (store : list (string * Rag.Doc (T:=T))) : Prop :=
  Forall (fun entry =>
            Rag.doc_embedding (snd entry)
            = Rag.createSimpleEmbedding (Rag.doc_content (snd entry)))
         store.

(** The last [n] elements of a list, all of them when it has fewer. *)
Definition last_n {A} (n : nat) (l : list A) : list A :=
  skipn (List.length l - n) l.

(** The words of a text: its maximal runs of characters other than
    white space. *)
Definition words (s : string) : list string :=
  filter JsString.nonempty (JsString.split_regex_class JsString.is_space s).

(** The seed of the next chunk as the specification words it: the
    last [floor(overlap / 10)] words of the closed chunk, followed by
    the next sentence. *)
Definition seed (closed : string) (chunkOverlap : Z) (sentence : string) : string :=
  (JsString.join " " (last_n (Z.to_nat (chunkOverlap / 10)) (words closed))
     ++ " " ++ sentence)%string.

(** A text with something else than white space in it. *)
Fixpoint has_ink (s : string) : bool :=
  match s with
  | EmptyString => false
  | String c s' => negb (JsString.is_space c) || has_ink s'
  end.

(** The total length of a list of strings. *)
Definition total_length (l : list string) : nat :=
  fold_right (fun s n => String.length s + n) 0 l.

(** The error a call of the language model ends in when it fails:
    the call is rejected (an error, a timeout), or its response is
    malformed. *)
Definition failure (outcome : Rag.LlmOutcome) : option Runtime.Exn :=
  match outcome with
  | Rag.Rejects e => Some e
  | Rag.NoResponse =>
      Some (Runtime.TypeError "Cannot read properties of undefined (reading 'text')")
  | Rag.TextThrows e => Some e
  | Rag.Generated _ _ => None
  end.

(** The messages [processQuery] sends to the language model for a
    question put to the agent [a]: the system prompt of the agent, and
    the prompt built from the question and from the context retrieved
    for it (the five best chunks of the indexed store). *)
Definition sent_messages {T : Type} `{Number T} {host : Runtime.Host}
           (a : Rag.AgentKind) (query : string) (s : Rag.System (T:=T))
  : list Rag.Message :=
  let res := Rag.results query 5 (Rag.indexed_store s) in
  [ Rag.mkMessage "system" (Rag.getSystemPrompt a);
    Rag.mkMessage "user"
      (Rag.buildPrompt query
         (JsString.join (Rag.nl ++ Rag.nl) (map Rag.content res))) ].

(** The names of the four specializations, and the keys of the
    analysis map. *)
Definition specializations : list string :=
  ["packaging"; "emission"; "supplyChain"; "regulatory"].

Definition analysis_types : list string :=
  ["packaging"; "emissions"; "supply_chain"; "regulatory"].

(** The result of a call under a view [f] of what it returns. *)
Definition outcome {A B} (f : A -> B) (r : Runtime.Result A) : Runtime.Result B :=
  match r with
  | Runtime.Ok a => Runtime.Ok (f a)
  | Runtime.Throw e => Runtime.Throw e
  end.

(** Two worlds whose clocks give the same readings from now on. *)
Definition same_clock (w1 w2 : Runtime.World) : Prop :=
  forall n, Runtime.clock w1 (Runtime.reads w1 + n)
            = Runtime.clock w2 (Runtime.reads w2 + n).

(** Two worlds whose clocks stay in the same calendar year from now
    on. *)
Definition same_year {host : Runtime.Host} (w1 w2 : Runtime.World) : Prop :=
  forall n, Runtime.Date_getFullYear (Runtime.clock w1 (Runtime.reads w1 + n))
            = Runtime.Date_getFullYear (Runtime.clock w2 (Runtime.reads w2 + n)).

(** Any two worlds. *)
Definition any_world (w1 w2 : Runtime.World) : Prop := True.

(** What an agent returns, without the timestamp. *)
Definition untimed_packaging (i : Agents.PackagingInsights) :=
  (Agents.p_insights i, Agents.p_recommendations i, Agents.p_kpis i,
   Agents.p_confidence i, Agents.p_agent i, Agents.materialAnalysis i).

Definition untimed_emission (i : Agents.EmissionInsights) :=
  (Agents.e_insights i, Agents.e_recommendations i, Agents.e_kpis i,
   Agents.projections i, Agents.e_confidence i, Agents.e_agent i,
   Agents.scopeAnalysis i).

Definition untimed_supplyChain (i : Agents.SupplyChainInsights) :=
  (Agents.s_insights i, Agents.s_recommendations i, Agents.s_kpis i,
   Agents.s_riskAssessment i, Agents.s_confidence i, Agents.s_agent i,
   Agents.supplierAnalysis i).

Definition untimed_regulatory (i : Agents.RegulatoryInsights) :=
  (Agents.r_insights i, Agents.r_recommendations i, Agents.r_kpis i,
   Agents.r_riskAssessment i, Agents.r_confidence i, Agents.r_agent i,
   Agents.complianceAnalysis i).

(** The world after an agent of the domain [domain] has rejected a
    record without the field [missing] with the message [msg]: a
    warning, then an error, are added to the log. *)
Definition rejected (w : Runtime.World) (missing domain msg : string) : Runtime.World :=
  Runtime.mkWorld (Runtime.clock w) (Runtime.reads w)
    ((Runtime.logged w
        ++ [Runtime.mkLog "warn" ("Missing required field: " ++ missing)])
       ++ [Runtime.mkLog "error"
                         ("Error generating " ++ domain ++ " insights: " ++ msg)]).

(** Input whose region, when it is a string, is not looked up under
    the name of a member of [Object.prototype]: for such a name
    [findRegulation] reads a built-in object, which the model leaves
    out. *)
Definition plain_region (d : JsValue.data) : Prop :=
  forall r region,
    d = JsValue.DObject r ->
    JsValue.get r "region" = JsValue.VStr region ->
    ~ In (JsString.remove_first " " (JsString.toLowerCase region))
         JsValue.object_prototype_names.

(** [l1] is a prefix of [l2]. *)
Definition prefix {A} (l1 l2 : list A) : Prop := exists rest, l2 = l1 ++ rest.

(** [m] gives, in two worlds related by [R], results that agree under
    the view [f], and leaves the worlds related. *)
Definition respects (R : Runtime.World -> Runtime.World -> Prop) {A B} (f : A -> B)
           (m : Runtime.M Runtime.World A) : Prop :=
  forall w1 w2, R w1 w2 ->
    outcome f (fst (m w1)) = outcome f (fst (m w2))
    /\ R (snd (m w1)) (snd (m w2)).

(** Relations that do not look at the log and survive a reading of
    the clock on both sides. *)
Class Stable (R : Runtime.World -> Runtime.World -> Prop) : Prop := {
  stable_log : forall w1 w2 l1 l2, R w1 w2 ->
    R (Runtime.mkWorld (Runtime.clock w1) (Runtime.reads w1) l1) (Runtime.mkWorld (Runtime.clock w2) (Runtime.reads w2) l2);
  stable_tick : forall w1 w2, R w1 w2 ->
    R (Runtime.mkWorld (Runtime.clock w1) (S (Runtime.reads w1)) (Runtime.logged w1))
      (Runtime.mkWorld (Runtime.clock w2) (S (Runtime.reads w2)) (Runtime.logged w2))
}.

End Spec.

(* ================================================================= *)
(** ** Notions used to state further properties *)

Module Laws.
Import JsString JsNumber JsValue Runtime.

(** The first character of [s], when there is one, is outside the
    class [p]. *)
Definition starts_outside (p : ascii -> bool) (s : string) : bool :=
  match s with
  | EmptyString => true
  | String c _ => negb (p c)
  end.

(** The record has a property of its own with this name, and its
    value is neither [null] nor [undefined]. *)
Definition present (r : record) (field : string) : bool :=
  has_own r field
  && match get r field with
     | VNull | VUndefined => false
     | _ => true
     end.

(** A value on which the methods of strings can be called where the
    code calls them only on truthy values: a string, or a falsy
    value. *)
Definition textual (v : value) : bool :=
  match v with
  | VStr _ => true
  | _ => negb (truthy v)
  end.

(** The running totals of [assessSupplierRisk] (risk score, maximal
    risk score, risk factors, mitigation strategies) after some
    stages: a strategy for each factor, at most one factor a stage, a
    score within its maximum, and no factor exactly when the score
    is 0. *)
Definition tally_ok (stages floor bound : nat)
           (t : nat * nat * list string * list string) : Prop :=
  let '(riskScore, maxRiskScore, factors, strategies) := t in
  List.length factors = List.length strategies
  /\ List.length factors <= stages
  /\ riskScore <= maxRiskScore
  /\ floor <= maxRiskScore <= bound
  /\ (factors = [] <-> riskScore = 0).

(** The risk scores the inline regulatory agent can give. *)
Definition risk_scores : list float :=
  [2; 3; 4; 5; 6; 7; 8; 9; 10]%float.

(** No character of the string is a capital letter [A-Z]. *)
Fixpoint no_capital (s : string) : bool :=
  match s with
  | EmptyString => true
  | String c s' => negb ((65 <=? code c) && (code c <=? 90)) && no_capital s'
  end.

(** The number a string of decimal digits denotes. *)
Fixpoint decimal (s : string) : nat :=
  match s with
  | EmptyString => 0
  | String c s' => (code c - 48) * 10 ^ String.length s' + decimal s'
  end.

(** [m] returns, whatever the world, and leaves the world as it
    is. *)
Definition steady {A} (m : M World A) : Prop :=
  forall w, exists a, m w = (Ok a, w).

(** [m] throws [e], whatever the world, and leaves the world as it
    is. *)
Definition throws {A} (e : Exn) (m : M World A) : Prop :=
  forall w, m w = (Throw e, w).

(** [m] returns, whatever the world, something that satisfies [P],
    and neither logs nor sets the clock: it may read it. *)
Definition quiet {A} (m : M World A) (P : A -> Prop) : Prop :=
  forall w, exists a w',
    m w = (Ok a, w') /\ clock w' = clock w /\ logged w' = logged w /\ P a.

(** [m] throws [e], whatever the world, without logging. *)
Definition fails {A} (e : Exn) (m : M World A) : Prop :=
  forall w, exists w',
    m w = (Throw e, w') /\ clock w' = clock w /\ logged w' = logged w.

End Laws.

Module Scenarios.
Import JsString JsNumber JsValue Runtime.
#[local] Set Warnings "-inexact-float".

(** A language model that answers a system prompt followed by one
    message of the user, and gives no response to anything else. *)
Definition answering_model (text : string) : list Rag.Message -> Rag.LlmOutcome :=
  fun messages =>
    match messages with
    | [_; _] => Rag.Generated text (Some 12)
    | _ => Rag.NoResponse
    end.

(** A language model with a limit on its input: it rejects messages of
    more than 200 characters in all. *)
Definition limited_model : list Rag.Message -> Rag.LlmOutcome :=
  fun messages =>
    if 200 <? fold_right (fun m n => String.length (Rag.msg_content m) + n) 0 messages
    then Rag.Rejects (Error "prompt too long")
    else Rag.Generated "Hello!" (Some 2).

Definition limited_system (T : Type) `{Number T} : Rag.System (T:=T) :=
  Rag.mkSystem limited_model []
               [ ("targets.txt",
                  "Carbon emission reduction target. Recycled plastic bottle goal");
                 ("rules.txt", "Packaging regulation") ]
               [] (Rag.mkEnv None None) (ExampleHost.world_at 1735000000000).

Definition answering_system (T : Type) `{Number T} : Rag.System (T:=T) :=
  Rag.mkSystem (answering_model "Raise the recycled content.") []
               [ ("targets.txt",
                  "Carbon emission reduction target. Recycled plastic bottle goal");
                 ("rules.txt", "Packaging regulation") ]
               [] (Rag.mkEnv None None) (ExampleHost.world_at 1735000000000).

(** The records of the agents' test script, [test/test-agents.js]. *)
Definition packaging_example : record :=
  [ ("material", VStr "PET"); ("region", VStr "Europe");
    ("recyclableContent", VNum 95.5%float); ("recycledContent", VNum 48.5%float);
    ("carbonFootprint", VNum 0.085%float); ("collectionRate", VNum 76.7%float);
    ("volume", VNum 1500000%float) ].

Definition emission_example : record :=
  [ ("source", VStr "Packaging"); ("value", VNum 2850.5%float);
    ("unit", VStr "tCO2e"); ("baseline", VNum 3550%float);
    ("region", VStr "Europe"); ("verified", VBool true) ].

Definition supplier_example : record :=
  [ ("supplier", VStr "Alpla Group"); ("sustainabilityScore", VNum 7.2%float);
    ("carbonIntensity", VNum 1.8%float);
    ("recycledContentCapability", VNum 75%float);
    ("certifications", VStr "FSC Certified, ISO 14001");
    ("performanceRating", VNum 8.1%float);
    ("contractValue", VNum 15000000%float); ("region", VStr "Europe") ].

End Scenarios.

(* ================================================================= *)
(** ** The agents of [srv/lib/agentic-rag.js] *)

(** The first version of the orchestrator comes with agents of its own,
    defined in the same file.  Their methods take the input object as
    it is, without validation; here it is a record. *)

Module Inline.
Import JsString JsNumber JsValue Runtime.
Local Open Scope js_scope.
Local Open Scope float_scope.
#[local] Set Warnings "-inexact-float".

Section WithHost.
Context {host : Host}.

(* ------------------------------------------------------------- *)
(** *** [SupplyChainAgent] *)

Record Risk : Type := mkRisk {
  score : float;
  issues : list string;
  category : string
}.

(** [score += n; issues.push(issue)] when the condition holds. *)
Definition charge (c : bool) (n : float) (issue : string) (r : float * list string)
  : float * list string :=
  if c then (fst r + n, snd r ++ [issue]) else r.

(** [!supplier.certifications?.includes('ISO14001')]: [undefined]
    and [null] stop the chain, a string is searched, and any other
    primitive has no method [includes]. *)
Definition lacks_ISO14001 (certifications : value) : Result bool :=
  match certifications with
  | VUndefined | VNull => Ok true
  | VStr s => Ok (negb (includes s "ISO14001"))
  | _ => Throw (TypeError "supplier.certifications?.includes is not a function")
  end.

(** [assessEnvironmentalRisk(supplier)] *)
Definition assessEnvironmentalRisk (supplier : record) : Result Risk :=
  let r := (0, []) in
  let r := charge (gt (to_number (get supplier "carbonIntensity")) 0.5) 3
                  "High carbon intensity" r in
  let r := charge (lt (to_number (get supplier "recycledContentCapability")) 30) 2
                  "Low recycled content capability" r in
  match lacks_ISO14001 (get supplier "certifications") with
  | Throw e => Throw e
  | Ok lacking =>
      let r := charge lacking 2
                      "Missing environmental management certification" r in
      Ok (mkRisk (fst r) (snd r) "Environmental")
  end.

(** [assessSocialRisk(supplier)] *)
Definition assessSocialRisk (supplier : record) : Risk :=
  let r := charge (lt (to_number (get supplier "performanceRating")) 7) 2
                  "Below average performance rating" (0, []) in
  mkRisk (fst r) (snd r) "Social".

(** [!supplier.certifications || supplier.certifications.length === 0]:
    a truthy string is not empty, and the [length] of a number or
    of a boolean is [undefined]. *)
Definition no_certifications (supplier : record) : bool :=
  negb (truthy (get supplier "certifications")).

(** [assessGovernanceRisk(supplier)] *)
Definition assessGovernanceRisk (supplier : record) : Risk :=
  let r := charge (no_certifications supplier) 3
                  "No sustainability certifications" (0, []) in
  mkRisk (fst r) (snd r) "Governance".

(** [assessOperationalRisk(supplier)] *)
Definition assessOperationalRisk (supplier : record) : Risk :=
  let r := charge (lt (to_number (get supplier "performanceRating")) 8) 1
                  "Performance rating could be improved" (0, []) in
  mkRisk (fst r) (snd r) "Operational".

Record SupplierRisk : Type := mkSupplierRisk {
  environmental : Risk;
  social : Risk;
  governance : Risk;
  operational : Risk;
  overallRiskScore : float;
  overallRisk : string;
  criticalIssues : list string
}.

(** [assessSupplierRisk(supplier)] *)
Definition assessSupplierRisk (supplier : record) : Result SupplierRisk :=
  match assessEnvironmentalRisk supplier with
  | Throw e => Throw e
  | Ok environmental =>
      let risks := [ environmental; assessSocialRisk supplier;
                     assessGovernanceRisk supplier;
                     assessOperationalRisk supplier ] in
      let overallRiskScore :=
        fold_left (fun sum risk => sum + score risk) risks 0 / 4 in
      Ok (mkSupplierRisk
            environmental (assessSocialRisk supplier)
            (assessGovernanceRisk supplier) (assessOperationalRisk supplier)
            overallRiskScore
            (if gt overallRiskScore 7 then "High"
             else if gt overallRiskScore 4 then "Medium" else "Low")
            (flat_map issues (filter (fun risk => gt (score risk) 7) risks)))
  end.

(** [generateSupplierRecommendations(supplier, riskAssessment)] *)
Definition generateSupplierRecommendations (supplier : record)
           (riskAssessment : SupplierRisk) : list string :=
  (if String.eqb (overallRisk riskAssessment) "High"
   then [ "Immediate supplier development program required";
          "Consider alternative suppliers for critical materials" ]
   else [])
  ++ (if gt (to_number (get supplier "carbonIntensity")) 0.5
      then [ "Work with supplier to develop carbon reduction plan";
             "Set science-based targets for supplier emissions" ]
      else [])
  ++ (if lt (to_number (get supplier "recycledContentCapability")) 50
      then [ "Support supplier in developing recycled content capabilities";
             "Provide technical assistance for material sourcing" ]
      else [])
  ++ (if no_certifications supplier
      then [ "Encourage supplier to obtain relevant sustainability certifications";
             "Provide certification roadmap and support" ]
      else []).

(* ------------------------------------------------------------- *)
(** *** [RegulatoryComplianceAgent] *)

Record Regulation : Type := mkRegulation {
  deadline : string;
  requirements : list string;
  impact : string;
  status : string
}.

Definition regulations_europe : list (string * Regulation) :=
  [ ("EU Single-Use Plastics Directive",
     mkRegulation "2024-07-03"
       [ "Ban on certain single-use plastics"; "Deposit return systems" ]
       "High" "Active");
    ("Packaging and Packaging Waste Directive",
     mkRegulation "2025-12-31"
       [ "90% collection rate for plastic bottles"; "30% recycled content" ]
       "High" "Active");
    ("Extended Producer Responsibility",
     mkRegulation "2024-12-31"
       [ "Producer responsibility for packaging waste"; "Financial contributions" ]
       "Medium" "Active") ].

Definition regulations_asiaPacific : list (string * Regulation) :=
  [ ("Plastic Waste Management Rules",
     mkRegulation "2025-06-30"
       [ "Plastic waste collection targets"; "Recycling mandates" ]
       "Medium" "Active");
    ("Carbon Pricing Mechanisms",
     mkRegulation "2026-01-01"
       [ "Carbon tax or ETS participation"; "Emission reporting" ]
       "High" "Planned") ].

Definition regulations_global : list (string * Regulation) :=
  [ ("TCFD Reporting",
     mkRegulation "2024-12-31"
       [ "Climate risk disclosure"; "Scenario analysis" ]
       "Medium" "Active");
    ("Science Based Targets",
     mkRegulation "2025-12-31"
       [ ("1.5" ++ String (ascii_of_nat 176) "C aligned targets")%string;
         "Annual progress reporting" ]
       "High" "Voluntary") ].

Definition regulations : list (string * list (string * Regulation)) :=
  [ ("europe", regulations_europe);
    ("asiaPacific", regulations_asiaPacific);
    ("global", regulations_global) ].

(** [Object.entries(this.regulations[data.region || 'global']
    || this.regulations.global)]: a member inherited from
    [Object.prototype] is truthy and has no entries. *)
Definition relevantRegulations (data : record) : list (string * Regulation) :=
  let region :=
    if truthy (get data "region") then to_string (get data "region")
    else "global" in
  match literal_get regulations region with
  | Own table => table
  | Inherited _ => []
  | Undefined => regulations_global
  end.

(** [Math.round]: the nearest integer, a half going up; the sign of
    a zero result is the sign of the argument. *)
Definition round (x : float) : float :=
  match Prim2SF x with
  | S754_finite negative m e =>
      if (0 <=? e)%Z then x
      else
        let d := (2 ^ (- e))%Z in
        let q := (Zpos m / d)%Z in
        let rem := (Zpos m mod d)%Z in
        if negative then
          let n := (if (d <? 2 * rem)%Z then q + 1 else q)%Z in
          if (n =? 0)%Z then PrimFloat.neg_zero else float_of_Z (- n)
        else float_of_Z (if (d <=? 2 * rem)%Z then q + 1 else q)
  | _ => x
  end.

(** [Math.ceil((new Date(regulation.deadline) - new Date())
    / (1000 * 60 * 60 * 24))] *)
Definition daysToDeadline (regulation : Regulation) : M World float :=
  let deadline := Date_parse (deadline regulation) in
  now <- new_Date ;;
  ret (ceil ((deadline - now) / (1000 * 60 * 60 * 24))).

Record Upcoming : Type := mkUpcoming {
  up_name : string;
  up_deadline : string;
  days : float
}.

(** [data.complianceStatus === 'Compliant'
    || data.complianceStatus === 'InProgress'] *)
Definition compliant (data : record) : bool :=
  is_string (get data "complianceStatus") "Compliant"
  || is_string (get data "complianceStatus") "InProgress".

(** The counters and lists of [assessComplianceStatus]. *)
Record Tally : Type := mkTally {
  compliantCount : nat;
  totalCount : nat;
  upcomingDeadlines : list Upcoming;
  nonCompliantItems : list string
}.

(** The body of the [forEach] of [assessComplianceStatus]. *)
Definition assess_entry (data : record) (t : Tally)
           (entry : string * Regulation) : M World Tally :=
  let '(name, regulation) := entry in
  daysToDeadline <- daysToDeadline regulation ;;
  let upcoming :=
    if le daysToDeadline 90 && gt daysToDeadline 0
    then upcomingDeadlines t ++ [mkUpcoming name (deadline regulation) daysToDeadline]
    else upcomingDeadlines t in
  ret (if compliant data
       then mkTally (S (compliantCount t)) (S (totalCount t)) upcoming
                    (nonCompliantItems t)
       else mkTally (compliantCount t) (S (totalCount t)) upcoming
                    (nonCompliantItems t ++ [name])).

(** [entries.forEach(body)] from a given state. *)
Fixpoint for_each {A S} (body : S -> A -> M World S) (entries : list A) (s : S)
  : M World S :=
  match entries with
  | [] => ret s
  | entry :: rest => s' <- body s entry ;; for_each body rest s'
  end.

Record Assessment : Type := mkAssessment {
  complianceScore : float;
  overallStatus : string;
  tally : Tally
}.

(** [assessComplianceStatus(data)] *)
Definition assessComplianceStatus (data : record) : M World Assessment :=
  t <- for_each (assess_entry data) (relevantRegulations data)
                (mkTally 0 0 [] []) ;;
  let complianceScore :=
    round (float_of_Z (Z.of_nat (compliantCount t))
           / float_of_Z (Z.of_nat (totalCount t)) * 100) in
  ret (mkAssessment complianceScore
         (if ge complianceScore 90 then "Excellent"
          else if ge complianceScore 75 then "Good"
          else if ge complianceScore 60 then "Needs Improvement"
          else "Critical")
         t).

(** [calculateRegulatoryRisk(regulation, data)] *)
Definition calculateRegulatoryRisk (regulation : Regulation) (data : record)
  : M World float :=
  let riskScore :=
    if String.eqb (impact regulation) "High" then 0 + 4
    else if String.eqb (impact regulation) "Medium" then 0 + 2
    else 0 + 1 in
  daysToDeadline <- daysToDeadline regulation ;;
  let riskScore :=
    if le daysToDeadline 30 then riskScore + 4
    else if le daysToDeadline 90 then riskScore + 3
    else if le daysToDeadline 180 then riskScore + 2
    else riskScore + 1 in
  let riskScore :=
    if is_string (get data "complianceStatus") "NonCompliant" then riskScore + 3
    else if is_string (get data "complianceStatus") "InProgress" then riskScore + 1
    else riskScore in
  ret (float_min 10 riskScore).

(** [getRiskLevel(score)] *)
Definition getRiskLevel (score : float) : string :=
  if ge score 9 then "Critical"
  else if ge score 7 then "High"
  else if ge score 4 then "Medium"
  else "Low".

Record RegulationRisk : Type := mkRegulationRisk {
  regulation : string;
  riskScore : float;
  riskLevel : string;
  risk_impact : string;
  risk_deadline : string
}.

(** The counters and the list of [analyzeComplianceRisks]. *)
Record RiskTally : Type := mkRiskTally {
  risks : list RegulationRisk;
  highRiskCount : nat;
  mediumRiskCount : nat;
  lowRiskCount : nat
}.

(** The body of the [forEach] of [analyzeComplianceRisks]. *)
Definition risk_entry (data : record) (t : RiskTally)
           (entry : string * Regulation) : M World RiskTally :=
  let '(name, regulation) := entry in
  riskScore <- calculateRegulatoryRisk regulation data ;;
  let riskLevel := getRiskLevel riskScore in
  let risks :=
    risks t ++ [mkRegulationRisk name riskScore riskLevel (impact regulation)
                                 (deadline regulation)] in
  ret (if String.eqb riskLevel "High" || String.eqb riskLevel "Critical"
       then mkRiskTally risks (S (highRiskCount t)) (mediumRiskCount t)
                        (lowRiskCount t)
       else if String.eqb riskLevel "Medium"
       then mkRiskTally risks (highRiskCount t) (S (mediumRiskCount t))
                        (lowRiskCount t)
       else mkRiskTally risks (highRiskCount t) (mediumRiskCount t)
                        (S (lowRiskCount t))).

Record RiskAnalysis : Type := mkRiskAnalysis {
  sorted_risks : list RegulationRisk;
  counts : RiskTally;
  overallRiskLevel : string
}.

(** [(a, b) => b.riskScore - a.riskScore] is positive. *)
Definition by_riskScore (a b : RegulationRisk) : bool :=
  lt 0 (riskScore b - riskScore a).

(** [analyzeComplianceRisks(data)] *)
Definition analyzeComplianceRisks (data : record) : M World RiskAnalysis :=
  t <- for_each (risk_entry data) (relevantRegulations data)
                (mkRiskTally [] 0 0 0) ;;
  ret (mkRiskAnalysis
         (Rag.sort by_riskScore (risks t)) t
         (if (0 <? highRiskCount t)%nat then "High"
          else if (2 <? mediumRiskCount t)%nat then "Medium" else "Low")).

End WithHost.
End Inline.

(* ================================================================= *)
(** ** [GeminiService] of [srv/lib/gen-ai-service.js] *)

Module Gemini.
Import JsString JsNumber JsValue Runtime.

(** [text.split(/\s+/).filter(word => word.length > 0).length] *)
Definition countWords (text : string) : nat :=
  List.length (filter (fun word => 0 <? String.length word)
                      (split_regex_class is_space text)).

End Gemini.


(* ================================================================= *)
(** * Properties *)

(** ** Cosine similarity *)

Module CosineFacts.
Import JsString JsNumber JsValue Runtime Rag.

Lemma cosine_sums_from {T} `{Number T} (vecA vecB : list T) :
  cosine_sums vecA vecB = sums_from (of_Z 0, of_Z 0, of_Z 0) (combine vecA vecB).
Proof. reflexivity. Qed.

Local Open Scope R_scope.

(** Cauchy-Schwarz, kept along the loop: with non-negative components
    the dot product stays non-negative and its square stays below the
    product of the two squared norms. *)
Lemma sums_from_invariant (l : list (R * R)) :
  forall d na nb,
    Forall (fun xy => 0 <= fst xy /\ 0 <= snd xy) l ->
    0 <= d -> 0 <= na -> 0 <= nb -> d * d <= na * nb ->
    let '(d', na', nb') := sums_from (T:=R) (d, na, nb) l in
    0 <= d' /\ na <= na' /\ nb <= nb' /\ d' * d' <= na' * nb'.
Proof.
  induction l as [|[x y] l IH]; intros d na nb Hl Hd Hna Hnb Hcs.
  - simpl. repeat split; lra.
  - inversion Hl as [|? ? [Hx Hy] Hl']; subst. simpl in Hx, Hy.
    assert (Hxy : 0 <= x * y) by (apply Rmult_le_pos; assumption).
    assert (Hstep : (d + x * y) * (d + x * y) <= (na + x * x) * (nb + y * y)).
    { assert (H1 : 0 <= (na * (y * y) - nb * (x * x)) * (na * (y * y) - nb * (x * x)))
        by apply Rle_0_sqr.
      assert (H2 : d * d * ((x * y) * (x * y)) <= na * nb * ((x * y) * (x * y))).
      { apply Rmult_le_compat_r; [apply Rle_0_sqr | exact Hcs]. }
      assert (H3 : 0 <= d * (x * y)) by (apply Rmult_le_pos; assumption).
      assert (H4 : 0 <= na * (y * y) + nb * (x * x)).
      { apply Rplus_le_le_0_compat; apply Rmult_le_pos; try assumption;
          apply Rle_0_sqr. }
      assert (H5 : 2 * (d * (x * y)) <= na * (y * y) + nb * (x * x)).
      { destruct (Rle_dec (2 * (d * (x * y))) (na * (y * y) + nb * (x * x)))
          as [Hle|Hgt]; [exact Hle|].
        apply Rnot_le_lt in Hgt.
        assert (H6 : (na * (y * y) + nb * (x * x)) * (na * (y * y) + nb * (x * x))
                     < (2 * (d * (x * y))) * (2 * (d * (x * y)))).
        { apply Rmult_le_0_lt_compat; assumption. }
        nra. }
      nra. }
    specialize (IH (d + x * y) (na + x * x) (nb + y * y) Hl').
    change (sums_from (T:=R) (d, na, nb) ((x, y) :: l))
      with (sums_from (T:=R) (d + x * y, na + x * x, nb + y * y) l).
    pose proof (Rle_0_sqr x) as Hxx. pose proof (Rle_0_sqr y) as Hyy.
    unfold Rsqr in Hxx, Hyy.
    destruct (sums_from (T:=R) (d + x * y, na + x * x, nb + y * y) l)
      as [[d' na'] nb'].
    destruct IH as (Hd' & Hna' & Hnb' & Hcs'); repeat split; lra.
Qed.

(** The counts of an embedding, read in [R], are not negative. *)
Lemma embedding_nonneg (text1 text2 : string) :
  Forall (fun xy : R * R => 0 <= fst xy /\ 0 <= snd xy)
         (combine (createSimpleEmbedding text1) (createSimpleEmbedding text2)).
Proof.
  unfold createSimpleEmbedding.
  generalize (term_counts text1) (term_counts text2).
  induction l as [|n l IH]; intros [|m l']; simpl; constructor.
  - simpl. split; apply IZR_le; lia.
  - apply IH.
Qed.

Lemma embedding_length {T} `{Number T} (text : string) :
  List.length (createSimpleEmbedding (T:=T) text) = 18%nat.
Proof. unfold createSimpleEmbedding, term_counts. rewrite !length_map. reflexivity. Qed.

(** In exact arithmetic the similarity of two embeddings lies between
    0 and 1. *)
Lemma cosine_exact_bounds (text1 text2 : string) :
  0 <= cosineSimilarity (T:=R) (createSimpleEmbedding text1) (createSimpleEmbedding text2)
    <= 1.
Proof.
  unfold cosineSimilarity.
  rewrite !embedding_length. simpl negb. cbv iota.
  rewrite cosine_sums_from.
  pose proof (sums_from_invariant (embedding_nonneg text1 text2)
                (d:=0) (na:=0) (nb:=0)) as Hinv.
  simpl of_Z.
  destruct (sums_from (T:=R) (0, 0, 0)
              (combine (createSimpleEmbedding text1) (createSimpleEmbedding text2)))
    as [[d na] nb].
  destruct Hinv as (Hd & Hna & Hnb & Hcs); try lra.
  simpl neqb. unfold R_eqb.
  destruct (Req_dec_T na 0) as [|Hna0]; [simpl; lra|].
  destruct (Req_dec_T nb 0) as [|Hnb0]; [simpl; lra|].
  simpl orb. cbv iota. simpl ndiv. simpl nmul. simpl nsqrt.
  assert (Hpa : 0 < na) by lra. assert (Hpb : 0 < nb) by lra.
  assert (Hsa : 0 < sqrt na) by (apply sqrt_lt_R0; exact Hpa).
  assert (Hsb : 0 < sqrt nb) by (apply sqrt_lt_R0; exact Hpb).
  assert (Hden : 0 < sqrt na * sqrt nb) by (apply Rmult_lt_0_compat; assumption).
  split.
  - apply Rmult_le_pos; [exact Hd | left; apply Rinv_0_lt_compat; exact Hden].
  - apply Rmult_le_reg_r with (r := sqrt na * sqrt nb); [exact Hden|].
    unfold Rdiv. rewrite Rmult_assoc, Rinv_l by lra. rewrite Rmult_1_r, Rmult_1_l.
    rewrite <- sqrt_mult by lra.
    rewrite <- (sqrt_square d) at 1 by exact Hd.
    apply sqrt_le_1_alt. exact Hcs.
Qed.

End CosineFacts.

(** ** Signs of binary64 results *)

Module FloatSign.
Import JsString JsNumber JsValue Runtime Rag.

(** Rounding gives the sign it is asked for. *)
Lemma binary_round_aux_sign (s : bool) (m e : Z) (l : location) :
  match binary_round_aux prec emax s m e l with
  | S754_nan => True
  | S754_zero s' | S754_infinity s' | S754_finite s' _ _ => s' = s
  end.
Proof.
  cbv [SpecFloat.binary_round_aux].
  destruct (shr_fexp prec emax m e l) as [mrs' e'].
  destruct (shr_fexp prec emax _ e' loc_Exact) as [mrs'' e''].
  destruct (shr_m mrs''); [reflexivity| |exact I].
  match goal with |- context [if ?c then _ else _] => destruct c end; reflexivity.
Qed.

Lemma unsigned_round_aux (m e : Z) (l : location) :
  Spec.unsigned (binary_round_aux prec emax false m e l).
Proof.
  pose proof (binary_round_aux_sign false m e l) as Hs. unfold Spec.unsigned.
  destruct (binary_round_aux prec emax false m e l); exact Hs.
Qed.

Lemma unsigned_round (m : positive) (e : Z) :
  Spec.unsigned (binary_round prec emax false m e).
Proof.
  cbv [SpecFloat.binary_round].
  match goal with |- context [shl_align ?a ?b ?c] =>
    destruct (shl_align a b c) as [mz ez] end.
  apply unsigned_round_aux.
Qed.

Lemma unsigned_mul (x y : spec_float) :
  Spec.unsigned x -> Spec.unsigned y -> Spec.unsigned (SF64mul x y).
Proof.
  destruct x as [sx|sx| |sx mx ex], y as [sy|sy| |sy my ey]; simpl;
    intros Hx Hy; subst; try exact I; try reflexivity.
  apply unsigned_round_aux.
Qed.

Lemma unsigned_add (x y : spec_float) :
  Spec.unsigned x -> Spec.unsigned y -> Spec.unsigned (SF64add x y).
Proof.
  destruct x as [sx|sx| |sx mx ex], y as [sy|sy| |sy my ey]; simpl;
    intros Hx Hy; subst; try exact I; try reflexivity.
  apply unsigned_round.
Qed.

Lemma unsigned_sqrt (x : spec_float) :
  Spec.unsigned x -> Spec.unsigned (SF64sqrt x).
Proof.
  destruct x as [sx|sx| |sx mx ex]; simpl; intros Hx; subst; try exact I;
    try reflexivity.
  unfold SF64sqrt. cbv [SpecFloat.SFsqrt].
  destruct (SFsqrt_core_binary prec emax (Z.pos mx) ex) as [[mz ez] lz].
  apply unsigned_round_aux.
Qed.

Lemma unsigned_div (x y : spec_float) :
  Spec.unsigned x -> Spec.unsigned y -> Spec.unsigned (SF64div x y).
Proof.
  destruct x as [sx|sx| |sx mx ex], y as [sy|sy| |sy my ey]; simpl;
    intros Hx Hy; subst; try exact I; try reflexivity.
  unfold SF64div. cbv [SpecFloat.SFdiv].
  destruct (SFdiv_core_binary prec emax (Z.pos mx) ex (Z.pos my) ey)
    as [[mz ez] lz].
  apply unsigned_round_aux.
Qed.

(** The number of a count has no minus sign. *)
Lemma unsigned_count (n : nat) :
  Spec.unsigned (Prim2SF (float_of_Z (Z.of_nat n))).
Proof.
  destruct (Z.of_nat n) as [|p|p] eqn:Hn; [reflexivity| |lia].
  unfold float_of_Z. rewrite of_uint63_spec.
  pose proof (Uint63.to_Z_bounded (Uint63.of_Z (Z.pos p))) as [Hlow _].
  destruct (Uint63.to_Z (Uint63.of_Z (Z.pos p))) as [|q|q];
    [reflexivity| |lia].
  apply unsigned_round.
Qed.

Lemma embedding_unsigned (text1 text2 : string) :
  Forall (fun xy : float * float =>
            Spec.unsigned (Prim2SF (fst xy)) /\ Spec.unsigned (Prim2SF (snd xy)))
         (combine (createSimpleEmbedding text1) (createSimpleEmbedding text2)).
Proof.
  unfold createSimpleEmbedding.
  generalize (term_counts text1) (term_counts text2).
  induction l as [|n l IH]; intros [|m l']; simpl; constructor.
  - split; apply unsigned_count.
  - apply IH.
Qed.

(** The three sums of [cosineSimilarity], over numbers that have no
    minus sign, have none. *)
Lemma sums_from_unsigned (l : list (float * float)) :
  forall d na nb,
    Forall (fun xy : float * float =>
              Spec.unsigned (Prim2SF (fst xy)) /\ Spec.unsigned (Prim2SF (snd xy))) l ->
    Spec.unsigned (Prim2SF d) -> Spec.unsigned (Prim2SF na) ->
    Spec.unsigned (Prim2SF nb) ->
    let '(d', na', nb') := sums_from (T:=float) (d, na, nb) l in
    Spec.unsigned (Prim2SF d') /\ Spec.unsigned (Prim2SF na')
    /\ Spec.unsigned (Prim2SF nb').
Proof.
  induction l as [|[x y] l IH]; intros d na nb Hl Hd Hna Hnb.
  - simpl. repeat split; assumption.
  - inversion Hl as [|? ? [Hx Hy] Hl']; subst. simpl in Hx, Hy.
    change (sums_from (T:=float) (d, na, nb) ((x, y) :: l))
      with (sums_from (T:=float)
              (PrimFloat.add d (PrimFloat.mul x y),
               PrimFloat.add na (PrimFloat.mul x x),
               PrimFloat.add nb (PrimFloat.mul y y)) l).
    apply IH; [exact Hl'| | |]; rewrite add_spec, mul_spec;
      apply unsigned_add; try assumption; apply unsigned_mul; assumption.
Qed.

(** In binary64 the similarity of two vectors without minus signs has
    none: it is NaN, or it is not below 0. *)
Lemma cosineSimilarity_unsigned (vecA vecB : list float) :
  Forall (fun xy : float * float =>
            Spec.unsigned (Prim2SF (fst xy)) /\ Spec.unsigned (Prim2SF (snd xy)))
         (combine vecA vecB) ->
  Spec.unsigned (Prim2SF (cosineSimilarity vecA vecB)).
Proof.
  intros Hl. unfold cosineSimilarity, cosine_sums.
  destruct (negb _); [reflexivity|].
  pose proof (@sums_from_unsigned (combine vecA vecB) (of_Z 0) (of_Z 0) (of_Z 0)
                Hl eq_refl eq_refl eq_refl) as Hsums.
  destruct (sums_from (of_Z 0, of_Z 0, of_Z 0) (combine vecA vecB))
    as [[d na] nb].
  destruct Hsums as (Hd & Hna & Hnb).
  destruct (_ || _); [reflexivity|].
  change (Spec.unsigned
            (Prim2SF (PrimFloat.div d (PrimFloat.mul (PrimFloat.sqrt na)
                                                     (PrimFloat.sqrt nb))))).
  rewrite div_spec, mul_spec, !sqrt_spec.
  apply unsigned_div; [exact Hd|].
  apply unsigned_mul; apply unsigned_sqrt; assumption.
Qed.

Lemma unsigned_not_below_zero (x : float) :
  Spec.unsigned (Prim2SF x) ->
  PrimFloat.ltb x 0 = false
  /\ (PrimFloat.is_nan x = false -> PrimFloat.leb 0 x = true).
Proof.
  unfold PrimFloat.is_nan. rewrite ltb_spec, leb_spec, eqb_spec.
  change (Prim2SF 0) with (S754_zero false).
  destruct (Prim2SF x) as [s|s| |s m e]; simpl; intros Hs; subst;
    split; try reflexivity; intros Hn; try reflexivity; discriminate Hn.
Qed.

End FloatSign.


(** ** Order on binary64 numbers *)

Module FloatFacts.
Import JsNumber.

Lemma SFcompare_antisym (x y : spec_float) (c : comparison) :
  SFcompare x y = Some c -> SFcompare y x = Some (CompOpp c).
Proof.
  destruct x as [sx|sx| |sx mx ex], y as [sy|sy| |sy my ey]; simpl;
    try discriminate; intros [= <-];
    try (destruct sx; reflexivity); try (destruct sy; reflexivity);
    try (destruct sx, sy; reflexivity).
  destruct sx, sy; try reflexivity;
    rewrite (Z.compare_antisym ex ey);
    destruct (ex ?= ey)%Z; simpl; try reflexivity;
    change (Pos.compare_cont Eq my mx) with (Pos.compare my mx);
    change (Pos.compare_cont Eq mx my) with (Pos.compare mx my);
    rewrite (Pos.compare_antisym mx my);
    destruct (mx ?= my)%positive; reflexivity.
Qed.

Lemma SFcompare_total (x y : spec_float) :
  x <> S754_nan -> y <> S754_nan -> exists c, SFcompare x y = Some c.
Proof.
  destruct x, y; simpl; intros Hx Hy; try contradiction; eexists; reflexivity.
Qed.

Lemma is_nan_spec (x : float) :
  PrimFloat.is_nan x = false -> Prim2SF x <> S754_nan.
Proof.
  unfold PrimFloat.is_nan. rewrite eqb_spec. intros Hnan Hx.
  rewrite Hx in Hnan. discriminate Hnan.
Qed.

Lemma ltb_leb (x y : float) :
  PrimFloat.ltb x y = true -> PrimFloat.leb x y = true.
Proof.
  rewrite ltb_spec, leb_spec. unfold SFltb, SFleb.
  destruct (SFcompare (Prim2SF x) (Prim2SF y)) as [[| |]|]; intros; try discriminate;
    reflexivity.
Qed.

Lemma not_ltb_leb (x y : float) :
  PrimFloat.is_nan x = false -> PrimFloat.is_nan y = false ->
  PrimFloat.ltb x y = false -> PrimFloat.leb y x = true.
Proof.
  intros Hx Hy. apply is_nan_spec in Hx, Hy.
  rewrite ltb_spec, leb_spec. unfold SFltb, SFleb.
  destruct (SFcompare_total Hx Hy) as [c Hc]. rewrite Hc.
  rewrite (SFcompare_antisym _ _ Hc).
  destruct c; intros; try discriminate; reflexivity.
Qed.

Lemma ltb_not_nan (x y : float) :
  PrimFloat.ltb x y = true -> PrimFloat.is_nan x = false /\ PrimFloat.is_nan y = false.
Proof.
  unfold PrimFloat.is_nan. rewrite ltb_spec, !eqb_spec. unfold SFltb, SFeqb.
  destruct (Prim2SF x) as [sx|sx| |sx mx ex], (Prim2SF y) as [sy|sy| |sy my ey];
    simpl; try discriminate; intros _; split;
    try reflexivity; try (destruct sx; reflexivity); try (destruct sy; reflexivity);
    rewrite Z.compare_refl, Pos.compare_cont_refl;
    try (destruct sx; reflexivity); try (destruct sy; reflexivity).
Qed.

(** [Math.min(0.95, Math.max(0.1, x))] of a number lies between 0.1
    and 0.95. *)
Lemma float_clamp_bounds (x : float) :
  PrimFloat.is_nan x = false ->
  PrimFloat.leb (of_Q 0.1%Q) (float_min (of_Q 0.95%Q) (float_max (of_Q 0.1%Q) x)) = true
  /\ PrimFloat.leb (float_min (of_Q 0.95%Q) (float_max (of_Q 0.1%Q) x)) (of_Q 0.95%Q)
     = true.
Proof.
  intros Hx.
  set (lo := of_Q (T:=float) 0.1%Q). set (hi := of_Q (T:=float) 0.95%Q).
  assert (Hlo : PrimFloat.is_nan lo = false) by (vm_compute; reflexivity).
  assert (Hhi : PrimFloat.is_nan hi = false) by (vm_compute; reflexivity).
  assert (Hmax : float_max lo x = if PrimFloat.ltb lo x then x else lo).
  { unfold float_max. rewrite Hlo, Hx. simpl orb. cbv iota.
    destruct (PrimFloat.ltb lo x); [reflexivity|].
    destruct (PrimFloat.ltb x lo); [reflexivity|].
    replace (is_neg_zero lo) with false by (vm_compute; reflexivity). reflexivity. }
  rewrite Hmax.
  destruct (PrimFloat.ltb lo x) eqn:Hlox.
  - assert (Hmin : float_min hi x = if PrimFloat.ltb hi x then hi else x).
    { unfold float_min. rewrite Hhi, Hx. simpl orb. cbv iota.
      destruct (PrimFloat.ltb hi x); [reflexivity|].
      destruct (PrimFloat.ltb x hi); [reflexivity|].
      replace (is_neg_zero hi) with false by (vm_compute; reflexivity). reflexivity. }
    rewrite Hmin.
    destruct (PrimFloat.ltb hi x) eqn:Hhix.
    + split; vm_compute; reflexivity.
    + split; [apply ltb_leb; exact Hlox | apply not_ltb_leb; assumption].
  - split; vm_compute; reflexivity.
Qed.

End FloatFacts.

(** ** The order of binary64 numbers, and the sign of a difference *)

Module FloatOrder.
Import JsNumber FloatFacts.
Local Open Scope Z_scope.

(** The operations of the specification of floats, read as those of
    the library of integers. *)
Ltac integers :=
  change IntDef.Z.add with Z.add in *; change IntDef.Z.sub with Z.sub in *;
  change IntDef.Z.mul with Z.mul in *; change IntDef.Z.opp with Z.opp in *;
  change IntDef.Z.max with Z.max in *; change IntDef.Z.min with Z.min in *;
  change IntDef.Z.compare with Z.compare in *;
  change IntDef.Z.leb with Z.leb in *; change IntDef.Z.eqb with Z.eqb in *;
  change IntDef.Z.even with Z.even in *.

(** *** Mantissas and their number of digits *)

Lemma digits2_bounds (p : positive) :
  2 ^ (Z.pos (digits2_pos p) - 1) <= Z.pos p < 2 ^ Z.pos (digits2_pos p).
Proof.
  induction p as [p IH|p IH|]; cbn [digits2_pos].
  - rewrite Pos2Z.inj_succ. replace (Z.succ (Z.pos (digits2_pos p)) - 1)
      with (Z.succ (Z.pos (digits2_pos p) - 1)) by lia.
    rewrite !Z.pow_succ_r by lia. lia.
  - rewrite Pos2Z.inj_succ. replace (Z.succ (Z.pos (digits2_pos p)) - 1)
      with (Z.succ (Z.pos (digits2_pos p) - 1)) by lia.
    rewrite !Z.pow_succ_r by lia. lia.
  - simpl. lia.
Qed.

(** What validity says of a finite binary64 value: the exponent is
    at least [emin], the mantissa has at most 53 digits, and exactly
    53 above [emin]. *)
Lemma valid_finite (s : bool) (m : positive) (e : Z) :
  valid_binary (S754_finite s m e) = true ->
  -1074 <= e /\ Z.pos (digits2_pos m) <= 53
  /\ (-1074 < e -> Z.pos (digits2_pos m) = 53).
Proof.
  cbv [SpecFloat.valid_binary SpecFloat.bounded SpecFloat.canonical_mantissa SpecFloat.fexp SpecFloat.emin].
  change (3 - emax - prec) with (-1074). change prec with 53.
  intros Hv. apply andb_prop in Hv. destruct Hv as [Hc _].
  apply Z.eqb_eq in Hc.
  integers. lia.
Qed.

Lemma iter_xO (d m : positive) : Z.pos (Pos.iter xO m d) = Z.pos m * 2 ^ Z.pos d.
Proof.
  revert m. induction d as [|d IH] using Pos.peano_ind; intros m.
  - simpl. lia.
  - rewrite Pos.iter_succ, Pos2Z.inj_succ, Z.pow_succ_r by lia.
    rewrite Pos2Z.inj_xO, IH. lia.
Qed.

(** [shl_align] to a smaller exponent multiplies the mantissa. *)
Lemma shl_align_value (m : positive) (e e' : Z) :
  e' <= e -> Z.pos (fst (shl_align m e e')) = Z.pos m * 2 ^ (e - e').
Proof.
  intros He. cbv [SpecFloat.shl_align]. integers.
  destruct (e' - e) as [|d|d] eqn:Hd; try lia.
  - assert (Hz : e - e' = 0) by lia. rewrite Hz. cbn [fst]. rewrite Z.pow_0_r. lia.
  - cbn [fst]. rewrite iter_xO. f_equal. f_equal. lia.
Qed.

(** *** Shifting to the right keeps a mantissa positive *)

Lemma shr_1_m (mrs : shr_record) :
  0 <= shr_m mrs -> shr_m (shr_1 mrs) = Z.div2 (shr_m mrs).
Proof.
  destruct mrs as [m r s]. simpl. intros Hm.
  destruct m as [|[p|p|]|p]; try reflexivity; lia.
Qed.

Lemma iter_shr_m (p : positive) :
  forall mrs, 0 <= shr_m mrs ->
              shr_m (@SpecFloat.iter_pos shr_record shr_1 p mrs) = Z.shiftr (shr_m mrs) (Z.pos p).
Proof.
  assert (Hstep : forall mrs, 0 <= shr_m mrs -> 0 <= shr_m (shr_1 mrs)
                              /\ shr_m (shr_1 mrs) = Z.shiftr (shr_m mrs) 1).
  { intros mrs Hm. rewrite shr_1_m by exact Hm. rewrite Z.div2_spec.
    split; [apply Z.shiftr_nonneg; exact Hm | reflexivity]. }
  induction p as [p IH|p IH|]; intros mrs Hm; cbn [SpecFloat.iter_pos].
  - destruct (Hstep mrs Hm) as [H1 E1].
    assert (H2 : 0 <= shr_m (@SpecFloat.iter_pos shr_record shr_1 p (shr_1 mrs))).
    { rewrite IH by exact H1. apply Z.shiftr_nonneg. exact H1. }
    rewrite IH by exact H2. rewrite IH by exact H1. rewrite E1.
    rewrite !Z.shiftr_shiftr by lia. f_equal. lia.
  - assert (H2 : 0 <= shr_m (@SpecFloat.iter_pos shr_record shr_1 p mrs)).
    { rewrite IH by exact Hm. apply Z.shiftr_nonneg. exact Hm. }
    rewrite IH by exact H2. rewrite IH by exact Hm.
    rewrite Z.shiftr_shiftr by lia. f_equal. lia.
  - apply Hstep. exact Hm.
Qed.

Lemma shr_record_of_loc_m (m : Z) (l : location) :
  shr_m (shr_record_of_loc m l) = m.
Proof. destruct l as [|[| |]]; reflexivity. Qed.

Lemma shr_fexp_positive (m e : Z) (l : location) :
  0 < m -> -1074 <= e ->
  0 < shr_m (fst (shr_fexp prec emax m e l))
  /\ -1074 <= snd (shr_fexp prec emax m e l).
Proof.
  intros Hm He. cbv [SpecFloat.shr_fexp SpecFloat.shr SpecFloat.fexp SpecFloat.emin].
  change (3 - emax - prec) with (-1074). change prec with 53.
  integers.
  destruct m as [|p|p]; try lia. cbn [Zdigits2].
  pose proof (digits2_bounds p) as [Hlow _].
  set (d := Z.pos (digits2_pos p)) in *.
  destruct (Z.max (d + e - 53) (-1074) - e) as [|n|n] eqn:Hn; cbn [fst snd];
    rewrite ?shr_record_of_loc_m; try (split; lia).
  rewrite iter_shr_m by (rewrite shr_record_of_loc_m; lia).
  rewrite shr_record_of_loc_m, Z.shiftr_div_pow2 by lia.
  split; [|lia].
  assert (Hnd : Z.pos n <= d - 1) by lia.
  apply Z.div_str_pos. split; [apply Z.pow_pos_nonneg; lia|].
  eapply Z.le_trans; [|exact Hlow].
  apply Z.pow_le_mono_r; lia.
Qed.

Lemma round_nearest_even_positive (m : Z) (l : location) :
  0 < m -> 0 < round_nearest_even m l.
Proof.
  intros Hm. destruct l as [|[| |]]; simpl; integers; try lia.
  destruct (Z.even m); lia.
Qed.

(** Rounding a positive mantissa at an exponent from [emin] on gives
    a finite number or an infinity, of the sign asked for: the result
    is not a zero. *)
Lemma binary_round_aux_positive (s : bool) (m e : Z) (l : location) :
  0 < m -> -1074 <= e ->
  (exists m' e', binary_round_aux prec emax s m e l = S754_finite s m' e')
  \/ binary_round_aux prec emax s m e l = S754_infinity s.
Proof.
  intros Hm He. cbv [SpecFloat.binary_round_aux].
  pose proof (shr_fexp_positive l Hm He) as [Hm1 He1].
  destruct (shr_fexp prec emax m e l) as [mrs' e']. cbn [fst snd] in Hm1, He1.
  pose proof (shr_fexp_positive loc_Exact
                (round_nearest_even_positive (loc_of_shr_record mrs') Hm1) He1)
    as [Hm2 _].
  destruct (shr_fexp prec emax _ e' loc_Exact) as [mrs'' e'']. cbn [fst] in Hm2.
  destruct (shr_m mrs'') as [|q|q]; try lia.
  destruct (e'' <=? emax - prec); [left; eexists; eexists; reflexivity | right; reflexivity].
Qed.

Lemma binary_round_positive (s : bool) (m : positive) (e : Z) :
  -1074 <= e ->
  (exists m' e', binary_round prec emax s m e = S754_finite s m' e')
  \/ binary_round prec emax s m e = S754_infinity s.
Proof.
  intros He. cbv [SpecFloat.binary_round SpecFloat.shl_align SpecFloat.fexp SpecFloat.emin].
  change (3 - emax - prec) with (-1074). change prec with 53.
  integers.
  destruct (Z.max (Z.pos (digits2_pos m) + e - 53) (-1074) - e) as [|d|d] eqn:Hd;
    apply binary_round_aux_positive; lia.
Qed.

(** *** The sign of a difference *)

(** Two valid mantissas brought to the smaller of their exponents
    compare as the numbers do: first by exponent, then by
    mantissa. *)
Lemma aligned_compare (mx my : positive) (ex ey : Z) :
  valid_binary (S754_finite false mx ex) = true ->
  valid_binary (S754_finite false my ey) = true ->
  let Mx := Z.pos (fst (shl_align mx ex (Z.min ex ey))) in
  let My := Z.pos (fst (shl_align my ey (Z.min ex ey))) in
  match (ex ?= ey) with
  | Lt => Mx < My
  | Gt => My < Mx
  | Eq => match (mx ?= my)%positive with
          | Lt => Mx < My
          | Eq => Mx = My
          | Gt => My < Mx
          end
  end.
Proof.
  intros Hx Hy Mx My. subst Mx My.
  apply (@valid_finite false) in Hx, Hy.
  destruct Hx as (Hex & Hdx & Hnx), Hy as (Hey & Hdy & Hny).
  pose proof (digits2_bounds mx) as [Hlx Hux].
  pose proof (digits2_bounds my) as [Hly Huy].
  rewrite !shl_align_value by lia.
  assert (Hcap : forall d, d <= 53 -> 2 ^ d <= 2 ^ 53)
    by (intros d Hd; apply Z.pow_le_mono_r; lia).
  assert (Hstep : forall n, 1 <= n -> 2 <= 2 ^ n).
  { intros n Hn. change 2 with (2 ^ 1) at 1. apply Z.pow_le_mono_r; lia. }
  destruct (Z.compare_spec ex ey) as [Heq|Hlt|Hgt].
  - subst ey. rewrite Z.min_id, Z.sub_diag, Z.pow_0_r.
    destruct (Pos.compare_spec mx my); lia.
  - rewrite Z.min_l by lia. rewrite Z.sub_diag, Z.pow_0_r.
    specialize (Hny ltac:(lia)). rewrite Hny in Hly.
    specialize (Hcap _ Hdx). specialize (Hstep (ey - ex) ltac:(lia)).
    change (2 ^ (53 - 1)) with 4503599627370496 in Hly.
    change (2 ^ 53) with 9007199254740992 in Hcap. nia.
  - rewrite Z.min_r by lia. rewrite Z.sub_diag, Z.pow_0_r.
    specialize (Hnx ltac:(lia)). rewrite Hnx in Hlx.
    specialize (Hcap _ Hdy). specialize (Hstep (ex - ey) ltac:(lia)).
    change (2 ^ (53 - 1)) with 4503599627370496 in Hlx.
    change (2 ^ 53) with 9007199254740992 in Hcap. nia.
Qed.

(** A number rounded from an integer is above 0 exactly when the
    integer is. *)
Lemma normalize_sign (D ez : Z) :
  -1074 <= ez ->
  SFltb (S754_zero false) (binary_normalize prec emax D ez false) = (0 <? D).
Proof.
  intros Hez. destruct D as [|q|q]; cbn [SpecFloat.binary_normalize].
  - reflexivity.
  - destruct (@binary_round_positive false q ez Hez) as [(m' & e' & ->) | ->];
      reflexivity.
  - destruct (@binary_round_positive true q ez Hez) as [(m' & e' & ->) | ->];
      reflexivity.
Qed.

(** The difference [y - x] of two numbers is above 0 exactly when
    [x < y]. *)
Lemma SFsub_sign (x y : spec_float) :
  valid_binary x = true -> valid_binary y = true ->
  x <> S754_nan -> y <> S754_nan ->
  SFltb (S754_zero false) (SF64sub y x) = SFltb x y.
Proof.
  intros Vx Vy Nx Ny.
  destruct x as [sx|sx| |sx mx ex], y as [sy|sy| |sy my ey];
    try contradiction;
    try (destruct sx, sy; reflexivity); try (destruct sx; reflexivity);
    try (destruct sy; reflexivity).
  unfold SF64sub. cbn [SpecFloat.SFsub].
  assert (Hex : -1074 <= ex) by (apply (@valid_finite sx mx ex Vx)).
  assert (Hey : -1074 <= ey) by (apply (@valid_finite sy my ey Vy)).
  integers. rewrite normalize_sign by lia.
  pose proof (@aligned_compare mx my ex ey Vx Vy) as Hcmp. cbv zeta in Hcmp.
  rewrite (Z.min_comm ey ex).
  set (Mx := Z.pos (fst (shl_align mx ex (Z.min ex ey)))) in *.
  set (My := Z.pos (fst (shl_align my ey (Z.min ex ey)))) in *.
  assert (HMx : 0 < Mx) by (subst Mx; lia).
  assert (HMy : 0 < My) by (subst My; lia).
  unfold SFltb. cbn [SpecFloat.SFcompare]. integers.
  change (PosDef.Pos.compare_cont Eq mx my) with (Pos.compare mx my).
  destruct sx, sy; cbn [SpecFloat.cond_Zopp]; integers;
    destruct (ex ?= ey); try destruct (mx ?= my)%positive; cbn [CompOpp];
    first [apply Z.ltb_lt; lia | apply Z.ltb_ge; lia].
Qed.

(** *** The order of binary64 numbers *)

Ltac compare_cases :=
  repeat match goal with
         | H : context [PosDef.Pos.compare_cont Eq ?a ?b] |- _ =>
             change (PosDef.Pos.compare_cont Eq a b) with (Pos.compare a b) in H
         | |- context [PosDef.Pos.compare_cont Eq ?a ?b] =>
             change (PosDef.Pos.compare_cont Eq a b) with (Pos.compare a b)
         end;
  repeat match goal with
         | H : context [(?a ?= ?b)%Z] |- _ => destruct (Z.compare_spec a b)
         | |- context [(?a ?= ?b)%Z] => destruct (Z.compare_spec a b)
         | H : context [(?a ?= ?b)%positive] |- _ => destruct (Pos.compare_spec a b)
         | |- context [(?a ?= ?b)%positive] => destruct (Pos.compare_spec a b)
         end;
  cbn [CompOpp] in *; try discriminate; try reflexivity; try lia.

Lemma SFleb_trans (x y z : spec_float) :
  SFleb x y = true -> SFleb y z = true -> SFleb x z = true.
Proof.
  unfold SFleb.
  destruct x as [[]|[]| |[] mx ex], y as [[]|[]| |[] my ey], z as [[]|[]| |[] mz ez];
    cbn [SpecFloat.SFcompare]; try discriminate; try reflexivity; integers;
    intros Hxy Hyz; compare_cases.
Qed.

(** Two numbers equal to a third are not one below the other. *)
Lemma SFeqb_not_ltb (x y score : spec_float) :
  SFeqb x score = true -> SFeqb y score = true -> SFltb x y = false.
Proof.
  unfold SFeqb, SFltb.
  destruct x as [[]|[]| |[] mx ex], y as [[]|[]| |[] my ey],
           score as [[]|[]| |[] mz ez];
    cbn [SpecFloat.SFcompare]; try discriminate; try reflexivity; integers;
    intros Hxy Hyz; compare_cases.
Qed.

(** *** The same, on primitive floats *)

Lemma float_sub_sign (x y : float) :
  PrimFloat.is_nan x = false -> PrimFloat.is_nan y = false ->
  PrimFloat.ltb 0 (PrimFloat.sub y x) = PrimFloat.ltb x y.
Proof.
  intros Hx Hy. rewrite !ltb_spec, sub_spec.
  change (Prim2SF 0) with (S754_zero false).
  apply SFsub_sign; try apply Prim2SF_valid; apply is_nan_spec; assumption.
Qed.

Lemma float_leb_trans (x y z : float) :
  PrimFloat.leb x y = true -> PrimFloat.leb y z = true ->
  PrimFloat.leb x z = true.
Proof. rewrite !leb_spec. apply SFleb_trans. Qed.

Lemma float_eqb_not_ltb (x y score : float) :
  PrimFloat.eqb x score = true -> PrimFloat.eqb y score = true ->
  PrimFloat.ltb x y = false.
Proof. rewrite !eqb_spec, ltb_spec. apply SFeqb_not_ltb. Qed.

End FloatOrder.

(** ** The range of binary64 results *)

Module FloatRange.
Import JsString JsNumber JsValue Runtime Rag FloatFacts FloatOrder.
Local Open Scope Z_scope.

(** *** Numbers of digits *)

Lemma digits_upper (p : positive) (k : Z) :
  Z.pos p < 2 ^ k -> Z.pos (digits2_pos p) <= k.
Proof.
  intros Hp. pose proof (digits2_bounds p) as [Hlow _].
  destruct (Z.le_gt_cases (Z.pos (digits2_pos p)) k) as [Hle|Hgt]; [exact Hle|].
  assert (H : 2 ^ k <= 2 ^ (Z.pos (digits2_pos p) - 1)).
  { destruct (Z.le_gt_cases 0 k).
    - apply Z.pow_le_mono_r; lia.
    - rewrite (Z.pow_neg_r 2 k) by lia. apply Z.pow_nonneg. lia. }
  lia.
Qed.

Lemma digits_lower (p : positive) (k : Z) :
  0 <= k -> 2 ^ k <= Z.pos p -> k + 1 <= Z.pos (digits2_pos p).
Proof.
  intros Hk Hp. pose proof (digits2_bounds p) as [_ Hup].
  destruct (Z.le_gt_cases (k + 1) (Z.pos (digits2_pos p))) as [Hle|Hgt]; [exact Hle|].
  assert (H : 2 ^ Z.pos (digits2_pos p) <= 2 ^ k) by (apply Z.pow_le_mono_r; lia).
  lia.
Qed.

(** *** The exponent a rounding ends at *)

Lemma shr_fexp_exponent (m e : Z) (l : location) :
  0 < m -> -1074 <= e ->
  snd (shr_fexp prec emax m e l) = Z.max e (Zdigits2 m + e - 53).
Proof.
  intros Hm He. cbv [SpecFloat.shr_fexp SpecFloat.shr SpecFloat.fexp SpecFloat.emin].
  change (3 - emax - prec) with (-1074). change prec with 53. integers.
  destruct (Z.max (Zdigits2 m + e - 53) (-1074) - e) as [|n|n] eqn:Hn;
    cbn [snd]; lia.
Qed.

Lemma shr_fexp_digits (m e : Z) (l : location) :
  0 < m -> -1074 <= e ->
  shr_m (fst (shr_fexp prec emax m e l)) < 2 ^ 53.
Proof.
  intros Hm He. cbv [SpecFloat.shr_fexp SpecFloat.shr SpecFloat.fexp SpecFloat.emin].
  change (3 - emax - prec) with (-1074). change prec with 53. integers.
  destruct m as [|p|p]; try lia. cbn [Zdigits2].
  pose proof (digits2_bounds p) as [_ Hup].
  set (d := Z.pos (digits2_pos p)) in *.
  destruct (Z.max (d + e - 53) (-1074) - e) as [|n|n] eqn:Hn; cbn [fst];
    rewrite ?shr_record_of_loc_m.
  - eapply Z.lt_le_trans; [exact Hup|]. apply Z.pow_le_mono_r; lia.
  - rewrite iter_shr_m by (rewrite shr_record_of_loc_m; lia).
    rewrite shr_record_of_loc_m, Z.shiftr_div_pow2 by lia.
    apply Z.div_lt_upper_bound; [apply Z.pow_pos_nonneg; lia|].
    rewrite <- Z.pow_add_r by lia.
    eapply Z.lt_le_trans; [exact Hup|]. apply Z.pow_le_mono_r; lia.
  - eapply Z.lt_le_trans; [exact Hup|]. apply Z.pow_le_mono_r; lia.
Qed.

Lemma round_nearest_even_bounds (m : Z) (l : location) :
  m <= round_nearest_even m l <= m + 1.
Proof.
  destruct l as [|[| |]]; simpl; integers; try lia.
  destruct (Z.even m); lia.
Qed.

(** Rounding a positive mantissa [m] at an exponent [e] from [emin]
    on, below the overflow threshold, gives a finite number whose
    exponent is the larger of [e] and [digits m + e - 53], or one
    more. *)
Lemma binary_round_aux_range (s : bool) (m e : Z) (l : location) :
  0 < m -> -1074 <= e ->
  Z.max e (Zdigits2 m + e - 53) + 1 <= 971 ->
  exists m' e',
    binary_round_aux prec emax s m e l = S754_finite s m' e'
    /\ Z.max e (Zdigits2 m + e - 53) <= e' <= Z.max e (Zdigits2 m + e - 53) + 1.
Proof.
  intros Hm He Hcap. cbv [SpecFloat.binary_round_aux].
  pose proof (shr_fexp_positive l Hm He) as [Hm1 _].
  pose proof (shr_fexp_exponent l Hm He) as He1.
  pose proof (shr_fexp_digits l Hm He) as Hd1.
  destruct (shr_fexp prec emax m e l) as [mrs' e1]. cbn [fst snd] in Hm1, He1, Hd1.
  pose proof (round_nearest_even_bounds (shr_m mrs') (loc_of_shr_record mrs'))
    as [Hr1 Hr2].
  set (m2 := round_nearest_even (shr_m mrs') (loc_of_shr_record mrs')) in *.
  assert (Hm2 : 0 < m2) by lia.
  assert (He1' : -1074 <= e1) by lia.
  pose proof (shr_fexp_positive loc_Exact Hm2 He1') as [Hm3 _].
  pose proof (shr_fexp_exponent loc_Exact Hm2 He1') as He3.
  destruct (shr_fexp prec emax m2 e1 loc_Exact) as [mrs'' e2].
  cbn [fst snd] in Hm3, He3.
  assert (Hd2 : Zdigits2 m2 <= 54).
  { destruct m2 as [|p|p]; try lia. cbn [Zdigits2].
    apply digits_upper. change (2 ^ 54) with (2 * 2 ^ 53). lia. }
  assert (Hd2' : 0 < Zdigits2 m2).
  { destruct m2 as [|p|p]; try lia. cbn [Zdigits2]. lia. }
  destruct (shr_m mrs'') as [|q|q]; try lia.
  change (emax - prec) with 971. integers.
  destruct (e2 <=? 971) eqn:Hfin.
  - eexists. eexists. split; [reflexivity|]. lia.
  - apply Z.leb_gt in Hfin. lia.
Qed.

Lemma digits_iter_xO (d m : positive) :
  Z.pos (digits2_pos (Pos.iter xO m d)) = Z.pos (digits2_pos m) + Z.pos d.
Proof.
  revert m. induction d as [|d IH] using Pos.peano_ind; intros m.
  - simpl. lia.
  - rewrite Pos.iter_succ. cbn [digits2_pos]. rewrite Pos2Z.inj_succ, IH. lia.
Qed.

(** Rounding a positive integer [m] times [2 ^ e]: the exponent of
    the result is [digits m + e - 53], not below [emin], or one
    more. *)
Lemma binary_round_range (s : bool) (m : positive) (e : Z) :
  -1074 <= e ->
  Z.max (Z.pos (digits2_pos m) + e - 53) (-1074) + 1 <= 971 ->
  exists m' e',
    binary_round prec emax s m e = S754_finite s m' e'
    /\ Z.max (Z.pos (digits2_pos m) + e - 53) (-1074) <= e'
       <= Z.max (Z.pos (digits2_pos m) + e - 53) (-1074) + 1.
Proof.
  intros He Hcap.
  cbv [SpecFloat.binary_round SpecFloat.shl_align SpecFloat.fexp SpecFloat.emin].
  change (3 - emax - prec) with (-1074). change prec with 53. integers.
  set (F := Z.max (Z.pos (digits2_pos m) + e - 53) (-1074)) in *.
  destruct (F - e) as [|d|d] eqn:Hd.
  - destruct (@binary_round_aux_range s (Z.pos m) e loc_Exact) as (m' & e' & Hr & Hb);
      cbn [Zdigits2]; try lia.
    exists m', e'. split; [exact Hr|]. cbn [Zdigits2] in Hb. lia.
  - destruct (@binary_round_aux_range s (Z.pos m) e loc_Exact) as (m' & e' & Hr & Hb);
      cbn [Zdigits2]; try lia.
    exists m', e'. split; [exact Hr|]. cbn [Zdigits2] in Hb. lia.
  - destruct (@binary_round_aux_range s (Z.pos (Pos.iter xO m d)) F loc_Exact)
      as (m' & e' & Hr & Hb); cbn [Zdigits2]; rewrite ?digits_iter_xO; try lia.
    exists m', e'. split; [exact Hr|].
    cbn [Zdigits2] in Hb. rewrite digits_iter_xO in Hb. lia.
Qed.

(** *** The range of each operation *)

Lemma sized_weaken (lo hi : Z) (x : spec_float) :
  lo <= hi -> Spec.sized lo x -> Spec.sized hi x.
Proof.
  intros Hle. destruct x as [[|]|[|]| |[|] m e]; simpl; try tauto. lia.
Qed.

Lemma sized_count (n : nat) : Spec.sized 11 (Prim2SF (float_of_Z (Z.of_nat n))).
Proof.
  destruct (Z.of_nat n) as [|p|p] eqn:Hn; [exact I| |lia].
  unfold float_of_Z. rewrite of_uint63_spec.
  pose proof (Uint63.to_Z_bounded (Uint63.of_Z (Z.pos p))) as [Hlow Hup].
  destruct (Uint63.to_Z (Uint63.of_Z (Z.pos p))) as [|q|q]; [exact I| |lia].
  cbv [SpecFloat.binary_normalize].
  pose proof (@digits_upper q 63 Hup) as Hd.
  assert (Hd' : 0 < Z.pos (digits2_pos q)) by lia.
  destruct (@binary_round_range false q 0) as (m' & e' & Hr & Hb); try lia.
  rewrite Hr. simpl. lia.
Qed.

(** What validity says of a number in range: 53 digits. *)
Lemma sized_mantissa (hi : Z) (m : positive) (e : Z) :
  valid_binary (S754_finite false m e) = true ->
  Spec.sized hi (S754_finite false m e) ->
  2 ^ 52 <= Z.pos m < 2 ^ 53.
Proof.
  intros Hv Hs. simpl in Hs.
  destruct (valid_finite _ _ _ Hv) as (_ & _ & Hd).
  pose proof (digits2_bounds m) as Hb. rewrite Hd in Hb by lia.
  exact Hb.
Qed.

Lemma sized_mul (hi : Z) (x y : spec_float) :
  valid_binary x = true -> valid_binary y = true ->
  Spec.sized hi x -> Spec.sized hi y -> 2 * hi + 54 <= 971 ->
  Spec.sized (2 * hi + 54) (SF64mul x y)
  /\ (Spec.nonzero x -> Spec.nonzero y -> Spec.nonzero (SF64mul x y)).
Proof.
  intros Vx Vy Hx Hy Hcap.
  destruct x as [[|]|[|]| |[|] mx ex], y as [[|]|[|]| |[|] my ey];
    try contradiction; try (split; [exact I | simpl; tauto]).
  pose proof (sized_mantissa Vx Hx) as Hmx.
  pose proof (sized_mantissa Vy Hy) as Hmy.
  simpl in Hx, Hy.
  unfold SF64mul. cbv [SpecFloat.SFmul]. cbn [xorb].
  assert (Hlow : 2 ^ 104 <= Z.pos (mx * my)).
  { rewrite Pos2Z.inj_mul. change (2 ^ 104) with (2 ^ 52 * 2 ^ 52).
    apply Z.mul_le_mono_nonneg; lia. }
  assert (Hup : Z.pos (mx * my) < 2 ^ 106).
  { rewrite Pos2Z.inj_mul. change (2 ^ 106) with (2 ^ 53 * 2 ^ 53).
    apply Z.mul_lt_mono_nonneg; lia. }
  apply digits_lower in Hlow; [|lia]. apply digits_upper in Hup.
  integers.
  destruct (@binary_round_aux_range false (Z.pos (mx * my)) (ex + ey) loc_Exact)
    as (m' & e' & Hr & Hb); cbn [Zdigits2]; try lia.
  rewrite Hr. cbn [Zdigits2] in Hb. cbn [Spec.sized Spec.nonzero]. split; [lia | intros _ _; exact I].
Qed.

Lemma sized_add (hi : Z) (x y : spec_float) :
  valid_binary x = true -> valid_binary y = true ->
  Spec.sized hi x -> Spec.sized hi y -> hi + 2 <= 971 ->
  Spec.sized (hi + 2) (SF64add x y)
  /\ (Spec.nonzero x -> Spec.nonzero (SF64add x y)).
Proof.
  intros Vx Vy Hx Hy Hcap.
  destruct x as [[|]|[|]| |[|] mx ex], y as [[|]|[|]| |[|] my ey];
    try contradiction; try (split; [exact I | simpl; tauto]);
    try (split; [simpl in *; lia | simpl; tauto]).
  pose proof (sized_mantissa Vx Hx) as Hmx.
  pose proof (sized_mantissa Vy Hy) as Hmy.
  simpl in Hx, Hy.
  unfold SF64add. cbv [SpecFloat.SFadd SpecFloat.cond_Zopp]. integers.
  set (ez := Z.min ex ey).
  pose proof (@shl_align_value mx ex ez ltac:(lia)) as Hax.
  pose proof (@shl_align_value my ey ez ltac:(lia)) as Hay.
  set (a := fst (shl_align mx ex ez)) in *.
  set (b := fst (shl_align my ey ez)) in *.
  change (Z.pos a + Z.pos b) with (Z.pos (a + b)).
  cbv [SpecFloat.binary_normalize].
  set (M := Z.max ex ey).
  assert (Hsum : 2 ^ (52 + (M - ez)) <= Z.pos (a + b) < 2 ^ (54 + (M - ez))).
  { rewrite Pos2Z.inj_add, Hax, Hay, !Z.pow_add_r by lia.
    assert (Hpx : 0 < 2 ^ (ex - ez)) by (apply Z.pow_pos_nonneg; lia).
    assert (Hpy : 0 < 2 ^ (ey - ez)) by (apply Z.pow_pos_nonneg; lia).
    assert (Hpm : 2 ^ (ex - ez) <= 2 ^ (M - ez) /\ 2 ^ (ey - ez) <= 2 ^ (M - ez))
      by (split; apply Z.pow_le_mono_r; lia).
    assert (Hmax : 2 ^ (M - ez) = 2 ^ (ex - ez) \/ 2 ^ (M - ez) = 2 ^ (ey - ez)).
    { destruct (Z.le_ge_cases ex ey);
        [right; f_equal; lia | left; f_equal; lia]. }
    change (2 ^ 54) with (2 * 2 ^ 53).
    nia. }
  destruct Hsum as [Hlow Hup].
  apply digits_lower in Hlow; [|lia]. apply digits_upper in Hup.
  destruct (@binary_round_range false (a + b) ez) as (m' & e' & Hr & Hb); try lia.
  rewrite Hr. cbn [Spec.sized Spec.nonzero]. split; [lia | intros _; exact I].
Qed.

Ltac integers' :=
  integers;
  change IntDef.Z.div2 with Z.div2 in *; change IntDef.Z.shiftl with Z.shiftl in *;
  change IntDef.Z.sqrtrem with Z.sqrtrem in *;
  change IntDef.Z.div_eucl with Z.div_eucl in *.

Lemma sized_sqrt (hi : Z) (x : spec_float) :
  valid_binary x = true -> Spec.sized hi x -> Spec.nonzero x -> hi + 53 <= 971 ->
  Spec.sized (hi + 53) (SF64sqrt x) /\ Spec.nonzero (SF64sqrt x).
Proof.
  intros Vx Hx Nx Hcap.
  destruct x as [[|]|[|]| |[|] mx ex]; try contradiction.
  pose proof (sized_mantissa Vx Hx) as Hmx.
  destruct (valid_finite _ _ _ Vx) as (_ & _ & Hd).
  simpl in Hx. specialize (Hd ltac:(lia)).
  unfold SF64sqrt.
  cbv [SpecFloat.SFsqrt SpecFloat.SFsqrt_core_binary SpecFloat.fexp SpecFloat.emin].
  integers'. change (3 - emax - prec) with (-1074). change prec with 53.
  cbn [Zdigits2]. rewrite Hd.
  set (e0 := Z.min (Z.max (Z.div2 (53 + ex + 1) - 53) (-1074)) (Z.div2 ex)).
  assert (He0 : -52 <= e0 /\ 0 <= ex - 2 * e0).
  { subst e0. rewrite !Z.div2_div. Z.to_euclidean_division_equations. lia. }
  set (m' := match ex - 2 * e0 with
             | 0 => Z.pos mx
             | Z.pos _ => Z.shiftl (Z.pos mx) (ex - 2 * e0)
             | Z.neg _ => 0
             end).
  assert (Hm' : 0 < m' < 2 ^ (53 + (ex - 2 * e0))).
  { subst m'. destruct (ex - 2 * e0) as [|p|p] eqn:Hs; try lia.
    rewrite Z.shiftl_mul_pow2, Z.pow_add_r by lia.
    assert (Hp : 0 < 2 ^ Z.pos p) by (apply Z.pow_pos_nonneg; lia).
    nia. }
  destruct (Z.sqrtrem m') as [q r] eqn:Hq.
  assert (Eq : q = Z.sqrt m') by (rewrite <- Z.sqrtrem_sqrt, Hq; reflexivity).
  assert (Hq1 : 0 < q) by (rewrite Eq; apply Z.sqrt_pos; lia).
  assert (Hq2 : q <= m') by (rewrite Eq; apply Z.sqrt_le_lin; lia).
  assert (Hdq : 0 < Zdigits2 q <= 53 + (ex - 2 * e0)).
  { destruct q as [|qp|qp]; try lia. cbn [Zdigits2]. split; [lia|].
    apply digits_upper. lia. }
  cbv beta iota. change (binary_round_aux 53) with (binary_round_aux prec).
  match goal with |- context [binary_round_aux _ _ _ _ _ ?l] =>
    destruct (@binary_round_aux_range false q e0 l) as (m2 & e2 & Hr & Hb);
      try lia
  end.
  rewrite Hr. cbn [Spec.sized Spec.nonzero]. split; [lia | exact I].
Qed.

(** *** A quotient that is a number *)

Lemma shr_fexp_natural (m e : Z) (l : location) :
  0 <= m -> 0 <= shr_m (fst (shr_fexp prec emax m e l)).
Proof.
  intros Hm. cbv [SpecFloat.shr_fexp SpecFloat.shr].
  match goal with |- context [match ?n with Z0 => _ | Zpos _ => _ | Zneg _ => _ end] =>
    destruct n as [|p|p] end; cbn [fst]; rewrite ?shr_record_of_loc_m; try exact Hm.
  rewrite iter_shr_m by (rewrite shr_record_of_loc_m; exact Hm).
  rewrite shr_record_of_loc_m. apply Z.shiftr_nonneg. exact Hm.
Qed.

Lemma binary_round_aux_number (s : bool) (m e : Z) (l : location) :
  0 <= m -> binary_round_aux prec emax s m e l <> S754_nan.
Proof.
  intros Hm. cbv [SpecFloat.binary_round_aux].
  pose proof (shr_fexp_natural e l Hm) as Hm1.
  destruct (shr_fexp prec emax m e l) as [mrs' e1]. cbn [fst] in Hm1.
  pose proof (round_nearest_even_bounds (shr_m mrs') (loc_of_shr_record mrs'))
    as [Hr1 _].
  set (m2 := round_nearest_even (shr_m mrs') (loc_of_shr_record mrs')) in *.
  assert (Hm2 : 0 <= m2) by lia.
  pose proof (shr_fexp_natural e1 loc_Exact Hm2) as Hm3.
  destruct (shr_fexp prec emax m2 e1 loc_Exact) as [mrs'' e2]. cbn [fst] in Hm3.
  destruct (shr_m mrs'') as [|q|q]; try lia; [discriminate|].
  destruct (_ <=? _)%Z; discriminate.
Qed.

Lemma div_number (hi hi' : Z) (x y : spec_float) :
  Spec.sized hi x -> Spec.sized hi' y -> Spec.nonzero y -> SF64div x y <> S754_nan.
Proof.
  intros Hx Hy Ny.
  destruct x as [[|]|[|]| |[|] mx ex], y as [[|]|[|]| |[|] my ey];
    try contradiction; try discriminate.
  unfold SF64div. cbv [SpecFloat.SFdiv SpecFloat.SFdiv_core_binary]. integers'.
  match goal with |- context [Z.div_eucl ?a ?b] =>
    assert (Hq : 0 <= fst (Z.div_eucl a b));
      [|destruct (Z.div_eucl a b) as [q r]]
  end.
  { match goal with |- context [Z.div_eucl ?a ?b] =>
      change (fst (Z.div_eucl a b)) with (a / b);
        apply Z.div_pos; [|lia]
    end.
    match goal with |- context [match ?n with Z0 => _ | Zpos _ => _ | Zneg _ => _ end] =>
      destruct n as [|p|p] end; try lia.
    apply Z.shiftl_nonneg. lia. }
  cbn [fst] in Hq. apply binary_round_aux_number. exact Hq.
Qed.

(** *** The similarity of two embeddings is a number *)

Lemma number_not_nan (x : float) :
  Prim2SF x <> S754_nan -> PrimFloat.is_nan x = false.
Proof.
  intros Hx. unfold PrimFloat.is_nan. rewrite eqb_spec.
  destruct (Prim2SF x) as [s|s| |s m e]; try contradiction; simpl.
  - destruct s; reflexivity.
  - destruct s; reflexivity.
  - unfold SFeqb, SFcompare. rewrite Z.compare_refl.
    change (PosDef.Pos.compare_cont Eq m m) with (Pos.compare m m).
    rewrite Pos.compare_refl. destruct s; reflexivity.
Qed.

Lemma nonzero_of_neq (hi : Z) (x : float) :
  PrimFloat.eqb x PrimFloat.zero = false -> Spec.sized hi (Prim2SF x) ->
  Spec.nonzero (Prim2SF x).
Proof.
  rewrite eqb_spec. change (Prim2SF PrimFloat.zero) with (S754_zero false).
  destruct (Prim2SF x) as [[|]|[|]| |[|] m e]; simpl; intros Hne Hs;
    try contradiction; try discriminate Hne; exact I.
Qed.

Lemma embedding_sized (text1 text2 : string) :
  Forall (fun xy : float * float =>
            Spec.sized 11 (Prim2SF (fst xy)) /\ Spec.sized 11 (Prim2SF (snd xy)))
         (combine (createSimpleEmbedding text1) (createSimpleEmbedding text2)).
Proof.
  unfold createSimpleEmbedding.
  generalize (term_counts text1) (term_counts text2).
  induction l as [|n l IH]; intros [|m l']; simpl; constructor.
  - split; apply sized_count.
  - apply IH.
Qed.

(** One turn of the loop of [cosineSimilarity]. *)
Lemma sized_step (hi : Z) (a x y : float) :
  76 <= hi -> hi + 2 <= 971 ->
  Spec.sized hi (Prim2SF a) -> Spec.sized 11 (Prim2SF x) -> Spec.sized 11 (Prim2SF y) ->
  Spec.sized (hi + 2) (Prim2SF (PrimFloat.add a (PrimFloat.mul x y))).
Proof.
  intros Hhi Hcap Ha Hx Hy. rewrite add_spec.
  apply sized_add; try apply Prim2SF_valid; [exact Ha| |exact Hcap].
  rewrite mul_spec. apply (@sized_weaken (2 * 11 + 54)); [lia|].
  apply sized_mul; try apply Prim2SF_valid; try assumption. lia.
Qed.

(** The three sums of [cosineSimilarity] over counts: each turn of
    the loop adds at most 2 to the exponent. *)
Lemma sums_from_sized (l : list (float * float)) :
  forall hi d na nb,
    Forall (fun xy : float * float =>
              Spec.sized 11 (Prim2SF (fst xy)) /\ Spec.sized 11 (Prim2SF (snd xy))) l ->
    76 <= hi -> hi + 2 * Z.of_nat (List.length l) <= 971 ->
    Spec.sized hi (Prim2SF d) -> Spec.sized hi (Prim2SF na) ->
    Spec.sized hi (Prim2SF nb) ->
    let '(d', na', nb') := sums_from (T:=float) (d, na, nb) l in
    Spec.sized (hi + 2 * Z.of_nat (List.length l)) (Prim2SF d')
    /\ Spec.sized (hi + 2 * Z.of_nat (List.length l)) (Prim2SF na')
    /\ Spec.sized (hi + 2 * Z.of_nat (List.length l)) (Prim2SF nb').
Proof.
  induction l as [|[x y] l IH]; intros hi d na nb Hl Hhi Hcap Hd Hna Hnb.
  - simpl. rewrite Z.add_0_r. repeat split; assumption.
  - inversion Hl as [|? ? [Hx Hy] Hl']; subst. cbn [fst snd] in Hx, Hy.
    change (sums_from (T:=float) (d, na, nb) ((x, y) :: l))
      with (sums_from (T:=float)
              (PrimFloat.add d (PrimFloat.mul x y),
               PrimFloat.add na (PrimFloat.mul x x),
               PrimFloat.add nb (PrimFloat.mul y y)) l).
    cbn [List.length] in *. rewrite Nat2Z.inj_succ in *.
    replace (hi + 2 * Z.succ (Z.of_nat (List.length l)))
      with (hi + 2 + 2 * Z.of_nat (List.length l)) by lia.
    apply IH; [exact Hl'|lia|lia| | |]; apply sized_step; assumption || lia.
Qed.

(** In binary64 the similarity of two vectors of counts, of at most a
    hundred components, is a number: no sum overflows, so the
    divisor is neither zero nor infinite when the division is
    reached. *)
Lemma cosineSimilarity_number (vecA vecB : list float) :
  Forall (fun xy : float * float =>
            Spec.sized 11 (Prim2SF (fst xy)) /\ Spec.sized 11 (Prim2SF (snd xy)))
         (combine vecA vecB) ->
  (List.length (combine vecA vecB) <= 100)%nat ->
  PrimFloat.is_nan (cosineSimilarity vecA vecB) = false.
Proof.
  intros Hl Hlen. unfold cosineSimilarity, cosine_sums.
  destruct (negb _); [reflexivity|].
  pose proof (@sums_from_sized (combine vecA vecB) 76 (of_Z 0) (of_Z 0) (of_Z 0)
                Hl ltac:(lia) ltac:(lia) I I I) as Hsums.
  destruct (sums_from (of_Z 0, of_Z 0, of_Z 0) (combine vecA vecB))
    as [[d na] nb].
  destruct Hsums as (Hd & Hna & Hnb).
  apply (@sized_weaken _ 276) in Hd, Hna, Hnb; try lia.
  destruct (neqb na (of_Z 0) || neqb nb (of_Z 0)) eqn:Hguard; [reflexivity|].
  apply orb_false_elim in Hguard. destruct Hguard as [Ga Gb].
  apply (nonzero_of_neq _ Ga) in Hna as Na.
  apply (nonzero_of_neq _ Gb) in Hnb as Nb.
  change (PrimFloat.is_nan
            (PrimFloat.div d (PrimFloat.mul (PrimFloat.sqrt na) (PrimFloat.sqrt nb)))
          = false).
  apply number_not_nan. rewrite div_spec.
  destruct (@sized_sqrt 276 (Prim2SF na) (Prim2SF_valid na) Hna Na ltac:(lia))
    as [Hsa Nsa].
  destruct (@sized_sqrt 276 (Prim2SF nb) (Prim2SF_valid nb) Hnb Nb ltac:(lia))
    as [Hsb Nsb].
  rewrite <- sqrt_spec in Hsa, Nsa, Hsb, Nsb.
  destruct (@sized_mul (276 + 53) (Prim2SF (PrimFloat.sqrt na))
              (Prim2SF (PrimFloat.sqrt nb))
              (Prim2SF_valid _) (Prim2SF_valid _) Hsa Hsb ltac:(lia))
    as [Hden Nden].
  rewrite mul_spec.
  eapply div_number; [exact Hd | exact Hden | apply Nden; assumption].
Qed.

Lemma embedding_similarity_number (text1 text2 : string) :
  PrimFloat.is_nan (cosineSimilarity (T:=float) (createSimpleEmbedding text1)
                                     (createSimpleEmbedding text2)) = false.
Proof.
  apply cosineSimilarity_number; [apply embedding_sized|].
  rewrite length_combine, !CosineFacts.embedding_length. simpl. lia.
Qed.

End FloatRange.

Module CosineClaims.
Import JsString JsNumber JsValue Runtime Rag CosineFacts.

Lemma all_zero_repeat (l : list nat) :
  Forall (eq 0%nat) l -> l = repeat 0%nat (List.length l).
Proof.
  induction 1 as [|n l Hn _ IH]; simpl; [reflexivity|].
  rewrite <- Hn, <- IH. reflexivity.
Qed.

Lemma term_counts_length (text : string) : List.length (term_counts text) = 18%nat.
Proof. unfold term_counts. rewrite length_map. reflexivity. Qed.

(** An embedding without any recognised term is the zero vector. *)
Lemma zero_embedding {T} `{Number T} (text : string) :
  Forall (eq 0%nat) (term_counts text) ->
  createSimpleEmbedding (T:=T) text = repeat (of_Z 0) 18.
Proof.
  intros Hz. unfold createSimpleEmbedding.
  rewrite (all_zero_repeat Hz), term_counts_length. reflexivity.
Qed.

(** The shape of an embedding: eighteen numbers. *)
Lemma embedding_shape {T} `{Number T} (text : string) :
  exists a b c d e f g h i j k l m n o p q r,
    createSimpleEmbedding (T:=T) text
    = [a; b; c; d; e; f; g; h; i; j; k; l; m; n; o; p; q; r].
Proof. unfold createSimpleEmbedding, term_counts. simpl. repeat eexists. Qed.

Lemma cosine_zero_left_float (text : string) (vecB : list float) :
  Forall (eq 0%nat) (term_counts text) ->
  cosineSimilarity (createSimpleEmbedding text) vecB = PrimFloat.zero.
Proof.
  intros Hz. rewrite (zero_embedding Hz).
  unfold cosineSimilarity.
  destruct (negb (List.length (repeat (of_Z 0) 18) =? List.length vecB)) eqn:Hlen;
    [reflexivity|].
  apply negb_false_iff, Nat.eqb_eq in Hlen. rewrite repeat_length in Hlen.
  do 19 (destruct vecB as [|? vecB]; try discriminate Hlen).
  reflexivity.
Qed.

Lemma cosine_zero_right_float (vecA : list float) (text : string) :
  Forall (eq 0%nat) (term_counts text) ->
  cosineSimilarity vecA (createSimpleEmbedding text) = PrimFloat.zero.
Proof.
  intros Hz. rewrite (zero_embedding Hz).
  unfold cosineSimilarity.
  destruct (negb (List.length vecA =? List.length (repeat (of_Z 0) 18))) eqn:Hlen;
    [reflexivity|].
  apply negb_false_iff, Nat.eqb_eq in Hlen. rewrite repeat_length in Hlen.
  do 19 (destruct vecA as [|? vecA]; try discriminate Hlen).
  unfold cosine_sums. simpl.
  match goal with |- context [PrimFloat.eqb ?a ?b || _] =>
    destruct (PrimFloat.eqb a b) end; reflexivity.
Qed.

Local Open Scope R_scope.

Lemma sums_zero_left (l : list (R * R)) :
  forall d na nb,
    Forall (fun xy => fst xy = 0) l ->
    snd (fst (sums_from (T:=R) (d, na, nb) l)) = na.
Proof.
  induction l as [|[x y] l IH]; intros d na nb Hl; [reflexivity|].
  inversion Hl as [|? ? Hx Hl']; subst. simpl in Hx. subst x.
  change (sums_from (T:=R) (d, na, nb) ((0, y) :: l))
    with (sums_from (T:=R) (d + 0 * y, na + 0 * 0, nb + y * y) l).
  rewrite IH by exact Hl'. lra.
Qed.

Lemma sums_zero_right (l : list (R * R)) :
  forall d na nb,
    Forall (fun xy => snd xy = 0) l ->
    snd (sums_from (T:=R) (d, na, nb) l) = nb.
Proof.
  induction l as [|[x y] l IH]; intros d na nb Hl; [reflexivity|].
  inversion Hl as [|? ? Hy Hl']; subst. simpl in Hy. subst y.
  change (sums_from (T:=R) (d, na, nb) ((x, 0) :: l))
    with (sums_from (T:=R) (d + x * 0, na + x * x, nb + 0 * 0) l).
  rewrite IH by exact Hl'. lra.
Qed.

Lemma combine_zero_left (n : nat) (l : list R) :
  Forall (fun xy : R * R => fst xy = 0) (combine (repeat 0 n) l).
Proof.
  revert l. induction n as [|n IH]; intros [|y l]; simpl; constructor;
    [reflexivity | apply IH].
Qed.

Lemma combine_zero_right (l : list R) (n : nat) :
  Forall (fun xy : R * R => snd xy = 0) (combine l (repeat 0 n)).
Proof.
  revert n. induction l as [|x l IH]; intros [|n]; simpl; constructor;
    [reflexivity | apply IH].
Qed.

Lemma cosine_zero_left_exact (text : string) (vecB : list R) :
  Forall (eq 0%nat) (term_counts text) ->
  cosineSimilarity (createSimpleEmbedding text) vecB = 0.
Proof.
  intros Hz. rewrite (zero_embedding Hz).
  unfold cosineSimilarity.
  destruct (negb _); [reflexivity|].
  rewrite cosine_sums_from.
  pose proof (sums_zero_left 0 0 0 (combine_zero_left 18 vecB)) as Hna.
  simpl of_Z in *.
  destruct (sums_from (T:=R) (0, 0, 0) (combine (repeat 0 18) vecB)) as [[d na] nb].
  simpl in Hna. subst na. simpl neqb. unfold R_eqb at 1.
  destruct (Req_dec_T 0 0) as [_|Hne]; [reflexivity | exfalso; apply Hne; reflexivity].
Qed.

Lemma cosine_zero_right_exact (vecA : list R) (text : string) :
  Forall (eq 0%nat) (term_counts text) ->
  cosineSimilarity vecA (createSimpleEmbedding text) = 0.
Proof.
  intros Hz. rewrite (zero_embedding Hz).
  unfold cosineSimilarity.
  destruct (negb _); [reflexivity|].
  rewrite cosine_sums_from.
  pose proof (sums_zero_right 0 0 0 (combine_zero_right vecA 18)) as Hnb.
  simpl of_Z in *.
  destruct (sums_from (T:=R) (0, 0, 0) (combine vecA (repeat 0 18))) as [[d na] nb].
  simpl in Hnb. subst nb. simpl neqb. unfold R_eqb at 2.
  destruct (Req_dec_T 0 0) as [_|Hne]; [|exfalso; apply Hne; reflexivity].
  rewrite orb_true_r. reflexivity.
Qed.



Lemma no_terms_in_hello : Forall (eq 0%nat) (term_counts "hello world").
Proof. vm_compute. repeat constructor. Qed.


(** C10: two vectors of different lengths have similarity 0: the
    function returns before it reads a component, so nothing is raised
    and no other value can come out; in the ranking a stored chunk
    whose embedding has another length than the query's is scored 0. *)
Theorem C10_length_mismatch {T} `{Number T} (vecA vecB : list T) :
  List.length vecA <> List.length vecB ->
  cosineSimilarity vecA vecB = of_Z 0
  /\ forall (query : string) (store : list (string * Doc)) (key : string) (doc : Doc),
       vecA = createSimpleEmbedding query -> vecB = doc_embedding doc ->
       In (key, doc) store ->
       In (mkScored key (of_Z 0) (doc_content doc) (doc_metadata doc))
          (similarities query store).
Proof.
  intros Hlen.
  assert (Hcos : cosineSimilarity vecA vecB = of_Z 0).
  { unfold cosineSimilarity.
    destruct (List.length vecA =? List.length vecB)%nat eqn:E; [|reflexivity].
    apply Nat.eqb_eq in E. contradiction. }
  split; [exact Hcos|].
  intros query store key doc HA HB Hin. subst vecA vecB.
  unfold similarities. apply in_map_iff.
  exists (key, doc). split; [|exact Hin].
  simpl. rewrite Hcos. reflexivity.
Qed.

Lemma C10_length_mismatch_witness :
  List.length [1%float; 2%float] <> List.length [1%float]
  /\ cosineSimilarity [1%float; 2%float] [1%float] = PrimFloat.zero.
Proof.
  split.
  - simpl. lia.
  - refine (proj1 (C10_length_mismatch (T:=float) [1%float; 2%float] [1%float] _)).
    simpl. lia.
Defined.

End CosineClaims.

(** ** Retrieval: ranking and confidence *)

Module RetrievalFacts.
Import JsString JsNumber JsValue Runtime Rag.

Lemma map_set_Forall {V} (P : string * V -> Prop) (k : string) (v : V)
      (m : list (string * V)) :
  Forall P m -> P (k, v) -> Forall P (map_set k v m).
Proof.
  intros Hm Hkv. induction Hm as [|[k' v'] m Hx Hm IH]; simpl.
  - constructor; [exact Hkv | constructor].
  - destruct (String.eqb k k'); constructor; assumption.
Qed.

Section Run.
Context {T : Type} `{Number T} {host : Host}.

(** *** The store holds the embedding of each text *)

Lemma add_chunk_embedded (filename : string) (l : list (nat * string)) :
  forall chunks store,
    Spec.embedded store ->
    Spec.embedded (snd (fold_left (add_chunk filename) l (chunks, store))).
Proof.
  induction l as [|[index chunk] l IH]; intros chunks store Hall.
  - exact Hall.
  - cbn [fold_left]. unfold add_chunk at 2. apply IH.
    apply map_set_Forall; [exact Hall | reflexivity].
Qed.

Lemma add_file_embedded (chunkSize chunkOverlap : Z) (files : list (string * string)) :
  forall chunks store,
    Spec.embedded store ->
    Spec.embedded (snd (fold_left (add_file chunkSize chunkOverlap) files
                                  (chunks, store))).
Proof.
  induction files as [|[filename text] files IH]; intros chunks store Hall.
  - exact Hall.
  - cbn [fold_left]. unfold add_file at 2.
    pose proof (add_chunk_embedded filename
                  (combine (seq 0 (List.length (splitText text chunkSize chunkOverlap)))
                           (splitText text chunkSize chunkOverlap))
                  chunks Hall) as Hstep.
    destruct (fold_left (add_chunk filename) _ (chunks, store))
      as [chunks1 store1].
    apply IH. exact Hstep.
Qed.

(** Building the store keeps it so, and so does a query. *)
Lemma indexed_store_embedded (s : System) :
  Spec.embedded (vectorStore s) -> Spec.embedded (indexed_store s).
Proof.
  intros Hall. unfold indexed_store.
  destruct (List.length (vectorStore s) =? 0); [|exact Hall].
  apply add_file_embedded. exact Hall.
Qed.

Lemma initializeVectorStore_run (s : System) :
  exists s',
    initializeVectorStore s = (Ok tt, s')
    /\ vectorStore s'
       = snd (fold_left (add_file (or_default (RAG_CHUNK_SIZE (env s)) 1000)
                                  (or_default (RAG_CHUNK_OVERLAP (env s)) 200))
                        (knowledgeBase s) ([], vectorStore s))
    /\ knowledgeBase s' = knowledgeBase s /\ env s' = env s /\ model s' = model s.
Proof.
  unfold initializeVectorStore.
  destruct (fold_left _ (knowledgeBase s) ([], vectorStore s)) as [chunks store].
  eexists. split; [reflexivity|]. simpl. repeat split; reflexivity.
Qed.

(** A query never throws: it returns the context, the sources and
    the confidence of the list [results] over the indexed store, and
    leaves that store in the system. *)
Lemma queryKnowledge_run (query : string) (topK : Z) (s : System) :
  exists s',
    queryKnowledge query topK s
    = (Ok (mkKnowledge
             (join (nl ++ nl) (map content (results query topK (indexed_store s))))
             (map metadata (results query topK (indexed_store s)))
             (calculateConfidence (results query topK (indexed_store s)))),
       s')
    /\ vectorStore s' = indexed_store s
    /\ knowledgeBase s' = knowledgeBase s /\ env s' = env s /\ model s' = model s.
Proof.
  unfold queryKnowledge, try_catch, bind, indexed_store.
  destruct (List.length (vectorStore s) =? 0) eqn:Hempty.
  - destruct (initializeVectorStore_run s) as (s1 & Hrun & Hstore & Hkb & Henv & Hmodel).
    rewrite Hrun. simpl.
    eexists. split; [rewrite Hstore; reflexivity|]. simpl.
    rewrite Hkb, Henv, Hmodel. repeat split; reflexivity.
  - simpl. eexists. split; [reflexivity|]. simpl. repeat split; reflexivity.
Qed.

(** The indexed store depends on the corpus only, not on the query
    or on [topK]; a second query finds it in place. *)
Lemma indexed_store_stable (query : string) (topK : Z) (s : System) :
  List.length (indexed_store s) <> 0 ->
  indexed_store (snd (queryKnowledge query topK s)) = indexed_store s.
Proof.
  intros Hne.
  destruct (queryKnowledge_run query topK s) as (s' & Hrun & Hstore & _).
  rewrite Hrun. simpl. unfold indexed_store at 1. rewrite Hstore.
  destruct (List.length (indexed_store s) =? 0) eqn:E; [|reflexivity].
  apply Nat.eqb_eq in E. contradiction.
Qed.

(** *** The stable sort *)

Lemma sort_insert_length {A} (positive : A -> A -> bool) (x : A) (l : list A) :
  List.length (sort_insert positive x l) = S (List.length l).
Proof.
  induction l as [|y l IH]; simpl; [reflexivity|].
  destruct (positive x y); simpl; [rewrite IH|]; reflexivity.
Qed.

Lemma sort_length {A} (positive : A -> A -> bool) (l : list A) :
  List.length (sort positive l) = List.length l.
Proof.
  induction l as [|x l IH]; simpl; [reflexivity|].
  unfold sort in *. simpl. rewrite sort_insert_length, IH. reflexivity.
Qed.

Lemma sort_insert_perm {A} (positive : A -> A -> bool) (x : A) (l : list A) :
  Permutation (x :: l) (sort_insert positive x l).
Proof.
  induction l as [|y l IH]; simpl; [apply Permutation_refl|].
  destruct (positive x y); [|apply Permutation_refl].
  eapply perm_trans; [apply perm_swap|]. apply perm_skip. exact IH.
Qed.

Lemma sort_perm {A} (positive : A -> A -> bool) (l : list A) :
  Permutation l (sort positive l).
Proof.
  induction l as [|x l IH]; [apply perm_nil|].
  unfold sort in *. simpl.
  eapply perm_trans; [apply perm_skip; exact IH|]. apply sort_insert_perm.
Qed.

(** What [slice(0, topK)] keeps, for a count [topK]. *)
Lemma slice_to_firstn {A} (k : Z) (l : list A) :
  (0 <= k)%Z -> slice_to k l = firstn (Z.to_nat k) l.
Proof.
  intros Hk. unfold slice_to, rel_index.
  destruct (k <? 0)%Z eqn:E; [apply Z.ltb_lt in E; lia|].
  destruct (Nat.le_ge_cases (Z.to_nat k) (List.length l)) as [Hle|Hge].
  - rewrite Nat.min_l by exact Hle. reflexivity.
  - rewrite Nat.min_r by exact Hge.
    rewrite !firstn_all2; [reflexivity | exact Hge | apply Nat.le_refl].
Qed.

Lemma results_length (query : string) (k : Z) (store : list (string * Doc)) :
  (0 <= k)%Z ->
  List.length (results query k store) = Nat.min (Z.to_nat k) (List.length store).
Proof.
  intros Hk. unfold results. rewrite slice_to_firstn by exact Hk.
  rewrite length_firstn, sort_length. unfold similarities.
  rewrite length_map. reflexivity.
Qed.

(** What [slice(0, topK)] keeps for a negative [topK]: all but the
    last [- topK] entries. *)
Lemma results_length_negative (query : string) (k : Z)
      (store : list (string * Doc)) :
  (k < 0)%Z ->
  List.length (results query k store)
  = Z.to_nat (Z.max (Z.of_nat (List.length store) + k) 0).
Proof.
  intros Hk. unfold results, slice_to, rel_index.
  destruct (k <? 0)%Z eqn:E; [|apply Z.ltb_ge in E; lia].
  rewrite length_firstn, sort_length. unfold similarities.
  rewrite length_map. lia.
Qed.

Lemma firstn_prefix {A} (n m : nat) (l : list A) :
  n <= m -> firstn n l = firstn n (firstn m l).
Proof.
  intros Hnm. rewrite firstn_firstn. rewrite Nat.min_l by exact Hnm. reflexivity.
Qed.

Lemma results_prefix (query : string) (k : Z) (store : list (string * Doc)) :
  (0 <= k)%Z ->
  results query k store
  = firstn (Z.to_nat k) (results query (k + 1) store).
Proof.
  intros Hk. unfold results.
  rewrite !slice_to_firstn by lia.
  apply firstn_prefix. lia.
Qed.

End Run.

(** On numbers, the comparison function of the ranking is positive,
    and puts [a] after [b], exactly when the score of [a] is below the
    score of [b]. *)
Lemma by_similarity_ltb (a b : Scored (T:=float)) :
  PrimFloat.is_nan (similarity a) = false ->
  PrimFloat.is_nan (similarity b) = false ->
  by_similarity a b = PrimFloat.ltb (similarity a) (similarity b).
Proof.
  intros Ha Hb. unfold by_similarity.
  apply (FloatOrder.float_sub_sign _ _ Ha Hb).
Qed.

(** The scores of a store that holds the embedding of each text are
    numbers. *)
Lemma embedded_numbers (query : string) (store : list (string * Doc (T:=float))) :
  Spec.embedded store -> Spec.numbers (similarities query store) = true.
Proof.
  unfold Spec.embedded, Spec.numbers, similarities. intros Hall.
  apply forallb_forall. intros d Hd.
  apply in_map_iff in Hd. destruct Hd as ([key doc] & <- & Hin).
  rewrite Forall_forall in Hall. specialize (Hall _ Hin). cbn [snd] in Hall.
  cbn [similarity]. rewrite Hall.
  rewrite FloatRange.embedding_similarity_number. reflexivity.
Qed.

Lemma numbers_Forall (l : list (Scored (T:=float))) :
  Spec.numbers l = true ->
  Forall (fun d => PrimFloat.is_nan (similarity d) = false) l.
Proof.
  unfold Spec.numbers. intros Hall. apply Forall_forall. intros d Hd.
  rewrite forallb_forall in Hall. apply negb_true_iff, Hall. exact Hd.
Qed.

Lemma sort_insert_cons {A} (positive : A -> A -> bool) (x y : A) (l : list A) :
  sort_insert positive x (y :: l)
  = if positive x y then y :: sort_insert positive x l else x :: y :: l.
Proof. reflexivity. Qed.

Lemma sort_insert_sorted (x : Scored) (l : list Scored) :
  Forall (fun d => PrimFloat.is_nan (similarity d) = false) (x :: l) ->
  StronglySorted Spec.descending l ->
  StronglySorted Spec.descending (sort_insert by_similarity x l).
Proof.
  intros Hnum Hs. inversion Hnum as [|? ? Hx Hl]; subst. clear Hnum.
  induction Hs as [|y l Hsorted IH Hall].
  - constructor; constructor.
  - inversion Hl as [|? ? Hy Hl']; subst.
    rewrite sort_insert_cons, (by_similarity_ltb _ _ Hx Hy).
    destruct (PrimFloat.ltb (similarity x) (similarity y)) eqn:Hxy.
    + constructor; [apply IH; exact Hl'|].
      apply (Permutation_Forall (sort_insert_perm by_similarity x l)).
      constructor; [|exact Hall].
      apply FloatFacts.ltb_leb. exact Hxy.
    + assert (Hyx : PrimFloat.leb (similarity y) (similarity x) = true)
        by (apply FloatFacts.not_ltb_leb; assumption).
      constructor; [constructor; assumption|].
      constructor; [exact Hyx|].
      eapply Forall_impl; [|exact Hall].
      intros z Hz. unfold Spec.descending in *.
      eapply FloatOrder.float_leb_trans; [exact Hz | exact Hyx].
Qed.

Lemma sort_sorted (l : list Scored) :
  Forall (fun d => PrimFloat.is_nan (similarity d) = false) l ->
  StronglySorted Spec.descending (sort by_similarity l).
Proof.
  induction 1 as [|x l Hx Hl IH]; [constructor|].
  unfold sort in *. simpl. apply sort_insert_sorted; [|exact IH].
  constructor; [exact Hx|].
  apply (Permutation_Forall (sort_perm by_similarity l)). exact Hl.
Qed.

Lemma In_firstn {A} (n : nat) (l : list A) (y : A) :
  In y (firstn n l) -> In y l.
Proof.
  intros Hy. rewrite <- (firstn_skipn n l). apply in_or_app. left. exact Hy.
Qed.

Lemma firstn_sorted {A} (R : A -> A -> Prop) (n : nat) (l : list A) :
  StronglySorted R l -> StronglySorted R (firstn n l).
Proof.
  intros Hs. revert n. induction Hs as [|x l Hs IH Hall]; intros [|n]; simpl;
    try constructor.
  - apply IH.
  - apply Forall_forall. intros y Hy. apply In_firstn in Hy.
    rewrite Forall_forall in Hall. apply Hall. exact Hy.
Qed.

(** Stability: the sort moves an entry only past entries with a
    strictly larger score, so the entries of one score keep their
    order. *)
Lemma sort_insert_with_score (score : float) (x : Scored) (l : list Scored) :
  Forall (fun d => PrimFloat.is_nan (similarity d) = false) (x :: l) ->
  Spec.with_score score (sort_insert by_similarity x l)
  = Spec.with_score score (x :: l).
Proof.
  intros Hnum. inversion Hnum as [|? ? Hx Hl]; subst. clear Hnum.
  unfold Spec.with_score.
  induction Hl as [|y l Hy Hl IH]; [reflexivity|].
  rewrite sort_insert_cons, (by_similarity_ltb _ _ Hx Hy).
  destruct (PrimFloat.ltb (similarity x) (similarity y)) eqn:Hxy; [|reflexivity].
  simpl filter in *. rewrite IH.
  destruct (PrimFloat.eqb (similarity x) score) eqn:Ex;
    destruct (PrimFloat.eqb (similarity y) score) eqn:Ey; try reflexivity.
  rewrite (FloatOrder.float_eqb_not_ltb Ex Ey) in Hxy. discriminate Hxy.
Qed.

Lemma sort_with_score (score : float) (l : list Scored) :
  Forall (fun d => PrimFloat.is_nan (similarity d) = false) l ->
  Spec.with_score score (sort by_similarity l) = Spec.with_score score l.
Proof.
  induction 1 as [|x l Hx Hl IH]; [reflexivity|].
  unfold sort in *. simpl fold_right. rewrite sort_insert_with_score.
  - unfold Spec.with_score in *. simpl. rewrite IH. reflexivity.
  - constructor; [exact Hx|].
    apply (Permutation_Forall (sort_perm by_similarity l)). exact Hl.
Qed.

Lemma filter_firstn_prefix {A} (p : A -> bool) (n : nat) (l : list A) :
  Spec.prefix (filter p (firstn n l)) (filter p l).
Proof.
  exists (filter p (skipn n l)).
  rewrite <- filter_app, firstn_skipn. reflexivity.
Qed.

Local Open Scope R_scope.

Lemma fold_left_sum (l : list Scored) (acc : R) :
  fold_left (fun sum r => sum + similarity r) l acc
  = acc + fold_right Rplus 0 (map similarity l).
Proof.
  revert acc. induction l as [|x l IH]; intros acc; simpl; [lra|].
  rewrite IH. lra.
Qed.

Lemma calculateConfidence_nonempty (res : list Scored) :
  res <> [] ->
  calculateConfidence (T:=R) res
  = Rmin 0.95 (Rmax 0.1 (Spec.mean (map similarity res))).
Proof.
  intros Hne. unfold calculateConfidence.
  destruct (List.length res =? 0)%nat eqn:E.
  { apply Nat.eqb_eq in E. destruct res; [contradiction | discriminate E]. }
  change (Rmin 0.95
            (Rmax 0.1
               (fold_left (fun sum r => sum + similarity r) res 0
                / IZR (Z.of_nat (List.length res))))
          = Rmin 0.95 (Rmax 0.1 (Spec.mean (map similarity res)))).
  unfold Spec.mean.
  rewrite fold_left_sum, Rplus_0_l, length_map, INR_IZR_INZ. reflexivity.
Qed.

Lemma clamp_bounds (x : R) : 0.1 <= Rmin 0.95 (Rmax 0.1 x) <= 0.95.
Proof.
  unfold Rmin, Rmax.
  destruct (Rle_dec 0.1 x); destruct (Rle_dec 0.95 _); lra.
Qed.

End RetrievalFacts.

Module RetrievalClaims.
Import JsString JsNumber JsValue Runtime Rag ExampleHost RetrievalFacts FloatFacts.


(** The mean as the code computes it in binary64. *)
Lemma calculateConfidence_float (res : list (Scored (T:=float))) :
  res <> [] ->
  calculateConfidence res
  = float_min (of_Q 0.95%Q)
      (float_max (of_Q 0.1%Q)
         (PrimFloat.div
            (fold_left (fun sum r => PrimFloat.add sum (similarity r)) res PrimFloat.zero)
            (float_of_Z (Z.of_nat (List.length res))))).
Proof.
  intros Hne. unfold calculateConfidence.
  destruct (List.length res =? 0)%nat eqn:E; [|reflexivity].
  apply Nat.eqb_eq in E. destruct res; [contradiction | discriminate E].
Qed.






End RetrievalClaims.

(** ** Chunking *)

Module ChunkFacts.
Import JsString JsNumber JsValue Runtime Rag.

Lemma length_append (a b : string) :
  String.length (a ++ b) = String.length a + String.length b.
Proof. induction a as [|c a IH]; simpl; [reflexivity | rewrite IH; reflexivity]. Qed.

(** The pieces of a split, with one separator between two of them, fit
    in the text. *)
Lemma split_runs_weight (sep : ascii -> bool) (s : string) :
  forall acc in_run,
    Spec.total_length (split_runs sep acc in_run s)
    + List.length (split_runs sep acc in_run s)
    <= String.length acc + String.length s + 1.
Proof.
  induction s as [|c s IH]; intros acc in_run; simpl.
  - lia.
  - destruct (sep c).
    + destruct in_run.
      * specialize (IH EmptyString true). simpl in IH. lia.
      * specialize (IH EmptyString true). simpl in *. lia.
    + specialize (IH (acc ++ String c EmptyString)%string false).
      rewrite length_append in IH. simpl in IH. lia.
Qed.

Lemma filter_weight (p : string -> bool) (l : list string) :
  Spec.total_length (filter p l) + List.length (filter p l)
  <= Spec.total_length l + List.length l.
Proof.
  induction l as [|x l IH]; simpl; [lia|].
  destruct (p x); simpl; lia.
Qed.

Lemma sentences_weight (text : string) :
  Spec.total_length (sentences text) + List.length (sentences text)
  <= String.length text + 1.
Proof.
  unfold sentences.
  eapply Nat.le_trans; [apply filter_weight|].
  unfold split_regex_class.
  pose proof (split_runs_weight is_sentence_end text EmptyString false) as Hw.
  simpl in Hw. exact Hw.
Qed.

(** *** White space and trimming *)

Lemma has_ink_rev_onto (s acc : string) :
  Spec.has_ink (rev_onto s acc) = Spec.has_ink s || Spec.has_ink acc.
Proof.
  revert acc. induction s as [|c s IH]; intros acc; simpl; [reflexivity|].
  rewrite IH. simpl. destruct (is_space c), (Spec.has_ink s); reflexivity.
Qed.

Lemma has_ink_drop_while (s : string) :
  Spec.has_ink (drop_while is_space s) = Spec.has_ink s.
Proof.
  induction s as [|c s IH]; simpl; [reflexivity|].
  destruct (is_space c) eqn:Hc; simpl; [exact IH | rewrite Hc; reflexivity].
Qed.

Lemma nonempty_drop_while (s : string) :
  nonempty (drop_while is_space s) = Spec.has_ink s.
Proof.
  induction s as [|c s IH]; simpl; [reflexivity|].
  destruct (is_space c); simpl; [exact IH | reflexivity].
Qed.

Lemma nonempty_rev_onto (s acc : string) :
  nonempty (rev_onto s acc) = nonempty s || nonempty acc.
Proof.
  revert acc. induction s as [|c s IH]; intros acc; simpl; [reflexivity|].
  rewrite IH. simpl. apply orb_true_r.
Qed.

(** A text trims to something exactly when it is not blank. *)
Lemma nonempty_trim (s : string) : nonempty (trim s) = Spec.has_ink s.
Proof.
  unfold trim, trimEnd, trimStart, rev.
  rewrite nonempty_rev_onto, orb_false_r, nonempty_drop_while.
  rewrite has_ink_rev_onto, orb_false_r. apply has_ink_drop_while.
Qed.

Lemma trim_length_positive (s : string) :
  (0 <? String.length (trim s)) = nonempty (trim s).
Proof. destruct (trim s); reflexivity. Qed.

Lemma has_ink_append (a b : string) :
  Spec.has_ink (a ++ b) = Spec.has_ink a || Spec.has_ink b.
Proof.
  induction a as [|c a IH]; simpl; [reflexivity|].
  rewrite IH. apply orb_assoc.
Qed.

(** Every sentence kept by the filter has ink. *)
Lemma sentences_ink (text : string) :
  Forall (fun s => Spec.has_ink s = true) (sentences text).
Proof.
  unfold sentences. apply Forall_forall. intros s Hs.
  apply filter_In in Hs. destruct Hs as [_ Hs].
  rewrite trim_length_positive, nonempty_trim in Hs. exact Hs.
Qed.

(** *** The loop when nothing is closed *)

Lemma extend_length (cur s : string) :
  String.length (extend cur s) <= String.length cur + 1 + String.length s.
Proof.
  unfold extend. rewrite !length_append. destruct (nonempty cur); simpl; lia.
Qed.

Lemma extend_ink (cur s : string) :
  Spec.has_ink cur = true \/ Spec.has_ink s = true ->
  Spec.has_ink (extend cur s) = true.
Proof.
  unfold extend. rewrite !has_ink_append. intros [H|H]; rewrite H.
  - reflexivity.
  - rewrite !orb_true_r. reflexivity.
Qed.

Lemma fold_extend_ink (l : list string) (cur : string) :
  Spec.has_ink cur = true -> Spec.has_ink (fold_left extend l cur) = true.
Proof.
  revert cur. induction l as [|s l IH]; intros cur Hcur; simpl; [exact Hcur|].
  apply IH, extend_ink. left. exact Hcur.
Qed.

(** As long as the text read so far and what is left to read fit in
    [chunkSize], no chunk is closed. *)
Lemma no_closure (chunkSize chunkOverlap : Z) (l : list string) :
  forall chunks cur,
    (Z.of_nat (String.length cur + Spec.total_length l + List.length l)
     <= chunkSize + 1)%Z ->
    fold_left (splitText_step chunkSize chunkOverlap) l (chunks, cur)
    = (chunks, fold_left extend l cur).
Proof.
  induction l as [|s l IH]; intros chunks cur Hfit; [reflexivity|].
  cbn [fold_left]. simpl in Hfit.
  assert (Hstep : splitText_step chunkSize chunkOverlap (chunks, cur) s
                  = (chunks, extend cur s)).
  { unfold splitText_step.
    destruct (Z.of_nat (String.length (cur ++ s)) >? chunkSize)%Z eqn:Hgt;
      [|reflexivity].
    rewrite length_append in Hgt. apply Z.gtb_lt in Hgt. lia. }
  rewrite Hstep. apply IH.
  pose proof (extend_length cur s). lia.
Qed.

(** *** The overlap *)

Lemma overlapWords_last (currentChunk : string) (chunkOverlap : Z) :
  (1 <= chunkOverlap / 10)%Z ->
  overlapWords currentChunk chunkOverlap
  = Spec.last_n (Z.to_nat (chunkOverlap / 10)) (split_char " " currentChunk).
Proof.
  intros Hn. unfold overlapWords, slice_from, rel_index, Spec.last_n.
  destruct (- (chunkOverlap / 10) <? 0)%Z eqn:E; [|apply Z.ltb_ge in E; lia].
  f_equal. lia.
Qed.

End ChunkFacts.

Module ChunkClaims.
Import JsString JsNumber JsValue Runtime Rag ChunkFacts.




End ChunkClaims.

(** ** Dispatch and the query orchestrator *)

Module DispatchFacts.
Import JsString JsNumber JsValue Runtime Rag RetrievalFacts.

Lemma existsb_not_In (name : string) (l : list string) :
  ~ In name l -> existsb (String.eqb name) l = false.
Proof.
  intros Hnot. destruct (existsb (String.eqb name) l) eqn:E; [|reflexivity].
  apply existsb_exists in E. destruct E as (x & Hx & Heq).
  apply String.eqb_eq in Heq. subst x. contradiction.
Qed.

Lemma literal_get_own {A} (own : list (string * A)) (name : string) (a : A) :
  assoc own name = Some a -> literal_get own name = Own a.
Proof. unfold literal_get. intros ->. reflexivity. Qed.

Lemma literal_get_undefined {A} (own : list (string * A)) (name : string) :
  assoc own name = None -> ~ In name object_prototype_names ->
  literal_get own name = Undefined.
Proof.
  unfold literal_get. intros -> Hnot. rewrite (existsb_not_In _ _ Hnot). reflexivity.
Qed.

Lemma assoc_not_key {A} (own : list (string * A)) (name : string) :
  ~ In name (map fst own) -> assoc own name = None.
Proof.
  induction own as [|[k a] own IH]; simpl; intros Hnot; [reflexivity|].
  destruct (String.eqb k name) eqn:E.
  - apply String.eqb_eq in E. exfalso. apply Hnot. left. exact E.
  - apply IH. intros Hin. apply Hnot. right. exact Hin.
Qed.

Lemma assoc_some_or_none {A} (own : list (string * A)) (name : string) :
  (exists a, assoc own name = Some a) \/ assoc own name = None.
Proof. destruct (assoc own name); [left; eexists; reflexivity | right; reflexivity]. Qed.

Lemma agents_get_specialization (a : AgentKind) :
  agents_get (specialization a) = Own a.
Proof. destruct a; reflexivity. Qed.

Section Orchestrator.
Context {T : Type} `{Number T} {host : Host}.

(** An unknown agent type stops the query before anything is
    retrieved. *)
Lemma processQuery_unknown (query name : string) (s : System (T:=T)) :
  agents_get name = Undefined ->
  fst (processQuery query (Some name) s)
  = Throw (Error ("Unknown agent type: " ++ name)).
Proof.
  intros Hget. unfold processQuery, try_catch, bind. rewrite Hget. reflexivity.
Qed.

(** When the call of the model fails, the agent logs the error and
    throws it again. *)
Lemma agent_processQuery_fails (a : AgentKind) (query : string)
      (knowledge : Knowledge (T:=T)) (s : System (T:=T)) (e : Exn) :
  Spec.failure
    (model s [ mkMessage "system" (getSystemPrompt a);
               mkMessage "user" (buildPrompt query (context knowledge)) ])
  = Some e ->
  agent_processQuery a query knowledge s
  = (Throw e,
     set_world (mkWorld (clock (world s)) (reads (world s))
                        (logged (world s)
                         ++ [mkLog "error" ("Error in " ++ specialization a
                                            ++ " agent: " ++ exn_message e)]))
               s).
Proof.
  intros Hfail. unfold agent_processQuery, try_catch.
  destruct (model s _); simpl in Hfail; try discriminate;
    injection Hfail as <-; reflexivity.
Qed.

Lemma processQuery_fails (a : AgentKind) (query : string) (s : System (T:=T)) (e : Exn) :
  Spec.failure (model s (Spec.sent_messages a query s)) = Some e ->
  exists s' : System (T:=T),
    processQuery query (Some (specialization a)) s = (Throw e, s')
    /\ exists earlier,
        logged (world s')
        = earlier
            ++ [ mkLog "error" ("Error in " ++ specialization a ++ " agent: "
                                ++ exn_message e);
                 mkLog "error" ("Error processing query: " ++ exn_message e) ].
Proof.
  intros Hfail. unfold processQuery.
  rewrite agents_get_specialization.
  unfold try_catch at 1. unfold bind at 1. unfold ret at 1. unfold bind at 1.
  destruct (queryKnowledge_run query 5 s) as (s1 & Hrun & _ & _ & _ & Hmodel).
  rewrite Hrun.
  unfold bind at 1.
  erewrite agent_processQuery_fails
    by (rewrite Hmodel; exact Hfail).
  eexists. split; [reflexivity|].
  simpl. eexists. rewrite <- app_assoc. reflexivity.
Qed.

End Orchestrator.
End DispatchFacts.

Module DispatchClaims.
Import JsString JsNumber JsValue Runtime Rag ExampleHost DispatchFacts.

(** C1, as the code runs: a question put to the packaging agent while
    the language model fails ends in that very error, thrown to the
    caller; no answer and no confidence are returned. *)
Lemma C1_failure_is_thrown :
  fst (processQuery (T:=float) (host:=utc_host)
                    "What is our recycled content target?" (Some "packaging")
                    (demo_system (T:=float)))
  = Throw (Error "deadline exceeded").
Proof. vm_compute. reflexivity. Qed.

(** C1, amended: for every question and each of the four agents, if
    the call of the language model that [processQuery] makes fails (it
    is rejected, or its response is malformed), [processQuery] does
    not return: it throws the error of that call to its caller, after
    the agent and the orchestrator have each logged it.  Nothing is
    asked of the model on other messages than the ones sent. *)
Theorem C1_failure_propagates {T : Type} `{Number T} {host : Host}
        (a : AgentKind) (query : string) (s : System (T:=T)) (e : Exn) :
  Spec.failure (model s (Spec.sent_messages a query s)) = Some e ->
  exists s' : System (T:=T),
    processQuery query (Some (specialization a)) s = (Throw e, s')
    /\ exists earlier,
        logged (world s')
        = earlier
            ++ [ mkLog "error" ("Error in " ++ specialization a ++ " agent: "
                                ++ exn_message e);
                 mkLog "error" ("Error processing query: " ++ exn_message e) ].
Proof. apply processQuery_fails. Qed.

(** A model that fails on long prompts only: it rejects the prompt of
    the question, which carries the context retrieved, and would
    answer a short one. *)
Lemma C1_failure_propagates_witness :
  let s := Scenarios.limited_system (T:=float) in
  model s [mkMessage "user" "Hello"] = Generated "Hello!" (Some 2)
  /\ Spec.failure
       (model s (Spec.sent_messages (host:=utc_host) Packaging
                   "What is our recycled content target?" s))
     = Some (Error "prompt too long")
  /\ exists s',
      processQuery (T:=float) (host:=utc_host)
                   "What is our recycled content target?" (Some "packaging") s
      = (Throw (Error "prompt too long"), s').
Proof.
  cbv zeta.
  assert (Hfail : Spec.failure
                    (model (Scenarios.limited_system (T:=float))
                           (Spec.sent_messages
                              (host:=utc_host) Packaging
                              "What is our recycled content target?"
                              (Scenarios.limited_system (T:=float))))
                  = Some (Error "prompt too long"))
    by (vm_compute; reflexivity).
  split; [reflexivity|]. split; [exact Hfail|].
  destruct (C1_failure_propagates (T:=float) (host:=utc_host) Packaging
              "What is our recycled content target?"
              (Scenarios.limited_system (T:=float)) Hfail)
    as (s' & Hrun & _).
  exists s'. exact Hrun.
Defined.

(** C2, as the code runs: a question without an agent type is not
    routed to the packaging agent, it fails on the default type
    [general]; and the analysis map answers the analysis type
    [constructor] with a member of [Object.prototype], which is none of
    the four agents. *)
Lemma C2_no_default_agent :
  fst (processQuery (T:=float) (host:=utc_host)
                    "General sustainability question" None (demo_system (T:=float)))
  = Throw (Error "Unknown agent type: general")
  /\ getAgentForAnalysis "constructor" = Inherited "constructor".
Proof. split; vm_compute; reflexivity. Qed.

(** C2, amended: the query text plays no part in the choice of an
    agent.  For a name that is not a member of [Object.prototype]:
    [getAgentForAnalysis] returns one of the four agents, and the
    packaging agent whenever the name is not one of the keys
    [packaging], [emissions], [supply_chain], [regulatory];
    [processQuery] uses exactly the agent a specialization names, and
    for any other name fails with [Unknown agent type]. *)
Theorem C2_routing {T : Type} `{Number T} {host : Host} (name : string) :
  ~ In name object_prototype_names ->
  (exists a, getAgentForAnalysis name = Own a)
  /\ (~ In name Spec.analysis_types -> getAgentForAnalysis name = Own Packaging)
  /\ (forall a, agents_get (specialization a) = Own a)
  /\ (~ In name Spec.specializations ->
      agents_get name = Undefined
      /\ forall (query : string) (s : System (T:=T)),
          fst (processQuery query (Some name) s)
          = Throw (Error ("Unknown agent type: " ++ name))).
Proof.
  intros Hproto.
  split; [|split; [|split]].
  - unfold getAgentForAnalysis, agentMap_get.
    match goal with |- context [literal_get ?own name] =>
      destruct (assoc_some_or_none own name) as [[a Ha]|Hnone];
        [rewrite (@literal_get_own _ _ _ _ Ha); exists a; reflexivity
        |rewrite (@literal_get_undefined _ _ _ Hnone Hproto); exists Packaging; reflexivity]
    end.
  - intros Hkey. unfold getAgentForAnalysis, agentMap_get.
    rewrite literal_get_undefined; [reflexivity | | exact Hproto].
    apply assoc_not_key. exact Hkey.
  - apply agents_get_specialization.
  - intros Hspec.
    assert (Hget : agents_get name = Undefined).
    { unfold agents_get. apply literal_get_undefined; [|exact Hproto].
      apply assoc_not_key. exact Hspec. }
    split; [exact Hget|].
    intros query s. apply processQuery_unknown. exact Hget.
Qed.

Lemma C2_routing_witness :
  ~ In "general" object_prototype_names
  /\ getAgentForAnalysis "general" = Own Packaging.
Proof.
  assert (Hproto : ~ In "general" object_prototype_names).
  { simpl. intros Hin.
    repeat (destruct Hin as [Hin|Hin]; [discriminate Hin|]). exact Hin. }
  split; [exact Hproto|].
  refine (proj1 (proj2 (C2_routing (T:=float) (host:=utc_host) Hproto)) _).
  simpl. intros Hin.
  repeat (destruct Hin as [Hin|Hin]; [discriminate Hin|]). exact Hin.
Defined.

End DispatchClaims.

(** ** The agents: what a call depends on *)

Module AgentFacts.
Import JsString JsNumber JsValue Runtime Agents.
Local Open Scope js_scope.

#[export] Instance any_world_stable : Spec.Stable Spec.any_world.
Proof. split; intros; exact I. Qed.

#[export] Instance same_clock_stable : Spec.Stable Spec.same_clock.
Proof.
  split; unfold Spec.same_clock; simpl; intros w1 w2.
  - intros _ _ Hc n. apply Hc.
  - intros Hc n. specialize (Hc (S n)). rewrite !Nat.add_succ_r in Hc. exact Hc.
Qed.

#[export] Instance same_year_stable {host : Host} : Spec.Stable Spec.same_year.
Proof.
  split; unfold Spec.same_year; simpl; intros w1 w2.
  - intros _ _ Hc n. apply Hc.
  - intros Hc n. specialize (Hc (S n)). rewrite !Nat.add_succ_r in Hc. exact Hc.
Qed.

Section Respects.
Context {host : Host} (R : World -> World -> Prop) {stable : Spec.Stable R}.

Lemma respects_ret {A B} (f : A -> B) (a : A) : Spec.respects R f (ret a).
Proof. intros w1 w2 HR. split; [reflexivity | exact HR]. Qed.

Lemma respects_throw {A B} (f : A -> B) (e : Exn) : Spec.respects R f (throw e).
Proof. intros w1 w2 HR. split; [reflexivity | exact HR]. Qed.

Lemma outcome_id {A} (r : Result A) : Spec.outcome (fun a => a) r = r.
Proof. destruct r; reflexivity. Qed.

Lemma respects_bind {A B C} (f : B -> C) (m : M World A) (k : A -> M World B) :
  Spec.respects R (fun a => a) m -> (forall a, Spec.respects R f (k a)) ->
  Spec.respects R f (bind m k).
Proof.
  intros Hm Hk w1 w2 HR. unfold bind.
  destruct (Hm w1 w2 HR) as [Hres HR']. rewrite !outcome_id in Hres.
  destruct (m w1) as [r1 w1'], (m w2) as [r2 w2']. simpl in *. subst r2.
  destruct r1 as [a|e]; [apply Hk; exact HR'|].
  split; [reflexivity | exact HR'].
Qed.

Lemma respects_try_catch {A B} (f : A -> B) (m : M World A) (h : Exn -> M World A) :
  Spec.respects R f m -> (forall e, Spec.respects R f (h e)) ->
  Spec.respects R f (try_catch m h).
Proof.
  intros Hm Hh w1 w2 HR. unfold try_catch.
  destruct (Hm w1 w2 HR) as [Hres HR'].
  destruct (m w1) as [r1 w1'], (m w2) as [r2 w2']. simpl in *.
  destruct r1 as [a1|e1], r2 as [a2|e2]; simpl in Hres; try discriminate.
  - split; [exact Hres | exact HR'].
  - injection Hres as <-. apply Hh. exact HR'.
Qed.

Lemma respects_logger {B} (f : unit -> B) (level msg : string) :
  Spec.respects R f (logger level msg).
Proof.
  intros w1 w2 HR. split; [reflexivity|].
  unfold logger. simpl. apply Spec.stable_log. exact HR.
Qed.

(** A view that forgets what was read makes a reading of the clock
    harmless. *)
Lemma respects_forget {A B C} (f : B -> C) (m : M World A) (g : A -> B) :
  Spec.respects R (fun _ => tt) m -> (forall a1 a2, f (g a1) = f (g a2)) ->
  Spec.respects R f (bind m (fun a => ret (g a))).
Proof.
  intros Hm Hg w1 w2 HR. unfold bind, ret.
  destruct (Hm w1 w2 HR) as [Hres HR'].
  destruct (m w1) as [r1 w1'], (m w2) as [r2 w2']. simpl in *.
  destruct r1 as [a1|e1], r2 as [a2|e2]; simpl in *; try discriminate.
  - split; [f_equal; apply Hg | exact HR'].
  - injection Hres as <-. split; [reflexivity | exact HR'].
Qed.

Lemma respects_timestamp_now : Spec.respects R (fun _ => tt) timestamp_now.
Proof.
  intros w1 w2 HR. unfold timestamp_now, bind, new_Date, ret. simpl.
  split; [reflexivity | apply Spec.stable_tick; exact HR].
Qed.

Lemma respects_every_field (r : record) (fields : list string) :
  Spec.respects R (fun b : bool => b) (every_field r fields).
Proof.
  induction fields as [|field rest IH]; simpl.
  - apply respects_ret.
  - destruct (has_own r "hasOwnProperty"); [apply respects_throw|].
    destruct (has_own r field && _); [exact IH|].
    apply respects_bind; [apply respects_logger | intros; apply respects_ret].
Qed.

Lemma respects_validateData (d : data) (fields : list string) :
  Spec.respects R (fun b : bool => b) (validateData d fields).
Proof.
  destruct d; simpl; [apply respects_ret | apply respects_every_field].
Qed.

Lemma respects_toLocaleString (v : value) :
  Spec.respects R (fun s : string => s) (toLocaleString v).
Proof.
  destruct v as [| |[|]| |]; simpl; try apply respects_ret; apply respects_throw.
Qed.

Lemma respects_split_commas (what : string) (v : value) :
  Spec.respects R (fun l : list string => l) (split_commas what v).
Proof. destruct v; simpl; try apply respects_ret; apply respects_throw. Qed.

Lemma respects_lower (what : string) (v : value) :
  Spec.respects R (fun s : string => s) (lower what v).
Proof. destruct v; simpl; try apply respects_ret; apply respects_throw. Qed.

End Respects.

Lemma respects_new_Date :
  Spec.respects Spec.same_clock (fun t : float => t) new_Date.
Proof.
  intros w1 w2 HR. unfold new_Date. simpl. split.
  - f_equal. specialize (HR 0). rewrite !Nat.add_0_r in HR. exact HR.
  - apply (Spec.stable_tick (R:=Spec.same_clock)). exact HR.
Qed.

Lemma respects_current_year {host : Host} :
  Spec.respects Spec.same_year (fun y : float => y) current_year.
Proof.
  intros w1 w2 HR. unfold current_year, bind, new_Date, ret. simpl. split.
  - f_equal. specialize (HR 0). rewrite !Nat.add_0_r in HR. exact HR.
  - apply (Spec.stable_tick (R:=Spec.same_year)). exact HR.
Qed.

(** One step of a proof that a computation respects a relation. *)
Ltac respect_step :=
  match goal with
  | |- forall _, _ => intro
  | |- Spec.Stable _ => typeclasses eauto
  | |- Spec.respects _ _ (ret _) => apply respects_ret
  | |- Spec.respects _ _ (throw _) => apply respects_throw
  | |- Spec.respects _ _ (logger _ _) => apply respects_logger
  | |- Spec.respects _ _ (validateData _ _) => apply respects_validateData
  | |- Spec.respects _ _ (toLocaleString _) => apply respects_toLocaleString
  | |- Spec.respects _ _ (split_commas _ _) => apply respects_split_commas
  | |- Spec.respects _ _ (lower _ _) => apply respects_lower
  | |- Spec.respects _ _ new_Date => apply respects_new_Date
  | |- Spec.respects _ _ current_year => apply respects_current_year
  | |- Spec.respects _ _ (calculateDaysToDeadline _) => unfold calculateDaysToDeadline
  | |- Spec.respects _ _ (findRegulation _ _) => unfold findRegulation
  | |- Spec.respects _ _ (bind timestamp_now (fun _ => ret _)) =>
      apply respects_forget; [apply respects_timestamp_now | intros; reflexivity]
  | |- Spec.respects _ _ (try_catch _ _) => apply respects_try_catch
  | |- Spec.respects _ _ (bind _ _) => apply respects_bind
  | |- Spec.respects _ _ (if ?c then _ else _) => destruct c
  | |- Spec.respects _ _ (match ?x with _ => _ end) => destruct x
  end.

Ltac respect := repeat respect_step.

Section Agents.
Context {host : Host}.

Lemma respects_packaging (R : World -> World -> Prop) {stable : Spec.Stable R} (d : data) :
  Spec.respects R Spec.untimed_packaging (generateInsights_packaging d).
Proof.
  unfold generateInsights_packaging, analyzePackagingPerformance. respect.
Qed.

Lemma respects_supplyChain (R : World -> World -> Prop) {stable : Spec.Stable R}
      (d : data) :
  Spec.respects R Spec.untimed_supplyChain (generateInsights_supplyChain d).
Proof.
  unfold generateInsights_supplyChain, analyzeSupplierPerformance,
    calculateSupplyChainKPIs.
  respect.
Qed.

Lemma respects_emission (d : data) :
  Spec.respects Spec.same_year Spec.untimed_emission (generateInsights_emission d).
Proof.
  unfold generateInsights_emission, calculateEmissionKPIs,
    calculateEmissionProjections.
  respect.
Qed.

Lemma respects_regulatory (d : data) :
  Spec.respects Spec.same_clock Spec.untimed_regulatory (generateInsights_regulatory d).
Proof.
  unfold generateInsights_regulatory, analyzeComplianceStatus,
    calculateComplianceKPIs, assessRegulatoryRisk.
  respect.
Qed.

End Agents.
End AgentFacts.


Module EmissionFacts.
Import JsString JsNumber JsValue Runtime Agents.
Local Open Scope js_scope.
Local Open Scope float_scope.

Section Run.
Context {host : Host}.

(** The KPI computation always returns, and its reduction progress is
    the reduction of the record when baseline and value are given. *)
Lemma calculateEmissionKPIs_runs (r : record) (w : World) :
  exists k w',
    calculateEmissionKPIs r w = (Ok k, w')
    /\ reductionProgress k
       = if truthy (get r "baseline") && truthy (get r "value")
         then Some (reduction r) else None.
Proof.
  unfold calculateEmissionKPIs, current_year, bind, new_Date, ret.
  destruct (truthy (get r "baseline") && truthy (get r "value"));
    simpl; eexists; eexists; split; reflexivity.
Qed.

Lemma calculateEmissionProjections_runs (r : record) (w : World) :
  exists p w', calculateEmissionProjections r w = (Ok p, w').
Proof.
  unfold calculateEmissionProjections, current_year, bind, new_Date, ret.
  simpl.
  match goal with
  | |- context [if ?c then _ else _] => destruct c
  end; eexists; eexists; reflexivity.
Qed.

(** A valid record is analysed: the insights carry the KPIs and the
    scope analysis of the record. *)
Lemma generateInsights_emission_valid (r : record) (w : World) :
  validateData (DObject r) ["source"; "value"; "unit"] w = (Ok true, w) ->
  exists i w',
    generateInsights_emission (DObject r) w = (Ok i, w')
    /\ reductionProgress (e_kpis i)
       = (if truthy (get r "baseline") && truthy (get r "value")
          then Some (reduction r) else None)
    /\ scopeAnalysis i = scopeSpecific (analyzeEmissionPerformance r).
Proof.
  intros Hvalid.
  unfold generateInsights_emission, try_catch, bind.
  rewrite Hvalid.
  destruct (calculateEmissionKPIs_runs r w) as (k & w1 & Hk & Hprogress).
  rewrite Hk.
  destruct (calculateEmissionProjections_runs r w1) as (p & w2 & Hp).
  rewrite Hp.
  unfold logger, timestamp_now, bind, new_Date, ret. cbn [fst snd].
  eexists. eexists. split; [reflexivity|].
  split; [exact Hprogress | reflexivity].
Qed.
End Run.
End EmissionFacts.

Module AgentClaims.
Import JsString JsNumber JsValue Runtime Agents ExampleHost AgentFacts.
Local Open Scope float_scope.

(** C6, as the code runs: the packaging agent rejects the empty record
    with a plain [Error] whose message is fixed and contains the name
    of neither required field. *)
Lemma C6_message_names_no_field :
  fst (generateInsights_packaging (host:=utc_host) (DObject []) (world_at 0))
  = Throw (mkExn "Error" "Invalid packaging data provided")
  /\ includes "Invalid packaging data provided" "material" = false
  /\ includes "Invalid packaging data provided" "region" = false.
Proof. repeat split; vm_compute; reflexivity. Qed.

(** C6, amended: each of the four agents rejects the empty record: it
    throws an [Error] (the class [Error] itself) whose message says
    which kind of data is invalid, without naming a field; the first
    missing required field is named in a warning written to the log;
    and no insight is produced. *)
Theorem C6_empty_record_rejected {host : Host} (w : World) :
  generateInsights_packaging (DObject []) w
  = (Throw (mkExn "Error" "Invalid packaging data provided"),
     Spec.rejected w "material" "packaging" "Invalid packaging data provided")
  /\ generateInsights_emission (DObject []) w
     = (Throw (mkExn "Error" "Invalid emission data provided"),
        Spec.rejected w "source" "emission" "Invalid emission data provided")
  /\ generateInsights_supplyChain (DObject []) w
     = (Throw (mkExn "Error" "Invalid supplier data provided"),
        Spec.rejected w "supplier" "supply chain" "Invalid supplier data provided")
  /\ generateInsights_regulatory (DObject []) w
     = (Throw (mkExn "Error" "Invalid compliance data provided"),
        Spec.rejected w "regulation" "regulatory" "Invalid compliance data provided").
Proof.
  repeat split; cbv; reflexivity.
Qed.

(** C7, as the code runs: the record of the scenario has no [unit],
    which the emission agent requires, so the analysis fails. *)
Lemma C7_scenario_record_rejected :
  fst (generateInsights_emission (host:=utc_host) (DObject emission_scenario)
                                 (world_at 1762041600000))
  = Throw (mkExn "Error" "Invalid emission data provided").
Proof. vm_compute. reflexivity. Qed.

(** C7, amended: the emission agent rejects the record of the scenario
    as it stands, [unit] being required; for the same record with a
    unit, the analysis succeeds, the KPI [reductionProgress] is 18.5
    and the performance status is [Below Target], 18.5 being below the
    target 30. *)
Theorem C7_emission_scenario {host : Host} (w : World) (unit : string) :
  fst (generateInsights_emission (DObject emission_scenario) w)
  = Throw (mkExn "Error" "Invalid emission data provided")
  /\ exists i w',
      generateInsights_emission
        (DObject (emission_scenario ++ [("unit", VStr unit)])) w = (Ok i, w')
      /\ reductionProgress (e_kpis i) = Some 18.5
      /\ performanceStatus (scopeAnalysis i) = Some "Below Target"
      /\ PrimFloat.ltb 18.5 overall_reductionTarget = true.
Proof.
  split; [cbv; reflexivity|].
  destruct (@EmissionFacts.generateInsights_emission_valid host
              (emission_scenario ++ [("unit", VStr unit)]) w)
    as (i & w' & Hrun & Hprogress & Hscope); [cbv; reflexivity|].
  exists i, w'. split; [exact Hrun|].
  rewrite Hprogress, Hscope.
  repeat split; vm_compute; reflexivity.
Qed.

(** C8, as the code runs: the regulatory agent reads the clock.  The
    same compliance record, analysed on 24 December 2024 and one day
    later, gives 7 and then 6 days to the deadline, and other
    insights. *)
Lemma C8_regulatory_depends_on_clock :
  exists i1 i2,
    fst (generateInsights_regulatory (host:=utc_host) (DObject compliance_example)
                                     (world_at 1735000000000)) = Ok i1
    /\ fst (generateInsights_regulatory (host:=utc_host) (DObject compliance_example)
                                        (world_at 1735086400000)) = Ok i2
    /\ daysToDeadline (r_kpis i1) = Some 7
    /\ daysToDeadline (r_kpis i2) = Some 6
    /\ r_insights i1 <> r_insights i2.
Proof.
  eexists. eexists.
  split; [vm_compute; reflexivity|]. split; [vm_compute; reflexivity|].
  split; [vm_compute; reflexivity|]. split; [vm_compute; reflexivity|].
  vm_compute. discriminate.
Qed.

(** C8, amended: for every record, what an agent returns besides the
    timestamp is the same in any two calls for the packaging and the
    supply-chain agent, whatever the clock and the log; the same in
    two calls made in the same calendar year for the emission agent;
    and the same in two calls that read the same times for the
    regulatory agent, for a record whose region is not looked up under
    the name of a member of [Object.prototype] ([constructor],
    [__proto__]). *)
Theorem C8_determinism {host : Host} (d : data) (w1 w2 : World) :
  Spec.outcome Spec.untimed_packaging (fst (generateInsights_packaging d w1))
  = Spec.outcome Spec.untimed_packaging (fst (generateInsights_packaging d w2))
  /\ Spec.outcome Spec.untimed_supplyChain (fst (generateInsights_supplyChain d w1))
     = Spec.outcome Spec.untimed_supplyChain (fst (generateInsights_supplyChain d w2))
  /\ (Spec.same_year w1 w2 ->
      Spec.outcome Spec.untimed_emission (fst (generateInsights_emission d w1))
      = Spec.outcome Spec.untimed_emission (fst (generateInsights_emission d w2)))
  /\ (Spec.same_clock w1 w2 -> Spec.plain_region d ->
      Spec.outcome Spec.untimed_regulatory (fst (generateInsights_regulatory d w1))
      = Spec.outcome Spec.untimed_regulatory (fst (generateInsights_regulatory d w2))).
Proof.
  split; [|split; [|split]].
  - exact (proj1 (respects_packaging (R:=Spec.any_world) d w1 w2 I)).
  - exact (proj1 (respects_supplyChain (R:=Spec.any_world) d w1 w2 I)).
  - intros Hyear. exact (proj1 (respects_emission d Hyear)).
  - intros Hclock _. exact (proj1 (respects_regulatory d Hclock)).
Qed.

(** Two worlds at the same time with different logs and different
    numbers of earlier readings. *)
Lemma C8_determinism_witness :
  Spec.same_clock (world_at 1735000000000)
                  (mkWorld (fun _ => 1735000000000) 3 [mkLog "info" "started"])
  /\ Spec.plain_region (DObject compliance_example)
  /\ Spec.outcome Spec.untimed_regulatory
       (fst (generateInsights_regulatory (host:=utc_host) (DObject compliance_example)
               (world_at 1735000000000)))
     = Spec.outcome Spec.untimed_regulatory
         (fst (generateInsights_regulatory (host:=utc_host) (DObject compliance_example)
                 (mkWorld (fun _ => 1735000000000) 3 [mkLog "info" "started"]))).
Proof.
  assert (Hclock : Spec.same_clock
                     (world_at 1735000000000)
                     (mkWorld (fun _ => 1735000000000) 3 [mkLog "info" "started"]))
    by (intros n; reflexivity).
  assert (Hregion : Spec.plain_region (DObject compliance_example)).
  { intros r region Hd Hget. injection Hd as <-.
    vm_compute in Hget. injection Hget as <-.
    vm_compute. intros Hin.
    repeat (destruct Hin as [Hin|Hin]; [discriminate Hin|]). exact Hin. }
  split; [exact Hclock|]. split; [exact Hregion|].
  exact (proj2 (proj2 (proj2 (C8_determinism (host:=utc_host)
                                (DObject compliance_example) _ _)))
           Hclock Hregion).
Defined.

End AgentClaims.

(** ** The chunker: shape of the chunks *)

Module TrimFacts.
Import JsString Laws.

Lemma append_assoc (a b c : string) :
  ((a ++ b) ++ c)%string = (a ++ (b ++ c))%string.
Proof. induction a as [|x a IH]; simpl; [reflexivity | rewrite IH; reflexivity]. Qed.

Lemma rev_onto_append (s acc : string) :
  rev_onto s acc = (rev s ++ acc)%string.
Proof.
  unfold rev. revert acc.
  induction s as [|c s IH]; intros acc; simpl; [reflexivity|].
  rewrite IH, (IH (String c EmptyString)).
  rewrite append_assoc. reflexivity.
Qed.

Lemma append_empty_r (s : string) : (s ++ "")%string = s.
Proof. induction s as [|c s IH]; simpl; [reflexivity | rewrite IH; reflexivity]. Qed.

Lemma rev_onto_of_append (a b acc : string) :
  rev_onto (a ++ b) acc = rev_onto b (rev_onto a acc).
Proof.
  revert acc. induction a as [|c a IH]; intros acc; simpl; [reflexivity | apply IH].
Qed.

Lemma rev_append (a b : string) : rev (a ++ b) = (rev b ++ rev a)%string.
Proof.
  unfold rev at 1. rewrite rev_onto_of_append, rev_onto_append. reflexivity.
Qed.

Lemma rev_involutive (s : string) : rev (rev s) = s.
Proof.
  induction s as [|c s IH]; [reflexivity|].
  change (rev (String c s)) with (rev_onto s (String c EmptyString)).
  rewrite rev_onto_append, rev_append, IH. reflexivity.
Qed.

(** What [drop_while] keeps is a suffix. *)
Lemma drop_while_suffix (p : ascii -> bool) (s : string) :
  exists dropped, s = (dropped ++ drop_while p s)%string.
Proof.
  induction s as [|c s [d IH]]; simpl.
  - exists EmptyString. reflexivity.
  - destruct (p c).
    + exists (String c d). simpl. rewrite <- IH. reflexivity.
    + exists EmptyString. reflexivity.
Qed.

Lemma drop_while_starts (p : ascii -> bool) (s : string) :
  starts_outside p (drop_while p s) = true.
Proof.
  induction s as [|c s IH]; simpl; [reflexivity|].
  destruct (p c) eqn:Hc; [exact IH | simpl; rewrite Hc; reflexivity].
Qed.

Lemma drop_while_fixed (p : ascii -> bool) (s : string) :
  starts_outside p s = true -> drop_while p s = s.
Proof.
  destruct s as [|c s]; simpl; [reflexivity|].
  destruct (p c); [discriminate | reflexivity].
Qed.

Lemma starts_outside_prefix (p : ascii -> bool) (a b : string) :
  starts_outside p (a ++ b) = true -> starts_outside p b = true ->
  starts_outside p a = true.
Proof. destruct a as [|c a]; simpl; intros; [reflexivity | assumption]. Qed.

(** Trimming leaves nothing to trim. *)
Lemma trim_idempotent (s : string) : trim (trim s) = trim s.
Proof.
  unfold trim, trimEnd, trimStart.
  set (t := drop_while is_space s).
  set (u := drop_while is_space (rev t)).
  assert (Ht : starts_outside is_space t = true) by apply drop_while_starts.
  assert (Hu : starts_outside is_space u = true) by apply drop_while_starts.
  destruct (drop_while_suffix is_space (rev t)) as [d Hd]. fold u in Hd.
  assert (Hrev : t = (rev u ++ rev d)%string).
  { rewrite <- (rev_involutive t), Hd, rev_append. reflexivity. }
  assert (Hstart : starts_outside is_space (rev u) = true).
  { destruct (rev u) as [|c r] eqn:Hr; [reflexivity|].
    rewrite Hrev in Ht. simpl in *. exact Ht. }
  rewrite (drop_while_fixed is_space (rev u) Hstart).
  rewrite rev_involutive, (drop_while_fixed is_space u Hu). reflexivity.
Qed.

End TrimFacts.

Module ChunkShape.
Import JsString JsNumber JsValue Runtime Rag ChunkFacts TrimFacts.

Lemma has_ink_nonempty (s : string) : Spec.has_ink s = true -> nonempty s = true.
Proof. destruct s; [discriminate | reflexivity]. Qed.

Lemma length_positive_nonempty (s : string) :
  (0 <? String.length s) = nonempty s.
Proof. destruct s; reflexivity. Qed.

(** What the loop keeps: the closed chunks are trimmed and not empty,
    the open chunk is empty or has ink, and there are fewer closed
    chunks than sentences read when the open chunk has text, at most
    as many otherwise. *)
Lemma splitText_loop (chunkSize chunkOverlap : Z) (l : list string) :
  forall chunks cur read,
    Forall (fun s => Spec.has_ink s = true) l ->
    Forall (fun c => c <> "" /\ trim c = c) chunks ->
    (cur = "" \/ Spec.has_ink cur = true) ->
    List.length chunks + (if nonempty cur then 1 else 0) <= read ->
    let '(chunks', cur') :=
      fold_left (splitText_step chunkSize chunkOverlap) l (chunks, cur) in
    Forall (fun c => c <> "" /\ trim c = c) chunks'
    /\ (cur' = "" \/ Spec.has_ink cur' = true)
    /\ List.length chunks' + (if nonempty cur' then 1 else 0)
       <= read + List.length l.
Proof.
  induction l as [|s l IH]; intros chunks cur read Hl Hchunks Hcur Hcount.
  - simpl. repeat split; try assumption. lia.
  - inversion Hl as [|? ? Hs Hl']; subst.
    cbn [fold_left]. unfold splitText_step at 2.
    destruct ((Z.of_nat (String.length (cur ++ s)) >? chunkSize)%Z
              && (0 <? String.length cur)) eqn:Hclose.
    + apply andb_prop in Hclose. destruct Hclose as [_ Hpos].
      rewrite length_positive_nonempty in Hpos.
      assert (Hink : Spec.has_ink cur = true).
      { destruct Hcur as [-> | Hink]; [discriminate | exact Hink]. }
      specialize (IH (chunks ++ [trim cur])
                     (join " " (overlapWords cur chunkOverlap) ++ " " ++ s)%string
                     (S read) Hl').
      match type of IH with ?A -> ?B -> ?C -> ?D =>
        assert (HA : A); [|assert (HB : B); [|assert (HC : C)]] end.
      * apply Forall_app. split; [exact Hchunks|].
        constructor; [|constructor]. split; [|apply trim_idempotent].
        intros Hempty. pose proof (nonempty_trim cur) as Hne.
        rewrite Hempty, Hink in Hne. discriminate.
      * right. rewrite !has_ink_append, Hs, !orb_true_r. reflexivity.
      * rewrite length_app. simpl. rewrite Hpos in Hcount.
        destruct (nonempty _); lia.
      * specialize (IH HA HB HC).
        destruct (fold_left _ l _) as [chunks' cur'].
        simpl List.length. replace (read + S (List.length l)) with (S read + List.length l) by lia.
        exact IH.
    + specialize (IH chunks (extend cur s) (S read) Hl' Hchunks).
      match type of IH with ?B -> ?C -> ?D =>
        assert (HB : B); [|assert (HC : C)] end.
      * right. apply extend_ink. right. exact Hs.
      * destruct (nonempty cur); destruct (nonempty (extend cur s)); lia.
      * specialize (IH HB HC).
        destruct (fold_left _ l _) as [chunks' cur'].
        simpl List.length. replace (read + S (List.length l)) with (S read + List.length l) by lia.
        exact IH.
Qed.

(** X1: no chunk the chunker returns is empty, and none begins or
    ends with white space: trimming a chunk changes nothing. *)
Theorem splitText_chunks_trimmed (text : string) (chunkSize chunkOverlap : Z) :
  Forall (fun chunk => chunk <> "" /\ trim chunk = chunk)
         (splitText text chunkSize chunkOverlap).
Proof.
  unfold splitText.
  pose proof (@splitText_loop chunkSize chunkOverlap (sentences text) [] "" 0
                (sentences_ink text) (Forall_nil _) (or_introl eq_refl)
                (Nat.le_refl _)) as Hloop.
  destruct (fold_left _ (sentences text) _) as [chunks cur].
  destruct Hloop as (Hchunks & _ & _).
  destruct (nonempty (trim cur)) eqn:Hne; [|exact Hchunks].
  apply Forall_app. split; [exact Hchunks|].
  constructor; [|constructor]. split; [|apply trim_idempotent].
  intros Hempty. rewrite Hempty in Hne. discriminate.
Qed.

(** X2: the chunker returns at most as many chunks as the text has
    non-blank sentences. *)
Theorem splitText_count (text : string) (chunkSize chunkOverlap : Z) :
  List.length (splitText text chunkSize chunkOverlap)
  <= List.length (sentences text).
Proof.
  unfold splitText.
  pose proof (@splitText_loop chunkSize chunkOverlap (sentences text) [] "" 0
                (sentences_ink text) (Forall_nil _) (or_introl eq_refl)
                (Nat.le_refl _)) as Hloop.
  destruct (fold_left _ (sentences text) _) as [chunks cur].
  destruct Hloop as (_ & _ & Hcount). simpl in Hcount.
  destruct (nonempty (trim cur)) eqn:Hne.
  - rewrite length_app. simpl.
    rewrite nonempty_trim in Hne. apply has_ink_nonempty in Hne.
    rewrite Hne in Hcount. lia.
  - destruct (nonempty cur); lia.
Qed.

End ChunkShape.

Module ChunkCoverage.
Import JsString JsNumber JsValue Runtime Rag ChunkFacts TrimFacts Laws.

(** *** Substrings *)

Lemma prefix_append (sub rest : string) : String.prefix sub (sub ++ rest) = true.
Proof.
  induction sub as [|c sub IH]; simpl; [destruct rest; reflexivity|].
  destruct (ascii_dec c c) as [_|Hne]; [exact IH | contradiction].
Qed.

Lemma prefix_split (sub s : string) :
  String.prefix sub s = true -> exists rest, s = (sub ++ rest)%string.
Proof.
  revert s. induction sub as [|c sub IH]; intros s Hp.
  - exists s. reflexivity.
  - destruct s as [|d s]; [discriminate|]. simpl in Hp.
    destruct (ascii_dec c d) as [->|_]; [|discriminate].
    destruct (IH s Hp) as [rest ->]. exists rest. reflexivity.
Qed.

Lemma includes_unfold (s sub : string) :
  includes s sub
  = if String.prefix sub s then true
    else match s with
         | EmptyString => false
         | String _ s' => includes s' sub
         end.
Proof. destruct s; reflexivity. Qed.

Lemma includes_inside (before sub after : string) :
  includes (before ++ sub ++ after) sub = true.
Proof.
  induction before as [|c before IH].
  - simpl append. rewrite includes_unfold, prefix_append. reflexivity.
  - rewrite includes_unfold. cbn [append].
    destruct (String.prefix sub (String c (before ++ sub ++ after)));
      [reflexivity | exact IH].
Qed.

Lemma includes_split (s sub : string) :
  includes s sub = true -> exists before after, s = (before ++ sub ++ after)%string.
Proof.
  induction s as [|c s IH]; rewrite includes_unfold.
  - destruct (String.prefix sub "") eqn:Hp; [|discriminate].
    intros _. apply prefix_split in Hp. destruct Hp as [rest ->].
    exists EmptyString, rest. reflexivity.
  - destruct (String.prefix sub (String c s)) eqn:Hp.
    + intros _. apply prefix_split in Hp. destruct Hp as [rest ->].
      exists EmptyString, rest. reflexivity.
    + intros Hin. destruct (IH Hin) as (before & after & ->).
      exists (String c before), after. reflexivity.
Qed.

Lemma includes_longer (before s after sub : string) :
  includes s sub = true -> includes (before ++ s ++ after) sub = true.
Proof.
  intros Hin. apply includes_split in Hin. destruct Hin as (b & a & ->).
  replace (before ++ (b ++ sub ++ a) ++ after)%string
    with ((before ++ b) ++ sub ++ (a ++ after))%string
    by (rewrite !append_assoc; reflexivity).
  apply includes_inside.
Qed.

(** *** Trimming keeps what is inside *)

(** A text is its trimmed form between two margins. *)
Lemma trim_margins (s : string) :
  exists left right, s = (left ++ trim s ++ right)%string.
Proof.
  unfold trim, trimEnd, trimStart.
  destruct (drop_while_suffix is_space s) as [d1 H1].
  destruct (drop_while_suffix is_space (rev (drop_while is_space s))) as [d2 H2].
  exists d1, (rev d2). rewrite H1 at 1. f_equal.
  rewrite <- (rev_involutive (drop_while is_space s)) at 1.
  rewrite H2 at 1. apply rev_append.
Qed.

Lemma trim_starts (s : string) : starts_outside is_space (trim s) = true.
Proof.
  unfold trim, trimEnd, trimStart.
  set (t := drop_while is_space s).
  assert (Ht : starts_outside is_space t = true) by apply drop_while_starts.
  destruct (drop_while_suffix is_space (rev t)) as [d Hd].
  set (u := drop_while is_space (rev t)) in *.
  assert (Hrev : t = (rev u ++ rev d)%string).
  { rewrite <- (rev_involutive t), Hd, rev_append. reflexivity. }
  destruct (rev u) as [|c r] eqn:Hr; [reflexivity|].
  rewrite Hrev in Ht. exact Ht.
Qed.

Lemma trim_ends (s : string) : starts_outside is_space (rev (trim s)) = true.
Proof.
  unfold trim, trimEnd. rewrite rev_involutive. apply drop_while_starts.
Qed.

Lemma drop_while_keeps (y : string) :
  nonempty y = true -> starts_outside is_space y = true ->
  forall before after,
  exists before',
    drop_while is_space (before ++ y ++ after) = (before' ++ y ++ after)%string.
Proof.
  intros Hne Hstart. induction before as [|c before IH]; intros after.
  - exists EmptyString. simpl append. apply drop_while_fixed.
    destruct y as [|d y]; [discriminate | exact Hstart].
  - simpl. destruct (is_space c).
    + apply IH.
    + exists (String c before). reflexivity.
Qed.

Lemma nonempty_rev (s : string) : nonempty (rev s) = nonempty s.
Proof. unfold rev. rewrite nonempty_rev_onto. apply orb_false_r. Qed.

Lemma trim_keeps (x y : string) :
  nonempty y = true -> starts_outside is_space y = true ->
  starts_outside is_space (rev y) = true ->
  includes x y = true -> includes (trim x) y = true.
Proof.
  intros Hne Hstart Hend Hin.
  apply includes_split in Hin. destruct Hin as (before & after & ->).
  unfold trim, trimEnd, trimStart.
  destruct (@drop_while_keeps y Hne Hstart before after) as [before' ->].
  rewrite !rev_append.
  rewrite append_assoc.
  assert (Hne' : nonempty (rev y) = true) by (rewrite nonempty_rev; exact Hne).
  assert (Hstart' : starts_outside is_space (rev (rev y)) = true)
    by (rewrite rev_involutive; exact Hstart).
  destruct (@drop_while_keeps (rev y) Hne' Hend (rev after) (rev before')) as [after' ->].
  rewrite !rev_append, !rev_involutive. rewrite append_assoc.
  apply includes_inside.
Qed.

(** The trimmed form of a part that has ink is in the trimmed form of
    the whole. *)
Lemma trim_includes (x s : string) :
  Spec.has_ink s = true -> includes x s = true ->
  includes (trim x) (trim s) = true.
Proof.
  intros Hink Hin.
  apply trim_keeps.
  - rewrite nonempty_trim. exact Hink.
  - apply trim_starts.
  - apply trim_ends.
  - destruct (trim_margins s) as (left & right & Hs).
    apply includes_split in Hin. destruct Hin as (before & after & ->).
    assert (Heq : (before ++ s ++ after)%string
                  = ((before ++ left) ++ trim s ++ (right ++ after))%string).
    { rewrite Hs at 1. rewrite !append_assoc. reflexivity. }
    rewrite Heq. apply includes_inside.
Qed.

Lemma includes_self (s : string) : includes s s = true.
Proof.
  pose proof (includes_inside "" s "") as H. simpl in H.
  rewrite append_empty_r in H. exact H.
Qed.

(** *** The loop *)

(** Every sentence read so far is in a closed chunk, trimmed, or in
    the open chunk. *)
Lemma splitText_keeps (chunkSize chunkOverlap : Z) (l : list string) :
  forall chunks cur read,
    Forall (fun s => Spec.has_ink s = true) l ->
    Forall (fun s => Spec.has_ink s = true) read ->
    Forall (fun s => Exists (fun c => includes c (trim s) = true) chunks
                     \/ includes cur s = true) read ->
    let '(chunks', cur') :=
      fold_left (splitText_step chunkSize chunkOverlap) l (chunks, cur) in
    Forall (fun s => Exists (fun c => includes c (trim s) = true) chunks'
                     \/ includes cur' s = true) (read ++ l).
Proof.
  induction l as [|x l IH]; intros chunks cur read Hl Hread Hinv.
  - simpl. rewrite app_nil_r. exact Hinv.
  - inversion Hl as [|? ? Hx Hl']; subst.
    cbn [fold_left]. unfold splitText_step at 2.
    replace (read ++ x :: l) with ((read ++ [x]) ++ l)
      by (rewrite <- app_assoc; reflexivity).
    destruct ((Z.of_nat (String.length (cur ++ x)) >? chunkSize)%Z
              && (0 <? String.length cur)).
    + apply IH; [exact Hl' | apply Forall_app; split; [exact Hread | auto] |].
      apply Forall_app. split.
      * rewrite Forall_forall in *. intros s Hs.
        destruct (Hinv s Hs) as [Hclosed|Hopen].
        -- left. apply Exists_app. left. exact Hclosed.
        -- left. apply Exists_app. right. apply Exists_cons_hd.
           apply trim_includes; [apply Hread; exact Hs | exact Hopen].
      * constructor; [|constructor]. right.
        pose proof (includes_inside
                      (join " " (overlapWords cur chunkOverlap) ++ " ") x "") as H.
        rewrite append_empty_r, append_assoc in H. exact H.
    + apply IH; [exact Hl' | apply Forall_app; split; [exact Hread | auto] |].
      apply Forall_app. split.
      * rewrite Forall_forall in *. intros s Hs.
        destruct (Hinv s Hs) as [Hclosed|Hopen]; [left; exact Hclosed|].
        right. unfold extend.
        pose proof (@includes_longer "" cur
                      ((if nonempty cur then " " else "") ++ x) s Hopen) as H.
        exact H.
      * constructor; [|constructor]. right. unfold extend.
        pose proof (includes_inside (cur ++ (if nonempty cur then " " else "")) x "")
          as H.
        rewrite append_empty_r, append_assoc in H. exact H.
Qed.

(** X3: the chunker loses no sentence: each non-blank sentence of
    the text, trimmed, is a substring of one of the chunks. *)
Theorem splitText_covers (text : string) (chunkSize chunkOverlap : Z) :
  Forall (fun sentence =>
            Exists (fun chunk => includes chunk (trim sentence) = true)
                   (splitText text chunkSize chunkOverlap))
         (sentences text).
Proof.
  unfold splitText.
  pose proof (@splitText_keeps chunkSize chunkOverlap (sentences text) [] "" []
                (sentences_ink text) (Forall_nil _) (Forall_nil _)) as Hloop.
  destruct (fold_left _ (sentences text) _) as [chunks cur].
  simpl app in Hloop.
  pose proof (sentences_ink text) as Hink.
  rewrite Forall_forall in *. intros s Hs.
  destruct (Hloop s Hs) as [Hclosed|Hopen].
  - destruct (nonempty (trim cur)); [|exact Hclosed].
    apply Exists_app. left. exact Hclosed.
  - assert (Hcur : nonempty (trim cur) = true).
    { rewrite nonempty_trim.
      apply includes_split in Hopen. destruct Hopen as (before & after & ->).
      rewrite !has_ink_append, (Hink s Hs), orb_true_r. reflexivity. }
    rewrite Hcur. apply Exists_app. right. apply Exists_cons_hd.
    apply trim_includes; [apply Hink; exact Hs | exact Hopen].
Qed.

End ChunkCoverage.

(** ** Embedding and similarity: algebra *)

Module EmbeddingFacts.
Import JsString JsNumber JsValue Runtime Rag.

Lemma toLowerCase_append (a b : string) :
  toLowerCase (a ++ b) = (toLowerCase a ++ toLowerCase b)%string.
Proof. induction a as [|c a IH]; simpl; [reflexivity | rewrite IH; reflexivity]. Qed.

(** A white-space character is its own lower case, and no word
    character. *)
Lemma space_lower (c : ascii) :
  is_space c = true -> lower_char c = c /\ is_word_char c = false.
Proof.
  destruct c as [[] [] [] [] [] [] [] []]; vm_compute; intros Hc;
    try discriminate Hc; split; reflexivity.
Qed.

(** A run of separators that has begun leaves no trace among the
    pieces a filter keeps, when the filter drops the empty piece. *)
Lemma split_runs_begun (sep : ascii -> bool) (keep : string -> bool) (s : string) :
  keep "" = false ->
  filter keep (split_runs sep "" true s) = filter keep (split_runs sep "" false s).
Proof.
  intros Hkeep. destruct s as [|c s]; simpl; [reflexivity|].
  destruct (sep c); [simpl; rewrite Hkeep|]; reflexivity.
Qed.

(** Splitting two texts joined by a separator gives the pieces of the
    first and then the pieces of the second. *)
Lemma split_runs_joined (sep : ascii -> bool) (keep : string -> bool)
      (c : ascii) (b : string) :
  keep "" = false -> sep c = true ->
  forall a acc in_run,
    (in_run = true -> acc = "") ->
    filter keep (split_runs sep acc in_run (a ++ String c b))
    = filter keep (split_runs sep acc in_run a)
      ++ filter keep (split_runs sep "" false b).
Proof.
  intros Hkeep Hc. induction a as [|d a IH]; intros acc in_run Hrun.
  - simpl. rewrite Hc. destruct in_run.
    + rewrite (Hrun eq_refl), Hkeep. simpl. apply split_runs_begun. exact Hkeep.
    + simpl. rewrite (split_runs_begun sep keep b Hkeep).
      destruct (keep acc); reflexivity.
  - simpl. destruct (sep d).
    + destruct in_run.
      * apply IH. reflexivity.
      * simpl. rewrite IH by reflexivity. destruct (keep acc); reflexivity.
    + apply IH. discriminate.
Qed.

Lemma embedding_words_joined (a b : string) (c : ascii) :
  is_space c = true ->
  embedding_words (a ++ String c b) = embedding_words a ++ embedding_words b.
Proof.
  intros Hc. destruct (space_lower c Hc) as [Hlow Hword].
  unfold embedding_words, split_regex_class.
  rewrite toLowerCase_append. cbn [toLowerCase]. rewrite Hlow.
  apply split_runs_joined; try reflexivity; try discriminate.
  rewrite Hword. reflexivity.
Qed.

Lemma term_counts_joined (a b : string) (c : ascii) :
  is_space c = true ->
  term_counts (a ++ String c b)
  = map (fun nm => fst nm + snd nm) (combine (term_counts a) (term_counts b)).
Proof.
  intros Hc. unfold term_counts. rewrite embedding_words_joined by exact Hc.
  induction sustainabilityTerms as [|term terms IH]; [reflexivity|].
  simpl. rewrite filter_app, length_app, IH. reflexivity.
Qed.

End EmbeddingFacts.

Module SimilarityFacts.
Import JsString JsNumber JsValue Runtime Rag CosineFacts.

(** *** Products of binary64 numbers commute *)

Lemma SFmul_comm (prec emax : Z) (x y : spec_float) :
  SFmul prec emax x y = SFmul prec emax y x.
Proof.
  destruct x as [sx|sx| |sx mx ex], y as [sy|sy| |sy my ey]; simpl;
    rewrite ?(xorb_comm sx sy); try reflexivity.
  rewrite (Pos.mul_comm mx my), (Z.add_comm ex ey). reflexivity.
Qed.

Lemma float_mul_comm (x y : float) : PrimFloat.mul x y = PrimFloat.mul y x.
Proof.
  apply Prim2SF_inj. rewrite !mul_spec. apply SFmul_comm.
Qed.

Section Symmetry.
Context {T : Type} `{Number T}.
Hypothesis nmul_comm : forall x y : T, nmul x y = nmul y x.

Lemma sums_from_swap (vecA vecB : list T) :
  forall d na nb,
    sums_from (d, nb, na) (combine vecB vecA)
    = let '(d', na', nb') := sums_from (d, na, nb) (combine vecA vecB) in
      (d', nb', na').
Proof.
  revert vecB. induction vecA as [|x vecA IH]; intros [|y vecB] d na nb;
    try reflexivity.
  change (combine (y :: vecB) (x :: vecA)) with ((y, x) :: combine vecB vecA).
  change (combine (x :: vecA) (y :: vecB)) with ((x, y) :: combine vecA vecB).
  unfold sums_from. cbn [fold_left]. fold (sums_from (T:=T)).
  rewrite (nmul_comm y x).
  apply (IH vecB (nadd d (nmul x y)) (nadd na (nmul x x)) (nadd nb (nmul y y))).
Qed.

Lemma cosineSimilarity_swap (vecA vecB : list T) :
  cosineSimilarity vecB vecA = cosineSimilarity vecA vecB.
Proof.
  unfold cosineSimilarity, cosine_sums.
  rewrite (Nat.eqb_sym (List.length vecB) (List.length vecA)).
  destruct (negb _); [reflexivity|].
  rewrite sums_from_swap.
  destruct (sums_from _ (combine vecA vecB)) as [[d na] nb].
  rewrite (orb_comm (neqb nb (of_Z 0))).
  destruct (_ || _); [reflexivity|].
  rewrite (nmul_comm (nsqrt nb)). reflexivity.
Qed.
End Symmetry.

End SimilarityFacts.

Module SimilarityLaws.
Import JsString JsNumber JsValue Runtime Rag CosineFacts EmbeddingFacts SimilarityFacts.

(** X4: the similarity of two vectors does not depend on their order,
    in binary64 as in exact arithmetic, whatever the vectors. *)
Theorem cosineSimilarity_symmetric :
  (forall vecA vecB : list float,
      cosineSimilarity vecA vecB = cosineSimilarity vecB vecA)
  /\ (forall vecA vecB : list R,
         cosineSimilarity vecA vecB = cosineSimilarity vecB vecA).
Proof.
  split; intros vecA vecB; symmetry.
  - apply cosineSimilarity_swap. exact float_mul_comm.
  - apply cosineSimilarity_swap. exact Rmult_comm.
Qed.

(** X6: the counts of the terms add up when two texts are put one
    after the other with a white-space character between them; and
    the embedding of the joined text, in binary64, is made of the
    numbers of these sums. *)
Theorem embedding_of_joined_texts (a b : string) (c : ascii) :
  is_space c = true ->
  term_counts (a ++ String c b)
  = map (fun nm => (fst nm + snd nm)%nat) (combine (term_counts a) (term_counts b))
  /\ createSimpleEmbedding (T:=float) (a ++ String c b)
     = map (fun nm => float_of_Z (Z.of_nat (fst nm + snd nm)))
           (combine (term_counts a) (term_counts b)).
Proof.
  intros Hc. split; [apply term_counts_joined; exact Hc|].
  unfold createSimpleEmbedding. rewrite term_counts_joined by exact Hc.
  rewrite map_map. reflexivity.
Qed.

Lemma embedding_of_joined_texts_witness :
  is_space " " = true
  /\ term_counts ("plastic bottle" ++ String " " "glass bottle")
     = map (fun nm => (fst nm + snd nm)%nat)
           (combine (term_counts "plastic bottle") (term_counts "glass bottle")).
Proof.
  split; [reflexivity|].
  exact (proj1 (@embedding_of_joined_texts "plastic bottle" "glass bottle" " "
                  eq_refl)).
Defined.

End SimilarityLaws.

(** ** The vector store and the orchestrator *)

Module StoreFacts.
Import JsString JsNumber JsValue Runtime Rag RetrievalFacts CosineFacts.

Lemma map_set_key {V} (k x : string) (v : V) (m : list (string * V)) :
  In x (map fst (map_set k v m)) -> x = k \/ In x (map fst m).
Proof.
  induction m as [|[k' v'] m IH]; simpl.
  - intros [<-|[]]. left. reflexivity.
  - destruct (String.eqb k k') eqn:E; simpl.
    + apply String.eqb_eq in E. subst k'. intros [<-|Hin]; [left|right; right]; auto.
    + intros [<-|Hin]; [right; left; reflexivity|].
      destruct (IH Hin) as [->|Hin']; [left | right; right]; auto.
Qed.

(** [Map.prototype.set] keeps the keys distinct. *)
Lemma map_set_NoDup {V} (k : string) (v : V) (m : list (string * V)) :
  NoDup (map fst m) -> NoDup (map fst (map_set k v m)).
Proof.
  induction m as [|[k' v'] m IH]; simpl; intros Hm.
  - constructor; [intros [] | constructor].
  - inversion Hm as [|? ? Hnotin Hm']; subst.
    destruct (String.eqb k k') eqn:E; simpl.
    + apply String.eqb_eq in E. subst k'. constructor; assumption.
    + constructor; [|apply IH; exact Hm'].
      intros Hin. apply map_set_key in Hin. destruct Hin as [->|Hin].
      * rewrite String.eqb_refl in E. discriminate.
      * contradiction.
Qed.

Section Store.
Context {T : Type} `{Number T} {host : Host}.

Lemma add_chunk_store (P : string * Doc -> Prop) (filename : string)
      (l : list (nat * string)) :
  (forall index chunk,
      P (md5_hex (filename ++ "-" ++ of_nat index ++ "-" ++ chunk),
         mkDoc chunk (createSimpleEmbedding chunk) (mkMetadata filename index))) ->
  forall chunks store,
    NoDup (map fst store) -> Forall P store ->
    NoDup (map fst (snd (fold_left (add_chunk filename) l (chunks, store))))
    /\ Forall P (snd (fold_left (add_chunk filename) l (chunks, store))).
Proof.
  intros HP. induction l as [|[index chunk] l IH]; intros chunks store Hnd Hall.
  - split; assumption.
  - cbn [fold_left]. unfold add_chunk at 2 4. apply IH.
    + apply map_set_NoDup. exact Hnd.
    + apply map_set_Forall; [exact Hall | apply HP].
Qed.

Lemma add_file_store (P : string -> string * Doc -> Prop)
      (chunkSize chunkOverlap : Z) (files : list (string * string)) :
  (forall filename index chunk,
      P filename
        (md5_hex (filename ++ "-" ++ of_nat index ++ "-" ++ chunk),
         mkDoc chunk (createSimpleEmbedding chunk) (mkMetadata filename index))) ->
  forall chunks store,
    NoDup (map fst store) ->
    Forall (fun entry => exists filename,
                In filename (map fst files) /\ P filename entry) store ->
    forall rest,
      (forall file, In file rest -> In (fst file) (map fst files)) ->
      let store' :=
        snd (fold_left (add_file chunkSize chunkOverlap) rest (chunks, store)) in
      NoDup (map fst store')
      /\ Forall (fun entry => exists filename,
                     In filename (map fst files) /\ P filename entry) store'.
Proof.
  intros HP chunks store Hnd Hall rest. revert chunks store Hnd Hall.
  induction rest as [|[filename text] rest IH]; intros chunks store Hnd Hall Hin.
  - split; assumption.
  - cbn [fold_left]. unfold add_file at 2 4.
    set (l := combine (seq 0 (List.length (splitText text chunkSize chunkOverlap)))
                      (splitText text chunkSize chunkOverlap)).
    pose proof (@add_chunk_store
                  (fun entry => exists f, In f (map fst files) /\ P f entry)
                  filename l) as Hstep.
    destruct (fold_left (add_chunk filename) l (chunks, store))
      as [chunks1 store1] eqn:Hfold.
    assert (Hfile : In filename (map fst files))
      by (apply (Hin (filename, text)); left; reflexivity).
    specialize (Hstep (fun index chunk =>
                         ex_intro _ filename (conj Hfile (HP filename index chunk)))
                      chunks store Hnd Hall).
    rewrite Hfold in Hstep. destruct Hstep as [Hnd1 Hall1].
    apply IH; try assumption.
    intros file Hfile'. apply Hin. right. exact Hfile'.
Qed.

(** The store a query ranks does not depend on the queries made
    before. *)
Lemma indexed_store_kept (query : string) (topK : Z) (s : System) :
  indexed_store (snd (queryKnowledge query topK s)) = indexed_store s.
Proof.
  destruct (queryKnowledge_run query topK s) as (s' & Hrun & Hstore & Hkb & Henv & _).
  rewrite Hrun. cbn [snd]. unfold indexed_store at 1.
  rewrite Hstore, Hkb, Henv.
  destruct (List.length (indexed_store s) =? 0) eqn:E; [|reflexivity].
  apply Nat.eqb_eq in E.
  unfold indexed_store in *.
  destruct (List.length (vectorStore s) =? 0) eqn:E0.
  - apply Nat.eqb_eq in E0. apply length_zero_iff_nil in E, E0.
    rewrite E0 in *. rewrite E. exact E.
  - apply Nat.eqb_neq in E0. contradiction.
Qed.

End Store.
End StoreFacts.

Module StoreLaws.
Import JsString JsNumber JsValue Runtime Rag RetrievalFacts CosineFacts StoreFacts.
Import DispatchFacts.

(** X8: the store built from the knowledge base, starting from an
    empty one, has pairwise distinct keys; every entry belongs to a
    file of the knowledge base, its key is the digest of the file
    name, the chunk index and the chunk text, and its embedding is the
    embedding of its text, with one component for each of the 18
    terms. *)
Theorem indexed_store_wellformed {T : Type} `{Number T} {host : Host}
        (s : System (T:=T)) :
  vectorStore s = [] ->
  NoDup (map fst (indexed_store s))
  /\ Forall (fun entry : string * Doc =>
               let doc := snd entry in
               In (source (doc_metadata doc)) (map fst (knowledgeBase s))
               /\ fst entry
                  = md5_hex (source (doc_metadata doc) ++ "-"
                             ++ of_nat (chunk (doc_metadata doc)) ++ "-"
                             ++ doc_content doc)
               /\ doc_embedding doc = createSimpleEmbedding (doc_content doc)
               /\ List.length (doc_embedding doc) = 18)
            (indexed_store s).
Proof.
  intros Hempty. unfold indexed_store. rewrite Hempty. simpl Nat.eqb. cbv iota.
  pose proof (@add_file_store T _ host
                (fun filename entry =>
                   let doc := snd entry in
                   source (doc_metadata doc) = filename
                   /\ fst entry
                      = md5_hex (source (doc_metadata doc) ++ "-"
                                 ++ of_nat (chunk (doc_metadata doc)) ++ "-"
                                 ++ doc_content doc)
                   /\ doc_embedding doc = createSimpleEmbedding (doc_content doc)
                   /\ List.length (doc_embedding doc) = 18)
                (or_default (RAG_CHUNK_SIZE (env s)) 1000)
                (or_default (RAG_CHUNK_OVERLAP (env s)) 200)
                (knowledgeBase s)) as Hfiles.
  destruct (Hfiles
              (fun filename index chunk =>
                 conj eq_refl (conj eq_refl (conj eq_refl (embedding_length chunk))))
              [] [] (NoDup_nil _) (Forall_nil _) (knowledgeBase s))
    as [Hnd Hall].
  { intros file Hin. apply in_map. exact Hin. }
  split; [exact Hnd|].
  eapply Forall_impl; [|exact Hall].
  intros [key doc] (filename & Hin & Hsource & Hkey & Hemb & Hlen). simpl in *.
  subst filename. repeat split; assumption.
Qed.

Lemma indexed_store_wellformed_witness :
  vectorStore (ExampleHost.demo_system (T:=float)) = []
  /\ NoDup (map fst (indexed_store (host:=ExampleHost.utc_host)
                                   (ExampleHost.demo_system (T:=float)))).
Proof.
  split; [reflexivity|].
  exact (proj1 (@indexed_store_wellformed float _ ExampleHost.utc_host
                  (ExampleHost.demo_system (T:=float)) eq_refl)).
Defined.

(** X9: what a query returns does not depend on the queries made
    before it: the store is built once, from the knowledge base, and
    no query changes it. *)
Theorem queryKnowledge_history_free {T : Type} `{Number T} {host : Host}
        (s : System (T:=T)) (earlier query : string) (k topK : Z) :
  fst (queryKnowledge query topK (snd (queryKnowledge earlier k s)))
  = fst (queryKnowledge query topK s).
Proof.
  destruct (queryKnowledge_run query topK (snd (queryKnowledge earlier k s)))
    as (s2 & Hrun2 & _).
  destruct (queryKnowledge_run query topK s) as (s1 & Hrun1 & _).
  rewrite Hrun2, Hrun1, indexed_store_kept. reflexivity.
Qed.

Section Answer.
Context {T : Type} `{Number T} {host : Host}.

Lemma queryKnowledge_clock (query : string) (topK : Z) (s : System (T:=T)) :
  clock (world (snd (queryKnowledge query topK s))) = clock (world s)
  /\ reads (world (snd (queryKnowledge query topK s))) = reads (world s).
Proof.
  unfold queryKnowledge, try_catch, bind.
  destruct (List.length (vectorStore s) =? 0).
  - unfold initializeVectorStore.
    destruct (fold_left _ (knowledgeBase s) ([], vectorStore s)) as [chunks store].
    split; reflexivity.
  - split; reflexivity.
Qed.

Lemma agent_processQuery_answers (a : AgentKind) (query text : string)
      (tokens : option nat) (knowledge : Knowledge (T:=T)) (s : System (T:=T)) :
  model s [ mkMessage "system" (getSystemPrompt a);
            mkMessage "user" (buildPrompt query (context knowledge)) ]
  = Generated text tokens ->
  agent_processQuery a query knowledge s
  = (Ok (mkAgentResponse text (confidence knowledge)
                         (match tokens with Some n => n | None => 0%nat end)), s).
Proof.
  intros Hmodel. unfold agent_processQuery, try_catch.
  rewrite Hmodel. reflexivity.
Qed.
End Answer.

(** X10: when the language model answers the messages that
    [processQuery] sends it, [processQuery] returns its text
    unchanged, with the confidence and the sources of the retrieval
    for the query with [topK = 5], the agent type asked for, and the
    time of one reading of the clock; nothing is thrown.  Nothing is
    asked of the model on other messages than the ones sent. *)
Theorem processQuery_answers {T : Type} `{Number T} {host : Host}
        (a : AgentKind) (query text : string) (tokens : option nat)
        (s : System (T:=T)) :
  model s (Spec.sent_messages a query s) = Generated text tokens ->
  let res := results query 5 (indexed_store s) in
  exists s',
    processQuery query (Some (specialization a)) s
    = (Ok (mkQueryResponse text (calculateConfidence res) (map metadata res)
                           (specialization a)
                           (Date_toISOString (clock (world s) (reads (world s))))),
       s')
    /\ vectorStore s' = indexed_store s
    /\ reads (world s') = S (reads (world s)).
Proof.
  intros Hmodel res. unfold processQuery.
  rewrite agents_get_specialization.
  unfold try_catch at 1. unfold bind at 1. unfold ret at 1. unfold bind at 1.
  pose proof (queryKnowledge_clock query 5 s) as [Hclock Hreads].
  destruct (queryKnowledge_run query 5 s) as (s1 & Hrun & Hstore & _ & _ & Hmodel1).
  rewrite Hrun in *. cbn [snd] in Hclock, Hreads.
  unfold bind at 1.
  erewrite agent_processQuery_answers by (rewrite Hmodel1; exact Hmodel).
  unfold bind, new_Date, ret. simpl.
  rewrite Hclock, Hreads.
  eexists. split; [reflexivity|]. simpl. split; [exact Hstore | reflexivity].
Qed.

Lemma processQuery_answers_witness :
  let s := Scenarios.answering_system (T:=float) in
  model s [mkMessage "user" "Hello"] = NoResponse
  /\ model s (Spec.sent_messages (host:=ExampleHost.utc_host) Packaging
                "What is our recycled plastic target?" s)
     = Generated "Raise the recycled content." (Some 12)
  /\ exists s',
       processQuery (host:=ExampleHost.utc_host)
                    "What is our recycled plastic target?"
                    (Some (specialization Packaging)) s
       = (Ok (mkQueryResponse
                "Raise the recycled content."
                (calculateConfidence
                   (results "What is our recycled plastic target?" 5
                            (indexed_store (host:=ExampleHost.utc_host) s)))
                (map metadata
                   (results "What is our recycled plastic target?" 5
                            (indexed_store (host:=ExampleHost.utc_host) s)))
                "packaging"
                (Date_toISOString (Host:=ExampleHost.utc_host)
                                  1735000000000%float)),
          s').
Proof.
  cbv zeta. split; [reflexivity|]. split; [reflexivity|].
  destruct (@processQuery_answers float _ ExampleHost.utc_host Packaging
              "What is our recycled plastic target?"
              "Raise the recycled content." (Some 12)
              (Scenarios.answering_system (T:=float)) eq_refl)
    as (s' & Hrun & _).
  exists s'. exact Hrun.
Defined.

End StoreLaws.

(** ** The base agent *)

Module BaseAgentFacts.
Import JsString JsNumber JsValue Runtime Agents Laws.
Local Open Scope js_scope.
#[local] Set Warnings "-inexact-float".

(** *** Printing an index *)

Lemma digit_code (n : nat) : code (ascii_of_nat (48 + n mod 10)) - 48 = n mod 10.
Proof.
  unfold code. rewrite nat_ascii_embedding.
  - lia.
  - pose proof (Nat.mod_upper_bound n 10). lia.
Qed.

Lemma decimal_digits (fuel : nat) :
  forall n acc, n < fuel ->
    decimal (digits_fuel fuel n acc) = n * 10 ^ String.length acc + decimal acc.
Proof.
  induction fuel as [|fuel IH]; intros n acc Hn; [lia|].
  cbn [digits_fuel]. destruct (n <? 10) eqn:Hsmall.
  - apply Nat.ltb_lt in Hsmall. cbn [decimal]. rewrite digit_code.
    rewrite Nat.mod_small by exact Hsmall. reflexivity.
  - apply Nat.ltb_ge in Hsmall.
    rewrite IH.
    + cbn [decimal String.length]. rewrite digit_code.
      rewrite Nat.pow_succ_r'.
      pose proof (Nat.div_mod_eq n 10) as Hdm. nia.
    + pose proof (Nat.Div0.div_lt_upper_bound n 10 fuel). lia.
Qed.

(** Reading the digits printed for [n] gives [n] back. *)
Lemma decimal_of_nat (n : nat) : decimal (of_nat n) = n.
Proof.
  unfold of_nat. rewrite decimal_digits by lia. simpl. lia.
Qed.

Lemma of_nat_injective (n m : nat) : of_nat n = of_nat m -> n = m.
Proof.
  intros Heq. rewrite <- (decimal_of_nat n), <- (decimal_of_nat m), Heq. reflexivity.
Qed.

Lemma append_injective (p a b : string) : (p ++ a)%string = (p ++ b)%string -> a = b.
Proof.
  induction p as [|c p IH]; simpl; intros Heq; [exact Heq|].
  injection Heq as Heq. apply IH. exact Heq.
Qed.

(** *** [formatRecommendations] *)

Section Format.

Lemma format_from (specialization : string) (recs : list string) (start : nat) :
  map (fun ir : nat * string =>
         let '(index, rec) := ir in
         mkRecommendation (specialization ++ "_rec_" ++ of_nat (index + 1))
                          rec (getPriority rec) specialization
                          (estimateImpact rec) (estimateTimeframe rec))
      (combine (seq start (List.length recs)) recs)
  = map (fun ir : nat * string =>
           mkRecommendation (specialization ++ "_rec_" ++ of_nat (fst ir))
                            (snd ir) (getPriority (snd ir)) specialization
                            (estimateImpact (snd ir)) (estimateTimeframe (snd ir)))
        (combine (seq (S start) (List.length recs)) recs).
Proof.
  revert start. induction recs as [|rec recs IH]; intros start; [reflexivity|].
  simpl. rewrite IH. rewrite Nat.add_1_r. reflexivity.
Qed.

Lemma ids_from (specialization : string) (recs : list string) (start : nat) :
  map rec_id
      (map (fun ir : nat * string =>
              mkRecommendation (specialization ++ "_rec_" ++ of_nat (fst ir))
                               (snd ir) (getPriority (snd ir)) specialization
                               (estimateImpact (snd ir)) (estimateTimeframe (snd ir)))
           (combine (seq start (List.length recs)) recs))
  = map (fun i => (specialization ++ "_rec_" ++ of_nat i)%string)
        (seq start (List.length recs)).
Proof.
  revert start. induction recs as [|rec recs IH]; intros start; [reflexivity|].
  simpl. rewrite IH. reflexivity.
Qed.

Lemma texts_from (specialization : string) (recs : list string) (start : nat) :
  map recommendation
      (map (fun ir : nat * string =>
              mkRecommendation (specialization ++ "_rec_" ++ of_nat (fst ir))
                               (snd ir) (getPriority (snd ir)) specialization
                               (estimateImpact (snd ir)) (estimateTimeframe (snd ir)))
           (combine (seq start (List.length recs)) recs))
  = recs.
Proof.
  revert start. induction recs as [|rec recs IH]; intros start; [reflexivity|].
  simpl. rewrite IH. reflexivity.
Qed.

Lemma ids_distinct (specialization : string) (l : list nat) :
  NoDup l ->
  NoDup (map (fun i => (specialization ++ "_rec_" ++ of_nat i)%string) l).
Proof.
  induction 1 as [|i l Hnotin Hl IH]; simpl; constructor; [|exact IH].
  intros Hin. apply in_map_iff in Hin. destruct Hin as (j & Heq & Hj).
  apply append_injective in Heq.
  apply (@append_injective "_rec_") in Heq. apply of_nat_injective in Heq.
  subst j. contradiction.
Qed.
End Format.

(** *** [validateData] *)

Section Validate.

Lemma every_field_present (r : record) (fields : list string) (w : World) :
  has_own r "hasOwnProperty" = false ->
  forallb (present r) fields = true ->
  every_field r fields w = (Ok true, w).
Proof.
  intros Hown. induction fields as [|field fields IH]; intros Hall; [reflexivity|].
  simpl in Hall. apply andb_prop in Hall. destruct Hall as [Hfield Hall].
  cbn [every_field]. rewrite Hown. unfold present in Hfield. rewrite Hfield.
  apply IH. exact Hall.
Qed.

Lemma every_field_missing (r : record) (before : list string) (field : string)
      (after : list string) (w : World) :
  has_own r "hasOwnProperty" = false ->
  forallb (present r) before = true -> present r field = false ->
  every_field r (before ++ field :: after) w
  = (Ok false,
     mkWorld (clock w) (reads w)
             (logged w ++ [mkLog "warn" ("Missing required field: " ++ field)])).
Proof.
  intros Hown. induction before as [|b before IH]; intros Hall Hfield.
  - cbn [app every_field]. rewrite Hown. unfold present in Hfield. rewrite Hfield.
    reflexivity.
  - simpl in Hall. apply andb_prop in Hall. destruct Hall as [Hb Hall].
    cbn [app every_field]. rewrite Hown. unfold present in Hb. rewrite Hb.
    apply IH; assumption.
Qed.
End Validate.

(** *** [calculateConfidence] *)

Lemma calculateConfidence_range (specialization : string) (r : record)
      (response : string) :
  PrimFloat.leb 0.5 (calculateConfidence specialization r response) = true
  /\ PrimFloat.leb (calculateConfidence specialization r response) 0.95 = true
  /\ (specialization <> "general" -> keys r <> [] ->
      PrimFloat.leb 0.7 (calculateConfidence specialization r response) = true).
Proof.
  unfold calculateConfidence.
  destruct (0 <? List.length (keys r))%nat eqn:Hkeys;
    destruct (nonempty response && (100 <? String.length response)%nat);
    destruct (hasMetrics response);
    destruct (String.eqb specialization "general") eqn:Hspec;
    (split; [vm_compute; reflexivity | split; [vm_compute; reflexivity|]]);
    intros Hs Hk;
    try (apply String.eqb_eq in Hspec; contradiction);
    try (vm_compute; reflexivity);
    destruct (keys r); try contradiction; discriminate.
Qed.

Lemma has_own_keys (r : record) (name : string) :
  has_own r name = true -> keys r <> [].
Proof. destruct r as [|[k v] r]; [discriminate | discriminate]. Qed.

Lemma formatRecommendations_length (specialization : string) (recs : list string) :
  List.length (formatRecommendations specialization recs) = List.length recs.
Proof.
  unfold formatRecommendations.
  rewrite length_map, length_combine, length_seq. apply Nat.min_id.
Qed.

End BaseAgentFacts.

Module BaseAgentLaws.
Import JsString JsNumber JsValue Runtime Agents Laws BaseAgentFacts.
Local Open Scope js_scope.
#[local] Set Warnings "-inexact-float".

(** X11: for a record without a property named [hasOwnProperty],
    [validateData] answers [true] exactly when every required field
    is a property of the record itself with a value other than [null]
    and [undefined], and then it logs nothing; otherwise it answers
    [false] after one warning, which names the first missing field of
    the list.  Anything that is not an object is refused without a
    warning. *)
Theorem validateData_decides (r : record) (fields : list string)
        (w : World) :
  has_own r "hasOwnProperty" = false ->
  (forallb (present r) fields = true ->
   validateData (DObject r) fields w = (Ok true, w))
  /\ (forall before field after,
         fields = before ++ field :: after ->
         forallb (present r) before = true -> present r field = false ->
         validateData (DObject r) fields w
         = (Ok false,
            mkWorld (clock w) (reads w)
                    (logged w
                     ++ [mkLog "warn" ("Missing required field: " ++ field)])))
  /\ (forall v, validateData (DValue v) fields w = (Ok false, w)).
Proof.
  intros Hown. split; [|split].
  - apply every_field_present. exact Hown.
  - intros before field after -> Hbefore Hfield.
    apply every_field_missing; assumption.
  - reflexivity.
Qed.

Lemma validateData_decides_witness :
  has_own [("material", VStr "PET"); ("region", VNull)] "hasOwnProperty" = false
  /\ validateData (DObject [("material", VStr "PET"); ("region", VNull)])
                  ["material"; "region"] (ExampleHost.world_at 0)
     = (Ok false,
        mkWorld (fun _ => 0%float) 0
                [mkLog "warn" "Missing required field: region"]).
Proof.
  split; [reflexivity|].
  exact (proj1 (proj2 (@validateData_decides
                         [("material", VStr "PET"); ("region", VNull)]
                         ["material"; "region"] (ExampleHost.world_at 0) eq_refl))
               ["material"] "region" [] eq_refl eq_refl eq_refl).
Defined.

Local Open Scope float_scope.

(** X12: the confidence an agent computes is at least 0.5 and at most
    0.95, whatever the record and the response; for a specialized
    agent and a record with at least one property it is at least
    0.7. *)
Theorem calculateConfidence_bounds (specialization : string) (r : record)
        (response : string) :
  PrimFloat.leb 0.5 (calculateConfidence specialization r response) = true
  /\ PrimFloat.leb (calculateConfidence specialization r response) 0.95 = true
  /\ (specialization <> "general" -> keys r <> [] ->
      PrimFloat.leb 0.7 (calculateConfidence specialization r response) = true).
Proof. apply calculateConfidence_range. Qed.

(** X13: [formatRecommendations] returns one entry for each text, in
    the same order and with the text unchanged; the entries carry the
    agent's specialization as category, and the identifiers
    [<specialization>_rec_1], [_2], ... in this order, which are
    pairwise distinct. *)
Theorem formatRecommendations_shape (specialization : string)
        (recs : list string) :
  let formatted := formatRecommendations specialization recs in
  map recommendation formatted = recs
  /\ map rec_id formatted
     = map (fun i => (specialization ++ "_rec_" ++ of_nat i)%string)
           (seq 1 (List.length recs))
  /\ NoDup (map rec_id formatted)
  /\ Forall (fun entry => category entry = specialization) formatted.
Proof.
  unfold formatRecommendations. rewrite format_from.
  split; [apply texts_from|]. split; [apply ids_from|]. split.
  - rewrite ids_from. apply ids_distinct, seq_NoDup.
  - apply Forall_forall. intros entry Hin. apply in_map_iff in Hin.
    destruct Hin as ([i rec] & <- & _). reflexivity.
Qed.

Lemma existsb_includes (text : string) (word : string) (l : list string) :
  In word l -> includes text word = true -> existsb (includes text) l = true.
Proof.
  intros Hin Hword. apply existsb_exists. exists word. split; assumption.
Qed.

(** X14: a recommendation scheduled for 1-3 months always has
    priority [High]; and one that speaks of a target has impact
    [High] and a priority that is not [Low]. *)
Theorem urgent_recommendations_rank_high (rec : string) :
  (estimateTimeframe rec = "1-3 months" -> getPriority rec = "High")
  /\ (includes (toLowerCase rec) "target" = true ->
      estimateImpact rec = "High" /\ getPriority rec <> "Low").
Proof.
  split.
  - unfold estimateTimeframe, getPriority.
    destruct (includes (toLowerCase rec) "immediate") eqn:Himm.
    + intros _.
      rewrite (@existsb_includes (toLowerCase rec) "immediate") by
          (simpl; auto). reflexivity.
    + destruct (includes (toLowerCase rec) "urgent") eqn:Hurg.
      * intros _.
        rewrite (@existsb_includes (toLowerCase rec) "urgent") by
            (simpl; auto). reflexivity.
      * simpl orb. cbv iota.
        destruct (_ || _); [discriminate|]. destruct (_ || _); discriminate.
  - intros Htarget. unfold estimateImpact, getPriority.
    rewrite (@existsb_includes (toLowerCase rec) "target"
               ["reduce"; "increase"; "target"; "goal"; "significant"])
      by (simpl; auto).
    split; [reflexivity|].
    destruct (existsb _ ["urgent"; _; _; _; _]); [discriminate|].
    rewrite (@existsb_includes (toLowerCase rec) "target"
               ["improve"; "optimize"; "enhance"; "target"]) by (simpl; auto).
    discriminate.
Qed.

End BaseAgentLaws.

(** ** The domain agents: when they answer and when they throw *)

Module AgentRunFacts.
Import JsString JsNumber JsValue Runtime Agents Laws BaseAgentFacts.
Local Open Scope js_scope.
#[local] Set Warnings "-inexact-float".

(** Names the pair an [if] computes, without choosing a branch. *)
Ltac name_pairs :=
  repeat match goal with
         | |- context [match ?e with pair _ _ => _ end] =>
             let x := fresh "x" in let y := fresh "y" in destruct e as [x y]
         end.

Section Run.
Context {host : Host}.

Lemma validateData_present (r : record) (fields : list string) (w : World) :
  has_own r "hasOwnProperty" = false ->
  forallb (present r) fields = true ->
  validateData (DObject r) fields w = (Ok true, w).
Proof. apply every_field_present. Qed.

(** *** Packaging *)

Lemma analyzePackagingPerformance_runs (r : record) (w : World) :
  get r "volume" <> VNull ->
  exists analysis, analyzePackagingPerformance r w = (Ok analysis, w).
Proof.
  intros Hvolume. unfold analyzePackagingPerformance. name_pairs.
  destruct (get r "volume") as [| |[|]|number|text]; try contradiction;
    simpl; eexists; reflexivity.
Qed.

Lemma analyzePackagingPerformance_null (r : record) (w : World) :
  get r "volume" = VNull ->
  analyzePackagingPerformance r w
  = (Throw (TypeError "Cannot read properties of null (reading 'toLocaleString')"),
     w).
Proof.
  intros Hvolume. unfold analyzePackagingPerformance. name_pairs.
  rewrite Hvolume. reflexivity.
Qed.

Lemma push_if_length {A} (c : bool) (items l : list A) :
  List.length (push_if c items l)
  = List.length l + if c then List.length items else 0.
Proof. unfold push_if. destruct c; [apply length_app | lia]. Qed.

Lemma if_length {A} (c : bool) (l1 l2 : list A) :
  List.length (if c then l1 else l2)
  = if c then List.length l1 else List.length l2.
Proof. destruct c; reflexivity. Qed.

Ltac count_recommendations :=
  repeat (rewrite length_app || rewrite push_if_length || rewrite if_length);
  cbn [List.length];
  repeat match goal with
         | |- context [if ?c then _ else _] =>
             let b := fresh "b" in generalize c; intros b; destruct b
         end;
  lia.

Lemma generatePackagingRecommendations_length (analysis : PackagingAnalysis) :
  3 <= List.length (generatePackagingRecommendations analysis) <= 15.
Proof. unfold generatePackagingRecommendations. count_recommendations. Qed.

(** *** Emission *)

Lemma calculateEmissionKPIs_returns (r : record) (w : World) :
  exists kpis reads',
    calculateEmissionKPIs r w
    = (Ok kpis, mkWorld (clock w) reads' (logged w))
    /\ reads w <= reads' <= S (reads w)
    /\ targetAchievementScore kpis
       = match targetProgress kpis with
         | Some p => if number_truthy p
                     then Some (float_min 100 (float_max 0 p)) else None
         | None => None
         end.
Proof.
  unfold calculateEmissionKPIs, current_year, bind, new_Date, ret.
  destruct w as [clock0 reads0 logged0].
  destruct (truthy (get r "baseline") && truthy (get r "value"));
    cbn [get_world set_world world_has_world clock reads logged];
    eexists; eexists; (split; [reflexivity|]); (split; [lia|]); reflexivity.
Qed.

Lemma calculateEmissionProjections_returns (r : record) (w : World) :
  exists projections,
    calculateEmissionProjections r w
    = (Ok projections, mkWorld (clock w) (S (reads w)) (logged w)).
Proof.
  unfold calculateEmissionProjections, current_year, bind, new_Date, ret.
  cbn [get_world set_world world_has_world clock reads logged].
  match goal with
  | |- context [if ?c then _ else _] => destruct c
  end; eexists; reflexivity.
Qed.

Lemma analyzeEmissionPerformance_scope (r : record) :
  scope (scopeSpecific (analyzeEmissionPerformance r))
  = determineScope (get r "source").
Proof. unfold analyzeEmissionPerformance. name_pairs. reflexivity. Qed.

Lemma determineScope_cases (source : value) :
  determineScope source = "scope1" \/ determineScope source = "scope2"
  \/ determineScope source = "scope3".
Proof.
  unfold determineScope.
  repeat match goal with
         | |- context [if ?c then _ else _] => destruct c
         end; auto.
Qed.

Lemma generateEmissionRecommendations_length (r : record) :
  6 <= List.length (generateEmissionRecommendations (analyzeEmissionPerformance r))
  <= 15.
Proof.
  unfold generateEmissionRecommendations.
  rewrite analyzeEmissionPerformance_scope.
  cbv zeta.
  destruct (determineScope_cases (get r "source")) as [-> | [-> | ->]];
    repeat match goal with
           | |- context [String.eqb ?a ?b] =>
               let v := eval vm_compute in (String.eqb a b) in
               change (String.eqb a b) with v
           end;
    cbv iota; count_recommendations.
Qed.

Lemma zero_hundred (x : float) :
  PrimFloat.is_nan x = false ->
  PrimFloat.leb 0 (float_min 100 (float_max 0 x)) = true
  /\ PrimFloat.leb (float_min 100 (float_max 0 x)) 100 = true.
Proof.
  intros Hx.
  assert (Hmax : float_max 0 x = if PrimFloat.ltb 0 x then x else 0%float).
  { unfold float_max. rewrite Hx. simpl orb. cbv iota.
    destruct (PrimFloat.ltb 0 x); [reflexivity|].
    destruct (PrimFloat.ltb x 0); reflexivity. }
  rewrite Hmax.
  destruct (PrimFloat.ltb 0 x) eqn:Hlox.
  - assert (Hmin : float_min 100 x = if PrimFloat.ltb 100 x then 100%float else x).
    { unfold float_min. rewrite Hx. simpl orb. cbv iota.
      destruct (PrimFloat.ltb 100 x); [reflexivity|].
      destruct (PrimFloat.ltb x 100); reflexivity. }
    rewrite Hmin.
    destruct (PrimFloat.ltb 100 x) eqn:Hhix.
    + split; vm_compute; reflexivity.
    + split; [apply FloatFacts.ltb_leb; exact Hlox
             | apply FloatFacts.not_ltb_leb; try assumption; reflexivity].
  - split; vm_compute; reflexivity.
Qed.

(** *** Supply chain *)

Lemma split_commas_textual (what : string) (v : value) (w : World) :
  truthy v = true -> textual v = true ->
  exists parts, split_commas what v w = (Ok parts, w).
Proof.
  destruct v as [| |[|]|x|s]; simpl; try discriminate;
    try (intros H1 H2; rewrite H1 in H2; discriminate).
  intros _ _. eexists. reflexivity.
Qed.

Lemma split_commas_fails (what : string) (v : value) (w : World) :
  textual v = false ->
  truthy v = true
  /\ split_commas what v w = (Throw (TypeError (what ++ ".split is not a function")), w).
Proof.
  destruct v as [| |[|]|x|s]; simpl; try discriminate; intros H;
    try (apply negb_false_iff in H; rewrite H); split; reflexivity.
Qed.

Lemma toLocaleString_runs (v : value) (w : World) :
  v <> VNull -> defined v = true -> exists text, toLocaleString v w = (Ok text, w).
Proof.
  destruct v as [| |[|]|x|s]; simpl; try discriminate; try contradiction;
    intros _ _; eexists; reflexivity.
Qed.

Lemma lower_textual (what : string) (v : value) (w : World) :
  truthy v = true -> textual v = true ->
  exists text, lower what v w = (Ok text, w).
Proof.
  destruct v as [| |[|]|x|s]; simpl; try discriminate;
    try (intros H1 H2; rewrite H1 in H2; discriminate).
  intros _ _. eexists. reflexivity.
Qed.

Lemma lower_fails (what : string) (v : value) (w : World) :
  textual v = false ->
  truthy v = true
  /\ lower what v w
     = (Throw (TypeError (what ++ ".toLowerCase is not a function")), w).
Proof.
  destruct v as [| |[|]|x|s]; simpl; try discriminate; intros H;
    try (apply negb_false_iff in H; rewrite H); split; reflexivity.
Qed.

Lemma steady_ret {A} (a : A) : steady (ret a).
Proof. intros w. exists a. reflexivity. Qed.

Lemma steady_bind {A B} (m : M World A) (k : A -> M World B) :
  steady m -> (forall a, steady (k a)) -> steady (bind m k).
Proof.
  intros Hm Hk w. unfold bind. destruct (Hm w) as [a ->]. apply Hk.
Qed.

Lemma steady_split_commas (what : string) (v : value) :
  truthy v = true -> textual v = true -> steady (split_commas what v).
Proof. intros Ht Hs w. apply split_commas_textual; assumption. Qed.

Lemma steady_toLocaleString (v : value) :
  v <> VNull -> defined v = true -> steady (toLocaleString v).
Proof. intros Hn Hd w. apply toLocaleString_runs; assumption. Qed.

Lemma steady_lower (what : string) (v : value) :
  truthy v = true -> textual v = true -> steady (lower what v).
Proof. intros Ht Hs w. apply lower_textual; assumption. Qed.

Ltac steady_step :=
  match goal with
  | |- steady (ret _) => apply steady_ret
  | |- steady (bind _ _) => apply steady_bind; [|intros ?]
  | |- steady (split_commas _ _) => apply steady_split_commas; assumption
  | |- steady (toLocaleString _) => apply steady_toLocaleString; assumption
  | |- steady (lower _ _) => apply steady_lower; assumption
  | |- steady (match ?e with pair _ _ => _ end) => destruct e
  | |- steady (if ?c then _ else _) => destruct c eqn:?
  end.

Lemma analyzeSupplierPerformance_steady (r : record) :
  textual (get r "certifications") = true ->
  get r "contractValue" <> VNull ->
  textual (get r "riskLevel") = true ->
  steady (analyzeSupplierPerformance r).
Proof.
  intros Hcerts Hvalue Hrisk. unfold analyzeSupplierPerformance.
  repeat steady_step.
Qed.

Lemma calculateSupplyChainKPIs_steady (r : record) :
  textual (get r "certifications") = true ->
  steady (calculateSupplyChainKPIs r).
Proof.
  intros Hcerts. unfold calculateSupplyChainKPIs. repeat steady_step.
Qed.

Lemma throws_throw {A} (e : Exn) : throws (A:=A) e (throw e).
Proof. intros w. reflexivity. Qed.

Lemma throws_bind {A B} (e : Exn) (m : M World A) (k : A -> M World B) :
  throws e m -> throws e (bind m k).
Proof. intros Hm w. unfold bind. rewrite Hm. reflexivity. Qed.

Lemma throws_after {A B} (e : Exn) (m : M World A) (k : A -> M World B) :
  steady m -> (forall a, throws e (k a)) -> throws e (bind m k).
Proof. intros Hm Hk w. unfold bind. destruct (Hm w) as [a ->]. apply Hk. Qed.

Lemma throws_split_commas (what : string) (v : value) :
  textual v = false ->
  throws (TypeError (what ++ ".split is not a function")) (split_commas what v).
Proof. intros Hv w. apply split_commas_fails. exact Hv. Qed.

Lemma throws_lower (what : string) (v : value) :
  textual v = false ->
  throws (TypeError (what ++ ".toLowerCase is not a function")) (lower what v).
Proof. intros Hv w. apply lower_fails. exact Hv. Qed.

Lemma textual_truthy (v : value) : textual v = false -> truthy v = true.
Proof.
  destruct v as [| |[|]|x|s]; simpl; try discriminate; try reflexivity.
  intros Hx. apply negb_false_iff in Hx. exact Hx.
Qed.

Lemma analyzeSupplierPerformance_certifications (r : record) :
  textual (get r "certifications") = false ->
  throws (TypeError "data.certifications.split is not a function")
         (analyzeSupplierPerformance r).
Proof.
  intros Hcerts. unfold analyzeSupplierPerformance. name_pairs.
  apply throws_bind. rewrite (textual_truthy _ Hcerts).
  apply throws_bind. apply (@throws_split_commas "data.certifications"). exact Hcerts.
Qed.

Lemma analyzeSupplierPerformance_contractValue (r : record) :
  textual (get r "certifications") = true ->
  get r "contractValue" = VNull ->
  throws (TypeError "Cannot read properties of null (reading 'toLocaleString')")
         (analyzeSupplierPerformance r).
Proof.
  intros Hcerts Hvalue. unfold analyzeSupplierPerformance. name_pairs.
  apply throws_after; [repeat steady_step|].
  intros [[insights count] items]. name_pairs.
  apply throws_bind. rewrite Hvalue. simpl defined. cbv iota.
  apply throws_bind. intros w. reflexivity.
Qed.

Lemma analyzeSupplierPerformance_riskLevel (r : record) :
  textual (get r "certifications") = true ->
  get r "contractValue" <> VNull ->
  textual (get r "riskLevel") = false ->
  throws (TypeError "data.riskLevel.toLowerCase is not a function")
         (analyzeSupplierPerformance r).
Proof.
  intros Hcerts Hvalue Hrisk. unfold analyzeSupplierPerformance. name_pairs.
  apply throws_after; [repeat steady_step|].
  intros [[insights count] items]. name_pairs.
  apply throws_after; [repeat steady_step|].
  intros [insights' category]. rewrite (textual_truthy _ Hrisk).
  apply throws_bind. apply (@throws_lower "data.riskLevel"). exact Hrisk.
Qed.

Lemma generateSupplyChainRecommendations_length (analysis : SupplierAnalysis) :
  3 <= List.length (generateSupplyChainRecommendations analysis) <= 21.
Proof. unfold generateSupplyChainRecommendations. count_recommendations. Qed.

(** *** Regulatory *)

Lemma quiet_ret {A} (a : A) (P : A -> Prop) : P a -> quiet (ret a) P.
Proof. intros Ha w. exists a, w. repeat split. exact Ha. Qed.

Lemma quiet_bind {A B} (m : M World A) (k : A -> M World B)
      (P : A -> Prop) (Q : B -> Prop) :
  quiet m P -> (forall a, P a -> quiet (k a) Q) -> quiet (bind m k) Q.
Proof.
  intros Hm Hk w. unfold bind.
  destruct (Hm w) as (a & w1 & -> & Hclock & Hlog & Ha).
  destruct (Hk a Ha w1) as (b & w2 & -> & Hclock2 & Hlog2 & Hb).
  exists b, w2. repeat split; [congruence | congruence | exact Hb].
Qed.

Lemma steady_quiet {A} (m : M World A) : steady m -> quiet m (fun _ => True).
Proof. intros Hm w. destruct (Hm w) as [a ->]. exists a, w. repeat split. Qed.

Lemma quiet_new_Date (P : float -> Prop) :
  (forall t, P t) -> quiet new_Date P.
Proof. intros HP w. eexists. eexists. split; [reflexivity|]. repeat split. apply HP. Qed.

Lemma quiet_calculateDaysToDeadline (deadline : value) :
  quiet (calculateDaysToDeadline deadline) (fun _ => True).
Proof.
  unfold calculateDaysToDeadline.
  eapply quiet_bind; [apply (@quiet_new_Date (fun _ => True)); auto|].
  intros today _. apply quiet_ret. exact I.
Qed.

Lemma steady_findRegulation (regulationName : value) (region : string) :
  steady (findRegulation regulationName (VStr region)).
Proof. intros w. eexists. reflexivity. Qed.

Lemma fails_throws {A} (e : Exn) (m : M World A) : throws e m -> fails e m.
Proof. intros Hm w. exists w. rewrite Hm. repeat split. Qed.

Lemma fails_bind {A B} (e : Exn) (m : M World A) (k : A -> M World B) :
  fails e m -> fails e (bind m k).
Proof.
  intros Hm w. unfold bind. destruct (Hm w) as (w' & -> & Hc & Hl).
  exists w'. repeat split; assumption.
Qed.

Lemma fails_after {A B} (e : Exn) (m : M World A) (k : A -> M World B)
      (P : A -> Prop) :
  quiet m P -> (forall a, fails e (k a)) -> fails e (bind m k).
Proof.
  intros Hm Hk w. unfold bind.
  destruct (Hm w) as (a & w1 & -> & Hclock & Hlog & _).
  destruct (Hk a w1) as (w2 & -> & Hclock2 & Hlog2).
  exists w2. repeat split; congruence.
Qed.

Ltac quiet_step :=
  match goal with
  | |- quiet (ret _) _ => apply (@quiet_ret _ _ (fun _ => True)); exact I
  | |- quiet (bind _ _) _ => eapply quiet_bind; [|intros ? ?]
  | |- quiet (calculateDaysToDeadline _) _ => apply quiet_calculateDaysToDeadline
  | |- quiet (findRegulation _ (VStr _)) _ =>
      apply steady_quiet, steady_findRegulation
  | |- quiet (split_commas _ _) _ =>
      apply steady_quiet, steady_split_commas; assumption
  | |- quiet (match ?e with pair _ _ => _ end) _ => destruct e
  | |- quiet (if ?c then _ else _) _ => destruct c eqn:?
  | |- quiet (match ?p with Own _ => _ | Inherited _ => _ | Undefined => _ end) _ =>
      destruct p
  end.

Lemma analyzeComplianceStatus_quiet (r : record) (region : string) :
  get r "region" = VStr region ->
  textual (get r "actions") = true ->
  quiet (analyzeComplianceStatus r) (fun _ => True).
Proof.
  intros Hregion Hactions. unfold analyzeComplianceStatus. rewrite Hregion.
  repeat quiet_step.
Qed.

Lemma analyzeComplianceStatus_region (r : record) :
  present r "region" = true ->
  (forall region, get r "region" <> VStr region) ->
  throws (TypeError "region.toLowerCase is not a function")
         (analyzeComplianceStatus r).
Proof.
  intros Hpresent Hregion. unfold analyzeComplianceStatus, findRegulation.
  apply throws_bind, throws_bind. intros w.
  unfold present in Hpresent. apply andb_prop in Hpresent.
  destruct Hpresent as [_ Hpresent].
  destruct (get r "region") as [| |b|x|s]; try discriminate; try reflexivity.
  exfalso. apply (Hregion s). reflexivity.
Qed.

Lemma analyzeComplianceStatus_actions (r : record) (region : string) :
  get r "region" = VStr region ->
  textual (get r "actions") = false ->
  fails (TypeError "data.actions.split is not a function")
        (analyzeComplianceStatus r).
Proof.
  intros Hregion Hactions. unfold analyzeComplianceStatus. rewrite Hregion.
  eapply fails_after; [apply steady_quiet, steady_findRegulation|].
  intros regulation.
  eapply fails_after; [repeat quiet_step|].
  intros [[insights days] urgency]. name_pairs.
  apply fails_bind. rewrite (textual_truthy _ Hactions).
  apply fails_bind, fails_throws.
  apply (@throws_split_commas "data.actions"). exact Hactions.
Qed.

Lemma calculateComplianceKPIs_quiet (r : record) (region : string) :
  get r "region" = VStr region ->
  quiet (calculateComplianceKPIs r) (fun _ => True).
Proof.
  intros Hregion. unfold calculateComplianceKPIs. rewrite Hregion.
  eapply quiet_bind; [|intros days _].
  { destruct (truthy (get r "deadline")).
    - eapply quiet_bind; [apply quiet_calculateDaysToDeadline|].
      intros d _. apply (@quiet_ret _ _ (fun _ => True)). exact I.
    - apply (@quiet_ret _ _ (fun _ => True)). exact I. }
  eapply quiet_bind; [apply steady_quiet, steady_findRegulation|].
  intros regulation _. name_pairs. apply quiet_ret. exact I.
Qed.

Lemma assessRegulatoryRisk_quiet (r : record) (region : string) :
  get r "region" = VStr region ->
  quiet (assessRegulatoryRisk r)
        (fun a => (overallRisk a = "High" \/ overallRisk a = "Medium")
                  /\ List.length (riskFactors a)
                     = List.length (mitigationStrategies a)
                  /\ List.length (riskFactors a) <= 4).
Proof.
  intros Hregion. unfold assessRegulatoryRisk. rewrite Hregion.
  eapply quiet_bind; [|intros near _].
  { destruct (truthy (get r "deadline")).
    - eapply quiet_bind; [apply quiet_calculateDaysToDeadline|].
      intros d _. apply (@quiet_ret _ _ (fun _ => True)). exact I.
    - apply (@quiet_ret _ _ (fun _ => True)). exact I. }
  eapply quiet_bind; [apply steady_quiet, steady_findRegulation|].
  intros regulation _. apply quiet_ret. unfold push_if.
  cbn [overallRisk riskFactors mitigationStrategies].
  destruct (is_string (get r "complianceStatus") "Non-Compliant"), near,
    (match regulation with Own reg => String.eqb (reg_riskLevel reg) "High"
                      | _ => false end),
    (is_string (VStr region) "Europe"); simpl; repeat split; auto; lia.
Qed.

Lemma generateComplianceRecommendations_length (analysis : ComplianceAnalysis) :
  4 <= List.length (generateComplianceRecommendations analysis) <= 16.
Proof. unfold generateComplianceRecommendations. count_recommendations. Qed.

End Run.
End AgentRunFacts.

Module AgentRunLaws.
Import JsString JsNumber JsValue Runtime Agents Laws BaseAgentFacts AgentRunFacts.
Local Open Scope js_scope.
#[local] Set Warnings "-inexact-float".

(** X15: a packaging record that passes validation is analysed
    unless its [volume] is [null]: then the analysis throws a
    [TypeError], which is logged and thrown again.  In every other
    case the agent returns insights for the agent [packaging], with a
    confidence between 0.7 and 0.95 and between 3 and 15
    recommendations, after one line of log and one reading of the
    clock. *)
Theorem packaging_outcome {host : Host} (r : record) (w : World) :
  has_own r "hasOwnProperty" = false ->
  present r "material" = true -> present r "region" = true ->
  (get r "volume" = VNull ->
   generateInsights_packaging (DObject r) w
   = (Throw (TypeError "Cannot read properties of null (reading 'toLocaleString')"),
      mkWorld (clock w) (reads w)
              (logged w
               ++ [mkLog "error"
                         ("Error generating packaging insights: "
                          ++ "Cannot read properties of null (reading 'toLocaleString')")])))
  /\ (get r "volume" <> VNull ->
      exists i,
        generateInsights_packaging (DObject r) w
        = (Ok i,
           mkWorld (clock w) (S (reads w))
                   (logged w
                    ++ [mkLog "info"
                              ("Generated packaging insights for "
                               ++ to_string (get r "material") ++ " in "
                               ++ to_string (get r "region"))]))
        /\ p_agent i = "packaging"
        /\ p_timestamp i = Date_toISOString (clock w (reads w))
        /\ PrimFloat.leb 0.7 (p_confidence i) = true
        /\ PrimFloat.leb (p_confidence i) 0.95 = true
        /\ 3 <= List.length (p_recommendations i) <= 15).
Proof.
  intros Hown Hmaterial Hregion.
  assert (Hvalid : validateData (DObject r) ["material"; "region"] w = (Ok true, w)).
  { apply validateData_present; [exact Hown|]. simpl.
    rewrite Hmaterial, Hregion. reflexivity. }
  split; intros Hvolume.
  - unfold generateInsights_packaging, try_catch, bind. rewrite Hvalid.
    rewrite analyzePackagingPerformance_null by exact Hvolume. reflexivity.
  - destruct (analyzePackagingPerformance_runs r w Hvolume) as [analysis Hrun].
    unfold generateInsights_packaging, try_catch, bind. rewrite Hvalid, Hrun.
    unfold logger, timestamp_now, bind, new_Date, ret. cbn [get_world set_world
      world_has_world clock reads logged].
    eexists. split; [reflexivity|]. cbn [p_agent p_timestamp p_confidence p_recommendations].
    split; [reflexivity|]. split; [reflexivity|].
    destruct (calculateConfidence_range "packaging" r (join " " (pa_insights analysis)))
      as (_ & Hhigh & Hlow).
    split; [apply Hlow; [discriminate|]|split; [exact Hhigh|]].
    + unfold present in Hmaterial. apply andb_prop in Hmaterial.
      apply (@has_own_keys r "material"), Hmaterial.
    + rewrite formatRecommendations_length.
      apply generatePackagingRecommendations_length.
Qed.

Lemma packaging_outcome_witness :
  has_own Scenarios.packaging_example "hasOwnProperty" = false
  /\ present Scenarios.packaging_example "material" = true
  /\ present Scenarios.packaging_example "region" = true
  /\ get Scenarios.packaging_example "volume" <> VNull
  /\ exists i,
       fst (generateInsights_packaging (host:=ExampleHost.utc_host)
              (DObject Scenarios.packaging_example)
              (ExampleHost.world_at 1735000000000))
       = Ok i
       /\ 3 <= List.length (p_recommendations i) <= 15.
Proof.
  assert (Hvolume : get Scenarios.packaging_example "volume" <> VNull)
    by discriminate.
  split; [reflexivity|]. split; [reflexivity|]. split; [reflexivity|].
  split; [exact Hvolume|].
  destruct (proj2 (@packaging_outcome ExampleHost.utc_host
                     Scenarios.packaging_example
                     (ExampleHost.world_at 1735000000000)
                     eq_refl eq_refl eq_refl) Hvolume)
    as (i & Hrun & _ & _ & _ & _ & Hcount).
  exists i. rewrite Hrun. split; [reflexivity | exact Hcount].
Defined.

(** X16: the emission agent returns insights for every record that
    passes validation: nothing in the analysis can throw.  The result
    names the agent [emission], has a confidence between 0.7 and 0.95
    and between 6 and 15 recommendations; one line is logged and the
    clock is read two or three times. *)
Theorem emission_outcome {host : Host} (r : record) (w : World) :
  has_own r "hasOwnProperty" = false ->
  present r "source" = true -> present r "value" = true ->
  present r "unit" = true ->
  exists i reads',
    generateInsights_emission (DObject r) w
    = (Ok i,
       mkWorld (clock w) reads'
               (logged w
                ++ [mkLog "info"
                          ("Generated emission insights for "
                           ++ to_string (get r "source") ++ " in "
                           ++ region_or_global r)]))
    /\ reads w + 2 <= reads' <= reads w + 3
    /\ e_agent i = "emission"
    /\ PrimFloat.leb 0.7 (e_confidence i) = true
    /\ PrimFloat.leb (e_confidence i) 0.95 = true
    /\ 6 <= List.length (e_recommendations i) <= 15.
Proof.
  intros Hown Hsource Hvalue Hunit.
  assert (Hvalid : validateData (DObject r) ["source"; "value"; "unit"] w = (Ok true, w)).
  { apply validateData_present; [exact Hown|]. simpl.
    rewrite Hsource, Hvalue, Hunit. reflexivity. }
  unfold generateInsights_emission, try_catch, bind. rewrite Hvalid.
  destruct (calculateEmissionKPIs_returns r w) as (kpis & reads1 & Hk & Hreads & _).
  rewrite Hk.
  destruct (calculateEmissionProjections_returns r
              (mkWorld (clock w) reads1 (logged w))) as (projections & Hp).
  rewrite Hp.
  unfold logger, timestamp_now, bind, new_Date, ret. cbn [get_world set_world
    world_has_world clock reads logged].
  eexists. eexists. split; [reflexivity|].
  cbn [e_agent e_confidence e_recommendations].
  split; [lia|]. split; [reflexivity|].
  destruct (calculateConfidence_range "emission" r
              (join " " (ea_insights (analyzeEmissionPerformance r))))
    as (_ & Hhigh & Hlow).
  split; [apply Hlow; [discriminate|]|split; [exact Hhigh|]].
  - unfold present in Hsource. apply andb_prop in Hsource.
    apply (@has_own_keys r "source"), Hsource.
  - rewrite formatRecommendations_length.
    apply generateEmissionRecommendations_length.
Qed.

Lemma emission_outcome_witness :
  has_own Scenarios.emission_example "hasOwnProperty" = false
  /\ present Scenarios.emission_example "source" = true
  /\ present Scenarios.emission_example "value" = true
  /\ present Scenarios.emission_example "unit" = true
  /\ exists i,
       fst (generateInsights_emission (host:=ExampleHost.utc_host)
              (DObject Scenarios.emission_example)
              (ExampleHost.world_at 1735000000000))
       = Ok i
       /\ 6 <= List.length (e_recommendations i) <= 15.
Proof.
  split; [reflexivity|]. split; [reflexivity|]. split; [reflexivity|].
  split; [reflexivity|].
  destruct (@emission_outcome ExampleHost.utc_host Scenarios.emission_example
              (ExampleHost.world_at 1735000000000)
              eq_refl eq_refl eq_refl eq_refl)
    as (i & reads' & Hrun & _ & _ & _ & _ & Hcount).
  exists i. rewrite Hrun. split; [reflexivity | exact Hcount].
Defined.

(** X17: the KPI computation of the emission agent always returns.
    Its [targetAchievementScore], when there is one, lies between 0
    and 100; and there is none when the progress towards the target is
    0 (a value equal to its baseline) or not a number, as 0 and NaN
    count as absent. *)
Theorem emission_achievement_score {host : Host} (r : record) (w : World) :
  exists kpis w',
    calculateEmissionKPIs r w = (Ok kpis, w')
    /\ (forall score, targetAchievementScore kpis = Some score ->
        PrimFloat.leb 0 score = true /\ PrimFloat.leb score 100 = true)
    /\ (forall progress, targetProgress kpis = Some progress ->
        PrimFloat.is_zero progress || PrimFloat.is_nan progress = true ->
        targetAchievementScore kpis = None).
Proof.
  destruct (calculateEmissionKPIs_returns r w) as (kpis & reads1 & Hk & _ & Hscore).
  exists kpis. eexists. split; [exact Hk|]. rewrite Hscore. split.
  - intros score. destruct (targetProgress kpis) as [p|]; [|discriminate].
    destruct (number_truthy p) eqn:Hp; [|discriminate].
    intros [= <-]. apply zero_hundred.
    unfold number_truthy in Hp. apply negb_true_iff, orb_false_iff in Hp.
    apply Hp.
  - intros progress -> Hfalsy. unfold number_truthy. rewrite Hfalsy. reflexivity.
Qed.

(** X18: a supplier record that passes validation is analysed when
    its certifications and its risk level are strings or falsy and
    its contract value is not [null].  Otherwise the analysis throws a
    [TypeError]: for certifications that are not a string, for a
    contract value [null], for a risk level that is not a string, in
    this order of precedence; the error is logged and thrown again.
    An analysis that succeeds names the agent [supplyChain], has a
    confidence between 0.7 and 0.95 and between 3 and 21
    recommendations. *)
Theorem supplyChain_outcome {host : Host} (r : record) (w : World) :
  has_own r "hasOwnProperty" = false ->
  present r "supplier" = true -> present r "sustainabilityScore" = true ->
  let failed message :=
    generateInsights_supplyChain (DObject r) w
    = (Throw (TypeError message),
       mkWorld (clock w) (reads w)
               (logged w
                ++ [mkLog "error"
                          ("Error generating supply chain insights: " ++ message)])) in
  (textual (get r "certifications") = false ->
   failed "data.certifications.split is not a function")
  /\ (textual (get r "certifications") = true -> get r "contractValue" = VNull ->
      failed "Cannot read properties of null (reading 'toLocaleString')")
  /\ (textual (get r "certifications") = true -> get r "contractValue" <> VNull ->
      textual (get r "riskLevel") = false ->
      failed "data.riskLevel.toLowerCase is not a function")
  /\ (textual (get r "certifications") = true -> get r "contractValue" <> VNull ->
      textual (get r "riskLevel") = true ->
      exists i,
        generateInsights_supplyChain (DObject r) w
        = (Ok i,
           mkWorld (clock w) (S (reads w))
                   (logged w
                    ++ [mkLog "info"
                              ("Generated supply chain insights for "
                               ++ to_string (get r "supplier") ++ " in "
                               ++ region_or_global r)]))
        /\ s_agent i = "supplyChain"
        /\ PrimFloat.leb 0.7 (s_confidence i) = true
        /\ PrimFloat.leb (s_confidence i) 0.95 = true
        /\ 3 <= List.length (s_recommendations i) <= 21).
Proof.
  intros Hown Hsupplier Hscore failed. subst failed. cbv beta.
  assert (Hvalid : validateData (DObject r) ["supplier"; "sustainabilityScore"] w
                   = (Ok true, w)).
  { apply validateData_present; [exact Hown|]. simpl.
    rewrite Hsupplier, Hscore. reflexivity. }
  split; [|split; [|split]].
  - intros Hcerts.
    unfold generateInsights_supplyChain, try_catch. unfold bind at 1. rewrite Hvalid.
    unfold bind at 1.
    pose proof (analyzeSupplierPerformance_certifications r Hcerts w) as Hthrown.
    rewrite Hthrown. reflexivity.
  - intros Hcerts Hvalue.
    unfold generateInsights_supplyChain, try_catch. unfold bind at 1. rewrite Hvalid.
    unfold bind at 1.
    pose proof (analyzeSupplierPerformance_contractValue r Hcerts Hvalue w) as Hthrown.
    rewrite Hthrown. reflexivity.
  - intros Hcerts Hvalue Hrisk.
    unfold generateInsights_supplyChain, try_catch. unfold bind at 1. rewrite Hvalid.
    unfold bind at 1.
    pose proof (analyzeSupplierPerformance_riskLevel r Hcerts Hvalue Hrisk w) as Hthrown.
    rewrite Hthrown. reflexivity.
  - intros Hcerts Hvalue Hrisk.
    unfold generateInsights_supplyChain, try_catch. unfold bind at 1. rewrite Hvalid.
    unfold bind at 1.
    destruct (analyzeSupplierPerformance_steady r Hcerts Hvalue Hrisk w)
      as [analysis ->].
    unfold bind at 1.
    destruct (calculateSupplyChainKPIs_steady r Hcerts w) as [kpis ->].
    unfold logger, timestamp_now, bind, new_Date, ret. cbn [get_world set_world
      world_has_world clock reads logged].
    eexists. split; [reflexivity|]. cbn [s_agent s_confidence s_recommendations].
    split; [reflexivity|].
    destruct (calculateConfidence_range "supplyChain" r
                (join " " (sa_insights analysis))) as (_ & Hhigh & Hlow).
    split; [apply Hlow; [discriminate|]|split; [exact Hhigh|]].
    + unfold present in Hsupplier. apply andb_prop in Hsupplier.
      apply (@has_own_keys r "supplier"), Hsupplier.
    + rewrite formatRecommendations_length.
      apply generateSupplyChainRecommendations_length.
Qed.

Lemma supplyChain_outcome_witness :
  has_own Scenarios.supplier_example "hasOwnProperty" = false
  /\ present Scenarios.supplier_example "supplier" = true
  /\ present Scenarios.supplier_example "sustainabilityScore" = true
  /\ exists i,
       fst (generateInsights_supplyChain (host:=ExampleHost.utc_host)
              (DObject Scenarios.supplier_example)
              (ExampleHost.world_at 1735000000000))
       = Ok i
       /\ 3 <= List.length (s_recommendations i) <= 21.
Proof.
  assert (Hvalue : get Scenarios.supplier_example "contractValue" <> VNull)
    by discriminate.
  split; [reflexivity|]. split; [reflexivity|]. split; [reflexivity|].
  destruct (proj2 (proj2 (proj2
              (@supplyChain_outcome ExampleHost.utc_host
                 Scenarios.supplier_example
                 (ExampleHost.world_at 1735000000000)
                 eq_refl eq_refl eq_refl)))
              eq_refl Hvalue eq_refl)
    as (i & Hrun & _ & _ & _ & Hcount).
  exists i. rewrite Hrun. split; [reflexivity | exact Hcount].
Defined.

(** X19: a compliance record that passes validation is analysed when
    its region is a string and its actions are a string or falsy.  A
    region that is not a string makes the analysis throw a
    [TypeError], which is logged and thrown again; so do actions that
    are not a string.  An analysis that succeeds names the agent
    [regulatory], has a confidence between 0.7 and 0.95 and between 4
    and 16 recommendations; its risk assessment is [High] or
    [Medium], never [Low], with a mitigation strategy for each of its
    at most four risk factors; and one line is logged.  (Regions
    whose key is a member of [Object.prototype] are left out.) *)
Theorem regulatory_outcome {host : Host} (r : record) (w : World) :
  has_own r "hasOwnProperty" = false ->
  present r "regulation" = true -> present r "region" = true ->
  ((forall region, get r "region" <> VStr region) ->
   generateInsights_regulatory (DObject r) w
   = (Throw (TypeError "region.toLowerCase is not a function"),
      mkWorld (clock w) (reads w)
              (logged w
               ++ [mkLog "error"
                         ("Error generating regulatory insights: "
                          ++ "region.toLowerCase is not a function")])))
  /\ (forall region,
        get r "region" = VStr region ->
        ~ In (remove_first " " (toLowerCase region)) object_prototype_names ->
        (textual (get r "actions") = false ->
         fst (generateInsights_regulatory (DObject r) w)
         = Throw (TypeError "data.actions.split is not a function"))
        /\ (textual (get r "actions") = true ->
            exists i w',
              generateInsights_regulatory (DObject r) w = (Ok i, w')
              /\ logged w'
                 = logged w
                   ++ [mkLog "info"
                             ("Generated regulatory insights for "
                              ++ to_string (get r "regulation") ++ " in " ++ region)]
              /\ r_agent i = "regulatory"
              /\ PrimFloat.leb 0.7 (r_confidence i) = true
              /\ PrimFloat.leb (r_confidence i) 0.95 = true
              /\ 4 <= List.length (r_recommendations i) <= 16
              /\ (overallRisk (r_riskAssessment i) = "High"
                  \/ overallRisk (r_riskAssessment i) = "Medium")
              /\ List.length (riskFactors (r_riskAssessment i))
                 = List.length (mitigationStrategies (r_riskAssessment i))
              /\ List.length (riskFactors (r_riskAssessment i)) <= 4)).
Proof.
  intros Hown Hregulation Hpresent.
  assert (Hvalid : validateData (DObject r) ["regulation"; "region"] w = (Ok true, w)).
  { apply validateData_present; [exact Hown|]. simpl.
    rewrite Hregulation, Hpresent. reflexivity. }
  split.
  - intros Hregion.
    unfold generateInsights_regulatory, try_catch. unfold bind at 1. rewrite Hvalid.
    unfold bind at 1.
    pose proof (analyzeComplianceStatus_region r Hpresent Hregion w) as Hthrown.
    rewrite Hthrown. reflexivity.
  - intros region Hregion _. split; intros Hactions.
    + unfold generateInsights_regulatory, try_catch. unfold bind at 1. rewrite Hvalid.
      unfold bind at 1.
      destruct (analyzeComplianceStatus_actions r Hregion Hactions w)
        as (w1 & -> & _). reflexivity.
    + unfold generateInsights_regulatory, try_catch. unfold bind at 1. rewrite Hvalid.
      unfold bind at 1.
      destruct (analyzeComplianceStatus_quiet r Hregion Hactions w)
        as (analysis & w1 & -> & Hclock1 & Hlog1 & _).
      unfold bind at 1.
      destruct (calculateComplianceKPIs_quiet r Hregion w1)
        as (kpis & w2 & -> & Hclock2 & Hlog2 & _).
      unfold bind at 1.
      destruct (assessRegulatoryRisk_quiet r Hregion w2)
        as (risk & w3 & -> & Hclock3 & Hlog3 & Hrisk & Hpairs & Hcount).
      unfold logger, timestamp_now, bind, new_Date, ret. cbn [get_world set_world
        world_has_world clock reads logged].
      eexists. eexists. split; [reflexivity|].
      cbn [logged r_agent r_confidence r_recommendations r_riskAssessment].
      split; [rewrite Hlog3, Hlog2, Hlog1, Hregion; reflexivity|].
      split; [reflexivity|].
      destruct (calculateConfidence_range "regulatory" r
                  (join " " (ca_insights analysis))) as (_ & Hhigh & Hlow).
      split; [apply Hlow; [discriminate|]|split; [exact Hhigh|]].
      * unfold present in Hregulation. apply andb_prop in Hregulation.
        apply (@has_own_keys r "regulation"), Hregulation.
      * split; [rewrite formatRecommendations_length;
                apply generateComplianceRecommendations_length|].
        split; [exact Hrisk|]. split; [exact Hpairs | exact Hcount].
Qed.

Lemma regulatory_outcome_witness :
  has_own ExampleHost.compliance_example "hasOwnProperty" = false
  /\ present ExampleHost.compliance_example "regulation" = true
  /\ present ExampleHost.compliance_example "region" = true
  /\ ~ In (remove_first " " (toLowerCase "Europe")) object_prototype_names
  /\ exists i,
       fst (generateInsights_regulatory (host:=ExampleHost.utc_host)
              (DObject ExampleHost.compliance_example)
              (ExampleHost.world_at 1735000000000))
       = Ok i
       /\ 4 <= List.length (r_recommendations i) <= 16.
Proof.
  assert (Hkey : ~ In (remove_first " " (toLowerCase "Europe"))
                      object_prototype_names).
  { vm_compute. intros H. repeat (destruct H as [H|H]; [discriminate|]). exact H. }
  split; [reflexivity|]. split; [reflexivity|]. split; [reflexivity|].
  split; [exact Hkey|].
  destruct (proj2 (proj2 (@regulatory_outcome ExampleHost.utc_host
                            ExampleHost.compliance_example
                            (ExampleHost.world_at 1735000000000)
                            eq_refl eq_refl eq_refl)
                     "Europe" eq_refl Hkey) eq_refl)
    as (i & w' & Hrun & _ & _ & _ & _ & Hcount & _).
  exists i. rewrite Hrun. split; [reflexivity | exact Hcount].
Defined.

End AgentRunLaws.

Module RiskFacts.
Import JsString JsNumber JsValue Runtime Agents Laws.
#[local] Set Warnings "-inexact-float".

Lemma tally_first (present : bool) (risk : nat) (x y : string) :
  risk <= 3 ->
  tally_ok 1 (if present then 3 else 0) 3
           (if present
            then (risk, 3, push_if (0 <? risk) [x] [], push_if (0 <? risk) [y] [])
            else (0, 0, [], [])).
Proof.
  intros Hrisk. unfold tally_ok, push_if.
  destruct present; [|simpl; repeat split; lia].
  destruct risk as [|risk]; simpl; repeat split; try lia; try discriminate; reflexivity.
Qed.

Lemma tally_step (stages floor bound rs mx : nat) (f s : list string)
      (present : bool) (risk k : nat) (x y : string) :
  tally_ok stages floor bound (rs, mx, f, s) -> risk <= k ->
  tally_ok (S stages) floor (bound + k)
           (if present
            then (rs + risk, mx + k,
                  push_if (0 <? risk) [x] f, push_if (0 <? risk) [y] s)
            else (rs, mx, f, s)).
Proof.
  unfold tally_ok, push_if. intros (Hlen & Hst & Hrs & Hmx & Hnil) Hrisk.
  destruct present; [|repeat split; try lia; apply Hnil].
  destruct risk as [|risk].
  - change (0 <? 0) with false. cbv iota.
    rewrite Nat.add_0_r. repeat split; try lia; apply Hnil.
  - change (0 <? S risk) with true. cbv iota.
    rewrite !length_app. simpl. repeat split; try lia.
    intros Happ. apply app_eq_nil in Happ. destruct Happ as [_ Hx]. discriminate.
Qed.

(** The percentage of a score within a maximum of at most 7. *)
Lemma percentage_cases (rs mx : nat) :
  rs <= mx -> 0 < mx <= 7 ->
  let p := (num rs / num mx * 100)%float in
  PrimFloat.leb 0 p = true /\ PrimFloat.leb p 100 = true
  /\ (rs = 0 <-> PrimFloat.eqb p 0 = true)
  /\ (rs = 0 -> gt p 60 = false /\ gt p 30 = false).
Proof.
  intros Hrs Hmx.
  assert (Hb : mx = 1 \/ mx = 2 \/ mx = 3 \/ mx = 4 \/ mx = 5 \/ mx = 6 \/ mx = 7) by lia.
  assert (Ha : rs = 0 \/ rs = 1 \/ rs = 2 \/ rs = 3 \/ rs = 4 \/ rs = 5 \/ rs = 6
               \/ rs = 7) by lia.
  destruct Hb as [->|[->|[->|[->|[->|[->| ->]]]]]];
    destruct Ha as [->|[->|[->|[->|[->|[->|[->| ->]]]]]]]; try lia;
    vm_compute; repeat split; try reflexivity; try lia; intros; discriminate.
Qed.

Section Risk.
Context {host : Host}.

Ltac stage :=
  match goal with
  | H : tally_ok _ _ _ _
    |- context [match (if ?c then (_ + ?risk, _ + ?k, push_if _ [?x] _, push_if _ [?y] _)
                       else _) with pair _ _ => _ end] =>
      let Hrisk := fresh "Hrisk" in
      assert (Hrisk : risk <= k)
        by (repeat match goal with
                   | |- context [if ?b then _ else _] => destruct b
                   end; lia);
      pose proof (@tally_step _ _ _ _ _ _ _ c risk k x y H Hrisk);
      clear H Hrisk;
      match goal with
      | |- context [match ?e with pair _ _ => _ end] =>
          destruct e as [[[? ?] ?] ?]
      end
  end.

Lemma assessSupplierRisk_tally (r : record) :
  exists rs mx factors strategies,
    tally_ok 4 (if defined (get r "sustainabilityScore") then 3 else 0) 7
             (rs, mx, factors, strategies)
    /\ assessSupplierRisk r
       = if (0 <? mx)%nat
         then mkRiskAssessment
                (if gt (num rs / num mx * 100) 60 then "High"
                 else if gt (num rs / num mx * 100) 30 then "Medium" else "Low")
                factors strategies (Some (num rs / num mx * 100)%float)
         else mkRiskAssessment "Medium" factors strategies None.
Proof.
  unfold assessSupplierRisk. cbv zeta.
  match goal with
  | |- context [match (if ?c then (?risk, 3, push_if _ [?x] [], push_if _ [?y] [])
                       else _) with pair _ _ => _ end] =>
      assert (Hrisk : risk <= 3)
        by (repeat match goal with
                   | |- context [if ?b then _ else _] => destruct b
                   end; lia);
      pose proof (@tally_first c risk x y Hrisk) as Hstage; clear Hrisk;
      match goal with
      | |- context [match ?e with pair _ _ => _ end] =>
          destruct e as [[[? ?] ?] ?]
      end
  end.
  stage. stage. stage.
  do 4 eexists. split; [eassumption | reflexivity].
Qed.
End Risk.
End RiskFacts.

Module RiskLaws.
Import JsString JsNumber JsValue Runtime Agents Laws RiskFacts.
#[local] Set Warnings "-inexact-float".

(** X20: in the risk assessment of a supplier there is a mitigation
    strategy for each risk factor, and at most four of them.  A risk
    score, when there is one, is a percentage between 0 and 100; a
    record that has a sustainability score always gets one; it is 0
    exactly when there is no risk factor, and then the overall risk
    is [Low].  Without a risk score the overall risk is [Medium] and
    there are no factors. *)
Theorem assessSupplierRisk_coherent {host : Host} (r : record) :
  let a := assessSupplierRisk r in
  List.length (riskFactors a) = List.length (mitigationStrategies a)
  /\ List.length (riskFactors a) <= 4
  /\ (defined (get r "sustainabilityScore") = true -> riskScore a <> None)
  /\ (forall p, riskScore a = Some p ->
      PrimFloat.leb 0 p = true /\ PrimFloat.leb p 100 = true
      /\ (riskFactors a = [] <-> PrimFloat.eqb p 0 = true)
      /\ (riskFactors a = [] -> overallRisk a = "Low"))
  /\ (riskScore a = None -> overallRisk a = "Medium" /\ riskFactors a = []).
Proof.
  destruct (assessSupplierRisk_tally r)
    as (rs & mx & factors & strategies & Htally & Hrun).
  rewrite Hrun. clear Hrun.
  destruct Htally as (Hlen & Hcount & Hrs & Hmx & Hnil).
  destruct (0 <? mx)%nat eqn:Hpos; cbn [riskFactors mitigationStrategies riskScore
                                        overallRisk].
  - apply Nat.ltb_lt in Hpos.
    destruct (@percentage_cases rs mx Hrs (conj Hpos (proj2 Hmx)))
      as (Hlow & Hhigh & Hzero & Hlevel).
    split; [exact Hlen|]. split; [exact Hcount|]. split; [discriminate|].
    split; [|discriminate].
    intros p [= <-]. split; [exact Hlow|]. split; [exact Hhigh|]. split; [split|].
    + intros Hf. apply Hzero, Hnil, Hf.
    + intros Hp. apply Hnil, Hzero, Hp.
    + intros Hf. apply Hnil, Hlevel in Hf. destruct Hf as [-> ->]. reflexivity.
  - apply Nat.ltb_ge in Hpos.
    split; [exact Hlen|]. split; [exact Hcount|]. split; [|split; [discriminate|]].
    + intros Hscore. rewrite Hscore in Hmx. lia.
    + intros _. split; [reflexivity|]. apply Hnil. lia.
Qed.

End RiskLaws.

(** ** The inline agents *)

Module InlineFacts.
Import JsString JsNumber JsValue Runtime Inline.
Local Open Scope float_scope.
#[local] Set Warnings "-inexact-float".

Section Scores.
Context {host : Host}.

Lemma environmental_scores (supplier : record) (risk : Risk) :
  assessEnvironmentalRisk supplier = Ok risk ->
  score risk = 0 \/ score risk = 2 \/ score risk = 3 \/ score risk = 4
  \/ score risk = 5 \/ score risk = 7.
Proof.
  unfold assessEnvironmentalRisk, charge.
  destruct (lacks_ISO14001 _) as [[|]|e]; [| |discriminate];
    destruct (gt _ 0.5), (lt _ 30); intros [= <-]; vm_compute; auto 7.
Qed.

Lemma environmental_throws (supplier : record) :
  match assessEnvironmentalRisk supplier with
  | Ok _ => match get supplier "certifications" with
            | VBool _ | VNum _ => False
            | _ => True
            end
  | Throw e =>
      e = TypeError "supplier.certifications?.includes is not a function"
      /\ match get supplier "certifications" with
         | VBool _ | VNum _ => True
         | _ => False
         end
  end.
Proof.
  unfold assessEnvironmentalRisk.
  destruct (get supplier "certifications"); simpl; auto.
Qed.

Lemma social_scores (supplier : record) :
  score (assessSocialRisk supplier) = 0 \/ score (assessSocialRisk supplier) = 2.
Proof.
  unfold assessSocialRisk, charge. destruct (lt _ 7); vm_compute; auto.
Qed.

Lemma governance_scores (supplier : record) :
  score (assessGovernanceRisk supplier) = 0
  \/ score (assessGovernanceRisk supplier) = 3.
Proof.
  unfold assessGovernanceRisk, charge. destruct (no_certifications _);
    vm_compute; auto.
Qed.

Lemma operational_scores (supplier : record) :
  score (assessOperationalRisk supplier) = 0
  \/ score (assessOperationalRisk supplier) = 1.
Proof.
  unfold assessOperationalRisk, charge. destruct (lt _ 8); vm_compute; auto.
Qed.

(** With partial scores in these ranges nothing is above [Low]. *)
Lemma mean_is_low (e s g o : float) :
  e = 0 \/ e = 2 \/ e = 3 \/ e = 4 \/ e = 5 \/ e = 7 ->
  s = 0 \/ s = 2 -> g = 0 \/ g = 3 -> o = 0 \/ o = 1 ->
  let mean := (0 + e + s + g + o) / 4 in
  gt mean 7 = false /\ gt mean 4 = false /\ PrimFloat.leb mean 3.25 = true
  /\ gt e 7 = false /\ gt s 7 = false /\ gt g 7 = false /\ gt o 7 = false.
Proof.
  intros He Hs Hg Ho.
  destruct He as [->|[->|[->|[->|[->| ->]]]]];
    destruct Hs as [->| ->]; destruct Hg as [->| ->]; destruct Ho as [->| ->];
    vm_compute; repeat split; reflexivity.
Qed.

Lemma no_immediate_program (a b c : bool) (l1 l2 l3 : list string) :
  ~ In "Immediate supplier development program required" l1 ->
  ~ In "Immediate supplier development program required" l2 ->
  ~ In "Immediate supplier development program required" l3 ->
  ~ In "Immediate supplier development program required"
       ([] ++ (if a then l1 else []) ++ (if b then l2 else [])
           ++ (if c then l3 else [])).
Proof.
  intros H1 H2 H3 Hin. simpl in Hin.
  apply in_app_or in Hin. destruct Hin as [Hin|Hin].
  - destruct a; [contradiction | exact Hin].
  - apply in_app_or in Hin. destruct Hin as [Hin|Hin].
    + destruct b; [contradiction | exact Hin].
    + destruct c; [contradiction | exact Hin].
Qed.
End Scores.

Section Compliance.
Context {host : Host}.
Local Open Scope js_scope.

Lemma relevantRegulations_cases (data : record) :
  relevantRegulations data = regulations_europe
  \/ relevantRegulations data = regulations_asiaPacific
  \/ relevantRegulations data = regulations_global
  \/ relevantRegulations data = [].
Proof.
  unfold relevantRegulations, literal_get, regulations.
  generalize (if truthy (get data "region") then to_string (get data "region")
              else "global")%string.
  intros region. cbn [assoc].
  destruct (String.eqb "europe" region); [auto|].
  destruct (String.eqb "asiaPacific" region); [auto|].
  destruct (String.eqb "global" region); [auto|].
  destruct (existsb _ _); auto.
Qed.

(** What the loop of [assessComplianceStatus] adds to its counters. *)
Lemma assess_loop (data : record) (entries : list (string * Regulation)) :
  forall t w,
    Forall (fun u => le (days u) 90 && gt (days u) 0 = true) (upcomingDeadlines t) ->
    exists t' w',
      for_each (assess_entry data) entries t w = (Ok t', w')
      /\ logged w' = logged w
      /\ totalCount t' = (totalCount t + List.length entries)%nat
      /\ compliantCount t'
         = (compliantCount t + if compliant data then List.length entries else 0)%nat
      /\ nonCompliantItems t'
         = nonCompliantItems t ++ (if compliant data then [] else map fst entries)
      /\ Forall (fun u => le (days u) 90 && gt (days u) 0 = true)
                (upcomingDeadlines t').
Proof.
  induction entries as [|[name regulation] entries IH]; intros t w Hup.
  - exists t, w. simpl. destruct (compliant data);
      rewrite ?app_nil_r, ?Nat.add_0_r; repeat split; auto.
  - cbn [for_each]. unfold bind at 1. unfold assess_entry at 1.
    unfold daysToDeadline, bind, new_Date, ret.
    cbn [get_world set_world world_has_world].
    match goal with
    | |- context [for_each _ entries ?t1 ?w1] =>
        destruct (IH t1 w1) as (t' & w' & Hrun & Hlog & Htotal & Hcount & Hitems & Hup')
    end.
    { destruct (compliant data); cbn [upcomingDeadlines];
        (destruct (le _ 90 && gt _ 0) eqn:Hnear; [|exact Hup]);
        apply Forall_app; (split; [exact Hup|]);
        constructor; [exact Hnear | constructor | exact Hnear | constructor]. }
    exists t', w'. split; [exact Hrun|]. split; [rewrite Hlog; reflexivity|].
    destruct (compliant data);
      cbn [totalCount compliantCount nonCompliantItems] in *;
      rewrite Htotal, Hcount, Hitems; cbn [map fst List.length];
      rewrite <- ?app_assoc; repeat split; try lia; auto.
Qed.
End Compliance.

Section Risks.
Context {host : Host}.
Local Open Scope js_scope.

Lemma In_risk_scores (x : float) :
  x = 2 \/ x = 3 \/ x = 4 \/ x = 5 \/ x = 6 \/ x = 7 \/ x = 8 \/ x = 9
  \/ x = 10 ->
  In x Laws.risk_scores.
Proof.
  intros H. unfold Laws.risk_scores. simpl.
  repeat (destruct H as [H|H]; [symmetry in H; tauto|]). symmetry in H. tauto.
Qed.

Lemma calculateRegulatoryRisk_range (regulation : Regulation) (data : record)
      (w : World) :
  exists riskScore w',
    calculateRegulatoryRisk regulation data w = (Ok riskScore, w')
    /\ logged w' = logged w
    /\ In riskScore Laws.risk_scores.
Proof.
  unfold calculateRegulatoryRisk, daysToDeadline, bind, new_Date, ret.
  cbn [get_world set_world world_has_world].
  eexists. eexists. split; [reflexivity|]. split; [reflexivity|].
  apply In_risk_scores.
  repeat match goal with
         | |- context [if ?c then _ else _] => destruct c
         end; vm_compute; auto 10.
Qed.

(** On the scores the agent gives, the comparison of the sort is the
    order of the numbers. *)
Lemma by_riskScore_order :
  forallb
    (fun x =>
       forallb
         (fun y =>
            (if lt 0 (y - x) then PrimFloat.leb x y
             else PrimFloat.leb y x)
            && forallb
                 (fun z =>
                    implb (PrimFloat.leb z y && PrimFloat.leb y x)
                          (PrimFloat.leb z x))
                 Laws.risk_scores)
         Laws.risk_scores)
    Laws.risk_scores = true.
Proof. vm_compute. reflexivity. Qed.

Lemma by_riskScore_cases (a b : RegulationRisk) :
  In (riskScore a) Laws.risk_scores -> In (riskScore b) Laws.risk_scores ->
  if by_riskScore a b then PrimFloat.leb (riskScore a) (riskScore b) = true
  else PrimFloat.leb (riskScore b) (riskScore a) = true.
Proof.
  intros Ha Hb. pose proof by_riskScore_order as Horder.
  rewrite forallb_forall in Horder. specialize (Horder _ Ha).
  rewrite forallb_forall in Horder. specialize (Horder _ Hb).
  apply andb_prop in Horder. destruct Horder as [Horder _].
  unfold by_riskScore. destruct (lt 0 _); exact Horder.
Qed.

Lemma risk_scores_transitive (x y z : float) :
  In x Laws.risk_scores -> In y Laws.risk_scores -> In z Laws.risk_scores ->
  PrimFloat.leb z y = true -> PrimFloat.leb y x = true -> PrimFloat.leb z x = true.
Proof.
  intros Hx Hy Hz Hzy Hyx. pose proof by_riskScore_order as Horder.
  rewrite forallb_forall in Horder. specialize (Horder _ Hx).
  rewrite forallb_forall in Horder. specialize (Horder _ Hy).
  apply andb_prop in Horder. destruct Horder as [_ Horder].
  rewrite forallb_forall in Horder. specialize (Horder _ Hz).
  rewrite Hzy, Hyx in Horder. exact Horder.
Qed.

Lemma sort_insert_In {A} (positive : A -> A -> bool) (x y : A) (l : list A) :
  In y (Rag.sort_insert positive x l) -> y = x \/ In y l.
Proof.
  induction l as [|z l IH]; simpl.
  - intros [<-|[]]. left. reflexivity.
  - destruct (positive x z); simpl.
    + intros [<-|Hin]; [right; left; reflexivity|].
      destruct (IH Hin) as [->|Hin']; [left | right; right]; auto.
    + intros [<-|[<-|Hin]]; auto.
Qed.

Lemma sort_insert_descending (x : RegulationRisk) (l : list RegulationRisk) :
  In (riskScore x) Laws.risk_scores ->
  Forall (fun k => In (riskScore k) Laws.risk_scores) l ->
  StronglySorted (fun a b => PrimFloat.leb (riskScore b) (riskScore a) = true) l ->
  StronglySorted (fun a b => PrimFloat.leb (riskScore b) (riskScore a) = true)
                 (Rag.sort_insert by_riskScore x l).
Proof.
  intros Hx Hl Hsorted. induction Hsorted as [|y l Hsorted IH Hall].
  - constructor; constructor.
  - inversion Hl as [|? ? Hy Hl']; subst. cbn [Rag.sort_insert].
    pose proof (by_riskScore_cases x y Hx Hy) as Hxy.
    destruct (by_riskScore x y).
    + constructor; [apply IH; exact Hl'|].
      apply Forall_forall. intros z Hz.
      apply sort_insert_In in Hz. destruct Hz as [->|Hz]; [exact Hxy|].
      rewrite Forall_forall in Hall. apply Hall. exact Hz.
    + constructor; [constructor; assumption|].
      constructor; [exact Hxy|].
      apply Forall_forall. intros z Hz.
      rewrite Forall_forall in Hall, Hl'.
      apply (@risk_scores_transitive (riskScore x) (riskScore y) (riskScore z));
        auto.
Qed.

Lemma sort_In_scores (l : list RegulationRisk) :
  Forall (fun k => In (riskScore k) Laws.risk_scores) l ->
  Forall (fun k => In (riskScore k) Laws.risk_scores) (Rag.sort by_riskScore l).
Proof.
  intros Hl. apply Forall_forall. intros k Hk.
  rewrite Forall_forall in Hl. apply Hl.
  eapply Permutation_in; [|exact Hk].
  apply Permutation_sym, RetrievalFacts.sort_perm.
Qed.

Lemma sort_descending (l : list RegulationRisk) :
  Forall (fun k => In (riskScore k) Laws.risk_scores) l ->
  StronglySorted (fun a b => PrimFloat.leb (riskScore b) (riskScore a) = true)
                 (Rag.sort by_riskScore l).
Proof.
  induction 1 as [|x l Hx Hl IH]; [constructor|].
  unfold Rag.sort in *. cbn [fold_right].
  apply sort_insert_descending; [exact Hx | apply sort_In_scores; exact Hl | exact IH].
Qed.

(** What the loop of [analyzeComplianceRisks] adds. *)
Lemma risk_loop (data : record) (entries : list (string * Regulation)) :
  forall t w,
    Forall (fun k => In (riskScore k) Laws.risk_scores
                     /\ riskLevel k = getRiskLevel (riskScore k)) (risks t) ->
    exists t' w',
      for_each (risk_entry data) entries t w = (Ok t', w')
      /\ logged w' = logged w
      /\ map regulation (risks t') = map regulation (risks t) ++ map fst entries
      /\ (highRiskCount t' + mediumRiskCount t' + lowRiskCount t'
          = highRiskCount t + mediumRiskCount t + lowRiskCount t
            + List.length entries)%nat
      /\ Forall (fun k => In (riskScore k) Laws.risk_scores
                          /\ riskLevel k = getRiskLevel (riskScore k)) (risks t').
Proof.
  induction entries as [|[name reg] entries IH]; intros t w Hrisks.
  - exists t, w. simpl. rewrite app_nil_r, Nat.add_0_r. repeat split; auto.
  - cbn [for_each]. unfold bind at 1. unfold risk_entry at 1. unfold bind at 1.
    destruct (calculateRegulatoryRisk_range reg data w)
      as (s & w1 & -> & Hlog1 & Hs).
    unfold ret at 1.
    match goal with
    | |- context [for_each _ entries ?t1 w1] =>
        destruct (IH t1 w1) as (t' & w' & Hrun & Hlog & Hnames & Hcount & Hall)
    end.
    { assert (Hnew : Forall (fun k => In (riskScore k) Laws.risk_scores
                                    /\ riskLevel k = getRiskLevel (riskScore k))
                            (risks t
                             ++ [mkRegulationRisk name s (getRiskLevel s)
                                                  (impact reg) (deadline reg)])).
      { apply Forall_app. split; [exact Hrisks|].
        constructor; [|constructor]. split; [exact Hs | reflexivity]. }
      destruct (_ || _); [exact Hnew|]. destruct (String.eqb _ "Medium"); exact Hnew. }
    exists t', w'. split; [exact Hrun|]. split; [congruence|].
    destruct (_ || _); [|destruct (String.eqb _ "Medium")];
      cbn [risks highRiskCount mediumRiskCount lowRiskCount] in *;
      rewrite Hnames, map_app, <- app_assoc; cbn [map fst regulation List.length app];
      (split; [reflexivity|]); (split; [lia | exact Hall]).
Qed.
End Risks.
End InlineFacts.

Module InlineLaws.
Import JsString JsNumber JsValue Runtime Inline InlineFacts.
Local Open Scope float_scope.
#[local] Set Warnings "-inexact-float".

(** X21: the supplier risk assessment of the inline supply-chain
    agent never finds a risk above [Low]: the four partial scores are
    at most 7, 2, 3 and 1, so that their mean is at most 3.25, below
    the thresholds 4 and 7; no issue is ever critical, and the
    recommendations for a [High] risk are never made.  The assessment
    throws, a [TypeError], exactly when the certifications are a
    number or a boolean. *)
Theorem inline_supplier_risk_is_low {host : Host} (supplier : record) :
  match assessSupplierRisk supplier with
  | Ok a =>
      overallRisk a = "Low" /\ criticalIssues a = []
      /\ PrimFloat.leb (overallRiskScore a) 3.25 = true
      /\ ~ In "Immediate supplier development program required"
              (generateSupplierRecommendations supplier a)
      /\ match get supplier "certifications" with
         | VBool _ | VNum _ => False
         | _ => True
         end
  | Throw e =>
      e = TypeError "supplier.certifications?.includes is not a function"
      /\ match get supplier "certifications" with
         | VBool _ | VNum _ => True
         | _ => False
         end
  end.
Proof.
  unfold assessSupplierRisk.
  pose proof (environmental_throws supplier) as Hthrows.
  destruct (assessEnvironmentalRisk supplier) as [e|exn] eqn:Henv; [|exact Hthrows].
  destruct (mean_is_low (environmental_scores supplier Henv) (social_scores supplier)
                        (governance_scores supplier) (operational_scores supplier))
    as (H7 & H4 & Hmean & He & Hs & Hg & Ho).
  unfold generateSupplierRecommendations.
  cbn [overallRisk criticalIssues overallRiskScore fold_left filter].
  rewrite H7, H4, He, Hs, Hg, Ho. cbn [flat_map].
  split; [reflexivity|]. split; [reflexivity|]. split; [exact Hmean|].
  split; [|exact Hthrows].
  change (String.eqb "Low" "High") with false. cbv iota.
  apply no_immediate_program; simpl; intros H;
    repeat (destruct H as [H|H]; [discriminate H|]); exact H.
Qed.

(** X22: the compliance assessment of the inline regulatory agent is
    all or nothing.  It always returns; every regulation of the
    region is counted; with the status [Compliant] or [InProgress]
    all of them count as compliant and none is listed as
    non-compliant, with any other status none counts and all are
    listed.  So the overall status is [Excellent] (for a compliant
    status and a region with regulations) or [Critical], never [Good]
    or [Needs Improvement].  The upcoming deadlines it lists are at
    most 90 days ahead and not past. *)
Theorem inline_compliance_all_or_nothing {host : Host} (data : record) (w : World) :
  exists a w',
    assessComplianceStatus data w = (Ok a, w')
    /\ logged w' = logged w
    /\ totalCount (tally a) = List.length (relevantRegulations data)
    /\ (compliant data = true ->
        compliantCount (tally a) = totalCount (tally a)
        /\ nonCompliantItems (tally a) = [])
    /\ (compliant data = false ->
        compliantCount (tally a) = 0%nat
        /\ nonCompliantItems (tally a) = map fst (relevantRegulations data))
    /\ (overallStatus a = "Excellent" \/ overallStatus a = "Critical")
    /\ (overallStatus a = "Excellent"
        <-> compliant data = true /\ relevantRegulations data <> [])
    /\ Forall (fun u => le (days u) 90 && gt (days u) 0 = true)
              (upcomingDeadlines (tally a)).
Proof.
  unfold assessComplianceStatus, bind.
  destruct (@assess_loop host data (relevantRegulations data) (mkTally 0 0 [] []) w
              (Forall_nil _))
    as (t & w' & -> & Hlog & Htotal & Hcount & Hitems & Hup).
  cbn [totalCount compliantCount nonCompliantItems Nat.add app] in Htotal, Hcount, Hitems.
  eexists. eexists. split; [reflexivity|]. cbn [tally overallStatus].
  split; [exact Hlog|]. split; [exact Htotal|].
  rewrite Htotal, Hcount, Hitems.
  destruct (compliant data).
  - split; [auto|]. split; [discriminate|].
    destruct (relevantRegulations_cases data) as [-> | [-> | [-> | ->]]];
      (split; [vm_compute; auto|]); (split; [|exact Hup]); vm_compute;
      (split; [intros Hs; first [discriminate Hs
                                | split; [reflexivity | discriminate]]
              | intros [Hc Hne];
                first [reflexivity | exfalso; apply Hne; reflexivity]]).
  - split; [discriminate|]. split; [auto|].
    destruct (relevantRegulations_cases data) as [-> | [-> | [-> | ->]]];
      (split; [vm_compute; auto|]); (split; [|exact Hup]); vm_compute;
      (split; [intros Hs; discriminate Hs | intros [Hc Hne]; discriminate Hc]).
Qed.

(** X23: the risk analysis of the inline regulatory agent always
    returns.  It gives each regulation of the region one entry, with a
    score between 2 and 10 and the level of that score, and counts it
    in exactly one of the three classes; the list it returns holds the
    same entries ordered by descending score. *)
Theorem inline_risks_ranked {host : Host} (data : record) (w : World) :
  exists a w',
    analyzeComplianceRisks data w = (Ok a, w')
    /\ logged w' = logged w
    /\ map regulation (risks (counts a)) = map fst (relevantRegulations data)
    /\ (highRiskCount (counts a) + mediumRiskCount (counts a)
        + lowRiskCount (counts a)
        = List.length (relevantRegulations data))%nat
    /\ Permutation (risks (counts a)) (sorted_risks a)
    /\ StronglySorted
         (fun x y => PrimFloat.leb (riskScore y) (riskScore x) = true)
         (sorted_risks a)
    /\ Forall (fun k => PrimFloat.leb 2 (riskScore k) = true
                        /\ PrimFloat.leb (riskScore k) 10 = true
                        /\ riskLevel k = getRiskLevel (riskScore k))
              (sorted_risks a).
Proof.
  unfold analyzeComplianceRisks, bind.
  destruct (@risk_loop host data (relevantRegulations data) (mkRiskTally [] 0 0 0) w
              (Forall_nil _))
    as (t & w' & -> & Hlog & Hnames & Hcount & Hall).
  eexists. eexists. split; [reflexivity|]. cbn [counts sorted_risks].
  split; [exact Hlog|]. split; [exact Hnames|]. split; [exact Hcount|].
  split; [apply RetrievalFacts.sort_perm|].
  split.
  - apply sort_descending. eapply Forall_impl; [|exact Hall].
    intros k [Hk _]. exact Hk.
  - apply Forall_forall. intros k Hk.
    rewrite Forall_forall in Hall.
    assert (Hin : In k (risks t)).
    { eapply Permutation_in; [|exact Hk].
      apply Permutation_sym, RetrievalFacts.sort_perm. }
    destruct (Hall k Hin) as [Hscore Hlevel].
    split; [|split; [|exact Hlevel]];
      unfold Laws.risk_scores in Hscore; simpl in Hscore;
      repeat (destruct Hscore as [<-|Hscore]; [vm_compute; reflexivity|]);
      contradiction.
Qed.

End InlineLaws.

(** ** Counting words *)

Module GeminiLaws.
Import JsString JsNumber JsValue Runtime Gemini EmbeddingFacts ChunkFacts.

Lemma blank_pieces (s : string) :
  Spec.has_ink s = false ->
  forall in_run,
    filter (fun word => 0 <? String.length word) (split_runs is_space "" in_run s) = [].
Proof.
  induction s as [|c s IH]; intros Hblank in_run; [reflexivity|].
  simpl in Hblank. apply orb_false_iff in Hblank. destruct Hblank as [Hc Hs].
  apply negb_false_iff in Hc. simpl. rewrite Hc.
  destruct in_run; [apply IH; exact Hs|].
  simpl. apply IH. exact Hs.
Qed.

(** X24: [countWords] counts additively: of two texts put one after
    the other with a white-space character between them it counts the
    words of the first and the words of the second; and it counts no
    word in a text that is blank. *)
Theorem countWords_additive (a b : string) (c : ascii) :
  is_space c = true ->
  countWords (a ++ String c b) = countWords a + countWords b
  /\ (Spec.has_ink a = false -> countWords a = 0).
Proof.
  intros Hc. unfold countWords, split_regex_class. split.
  - rewrite (@split_runs_joined is_space (fun word => 0 <? String.length word) c b
               eq_refl Hc a "" false) by discriminate.
    apply length_app.
  - intros Hblank. rewrite blank_pieces by exact Hblank. reflexivity.
Qed.

Lemma countWords_additive_witness :
  is_space " " = true
  /\ countWords ("recycled plastic" ++ String " " "bottles") = 2 + 1.
Proof.
  split; [reflexivity|].
  exact (proj1 (@countWords_additive "recycled plastic" "bottles" " " eq_refl)).
Defined.

End GeminiLaws.

(** ** Regulations, deadlines and dispatch: edge cases *)

Module EdgeFacts.
Import JsString JsNumber JsValue Runtime Agents Laws.
Local Open Scope js_scope.
#[local] Set Warnings "-inexact-float".

Lemma lower_char_no_capital (c : ascii) :
  negb ((65 <=? code (lower_char c)) && (code (lower_char c) <=? 90)) = true.
Proof. destruct c as [[] [] [] [] [] [] [] []]; vm_compute; reflexivity. Qed.

Lemma toLowerCase_no_capital (s : string) : no_capital (toLowerCase s) = true.
Proof.
  induction s as [|c s IH]; [reflexivity|].
  cbn [toLowerCase no_capital]. rewrite lower_char_no_capital, IH. reflexivity.
Qed.

Lemma remove_first_no_capital (c : ascii) (s : string) :
  no_capital s = true -> no_capital (remove_first c s) = true.
Proof.
  induction s as [|d s IH]; [reflexivity|].
  cbn [remove_first no_capital]. intros Hs.
  apply andb_prop in Hs. destruct Hs as [Hd Hs].
  destruct (Ascii.eqb d c); [exact Hs|].
  cbn [no_capital]. rewrite Hd, IH by exact Hs. reflexivity.
Qed.

Lemma capital_differs (key text : string) :
  no_capital key = true -> no_capital text = false -> String.eqb text key = false.
Proof.
  intros Hkey Htext. destruct (String.eqb text key) eqn:E; [|reflexivity].
  apply String.eqb_eq in E. subst. congruence.
Qed.

(** *** Not-a-number *)

Lemma nan_is_nan (x : float) :
  PrimFloat.is_nan x = true -> Prim2SF x = S754_nan.
Proof.
  unfold PrimFloat.is_nan. rewrite eqb_spec.
  destruct (Prim2SF x) as [s|s| |s m e]; simpl; try discriminate; try reflexivity.
  - destruct s; discriminate.
  - unfold SFeqb, SFcompare. rewrite Z.compare_refl.
    change (PosDef.Pos.compare_cont Eq m m) with (Pos.compare m m).
    rewrite Pos.compare_refl. destruct s; discriminate.
Qed.

Lemma is_nan_of_nan (x : float) :
  Prim2SF x = S754_nan -> PrimFloat.is_nan x = true.
Proof.
  intros Hx. unfold PrimFloat.is_nan. rewrite eqb_spec, Hx. reflexivity.
Qed.

Lemma nan_sub (x y : float) :
  PrimFloat.is_nan x = true -> PrimFloat.is_nan (x - y) = true.
Proof.
  intros Hx. apply is_nan_of_nan. rewrite sub_spec, (nan_is_nan _ Hx).
  reflexivity.
Qed.

Lemma nan_div (x y : float) :
  PrimFloat.is_nan x = true -> PrimFloat.is_nan (x / y) = true.
Proof.
  intros Hx. apply is_nan_of_nan. rewrite div_spec, (nan_is_nan _ Hx).
  reflexivity.
Qed.

Lemma nan_ceil (x : float) :
  PrimFloat.is_nan x = true -> ceil x = x.
Proof. intros Hx. unfold ceil. rewrite (nan_is_nan _ Hx). reflexivity. Qed.

Lemma nan_lt (x y : float) : PrimFloat.is_nan x = true -> lt x y = false.
Proof.
  intros Hx. unfold lt. rewrite ltb_spec, (nan_is_nan _ Hx). reflexivity.
Qed.

End EdgeFacts.

Module EdgeLaws.
Import JsString JsNumber JsValue Runtime Agents Laws EdgeFacts.
Local Open Scope js_scope.
#[local] Set Warnings "-inexact-float".

(** X25: the regulatory agent never consults its table for Asia
    Pacific.  The key it looks a region up with is in lower case,
    [asiaPacific] is not: a region is looked up in the table for
    Europe when its key is [europe], and in the global table in every
    other case.  (Regions whose key is [constructor] or [__proto__]
    are left out.) *)
Theorem findRegulation_tables {host : Host} (regulationName : value)
        (region : string) (w : World) :
  let key := remove_first " " (toLowerCase region) in
  key <> "constructor" -> key <> "__proto__" ->
  findRegulation regulationName (VStr region) w
  = (Ok (literal_get (if String.eqb key "europe"
                      then regulations_europe else regulations_global)
                     (to_string regulationName)), w).
Proof.
  intros key _ _. unfold findRegulation, bind. cbn [lower].
  unfold ret, regulations. cbn [assoc]. fold key.
  rewrite (String.eqb_sym "europe" key).
  destruct (String.eqb key "europe"); [reflexivity|].
  rewrite (@capital_differs key "asiaPacific");
    [| apply remove_first_no_capital, toLowerCase_no_capital | reflexivity].
  destruct (String.eqb "global" key); reflexivity.
Qed.

Lemma findRegulation_tables_witness :
  remove_first " " (toLowerCase "Asia Pacific") <> "constructor"
  /\ remove_first " " (toLowerCase "Asia Pacific") <> "__proto__"
  /\ fst (findRegulation (host:=ExampleHost.utc_host)
                         (VStr "Japan Plastic Resource Circulation Act")
                         (VStr "Asia Pacific") (ExampleHost.world_at 0))
     = Ok Undefined.
Proof.
  assert (H1 : remove_first " " (toLowerCase "Asia Pacific") <> "constructor")
    by (vm_compute; discriminate).
  assert (H2 : remove_first " " (toLowerCase "Asia Pacific") <> "__proto__")
    by (vm_compute; discriminate).
  split; [exact H1|]. split; [exact H2|].
  rewrite (@findRegulation_tables ExampleHost.utc_host
             (VStr "Japan Plastic Resource Circulation Act") "Asia Pacific"
             (ExampleHost.world_at 0) H1 H2).
  reflexivity.
Defined.

(** X26: a deadline that [Date] cannot read gives NaN days to the
    deadline, for which the urgency is [Low] and which does not count
    as within 90 days. *)
Theorem unreadable_deadline {host : Host} (deadline : string) (w : World) :
  PrimFloat.is_nan (Date_parse deadline) = true ->
  exists days,
    calculateDaysToDeadline (VStr deadline) w
    = (Ok days, mkWorld (clock w) (S (reads w)) (logged w))
    /\ PrimFloat.is_nan days = true
    /\ assessUrgency days = "Low"
    /\ lt days 90 = false.
Proof.
  intros Hnan. unfold calculateDaysToDeadline, bind, new_Date, ret.
  cbn [get_world set_world world_has_world Date_of].
  eexists. split; [reflexivity|].
  assert (Hdays : PrimFloat.is_nan
                    (ceil ((Date_parse deadline - clock w (reads w))
                           / (1000 * 60 * 60 * 24))) = true).
  { rewrite nan_ceil; apply nan_div, nan_sub; exact Hnan. }
  split; [exact Hdays|].
  unfold assessUrgency. rewrite !nan_lt by exact Hdays. split; reflexivity.
Qed.

Lemma unreadable_deadline_witness :
  PrimFloat.is_nan (Date_parse (Host:=ExampleHost.utc_host) "end of year") = true
  /\ exists days,
       fst (calculateDaysToDeadline (host:=ExampleHost.utc_host)
              (VStr "end of year") (ExampleHost.world_at 1735000000000))
       = Ok days
       /\ assessUrgency days = "Low".
Proof.
  split; [reflexivity|].
  destruct (@unreadable_deadline ExampleHost.utc_host "end of year"
              (ExampleHost.world_at 1735000000000) eq_refl)
    as (days & Hrun & _ & Hurgency & _).
  exists days. rewrite Hrun. split; [reflexivity | exact Hurgency].
Defined.

(** X27: an agent type that names a member of [Object.prototype]
    (such as [constructor] or [toString]) passes the test for unknown
    agent types: the knowledge base is queried, then the call of the
    agent throws a [TypeError], which is logged and thrown again. *)
Theorem processQuery_inherited_name {T : Type} `{Number T} {host : Host}
        (query name : string) (s : Rag.System (T:=T)) :
  In name object_prototype_names ->
  exists s',
    Rag.processQuery query (Some name) s
    = (Throw (TypeError "agent.processQuery is not a function"), s')
    /\ Rag.vectorStore s' = Rag.indexed_store s
    /\ exists earlier,
         logged (Rag.world s')
         = earlier ++ [mkLog "error"
                             ("Error processing query: "
                              ++ "agent.processQuery is not a function")].
Proof.
  intros Hname.
  assert (Hget : Rag.agents_get name = Inherited name).
  { simpl in Hname.
    repeat (destruct Hname as [<-|Hname]; [reflexivity|]). destruct Hname. }
  unfold Rag.processQuery, try_catch at 1. unfold bind at 1. rewrite Hget.
  unfold ret at 1. unfold bind at 1.
  destruct (RetrievalFacts.queryKnowledge_run query 5 s)
    as (s1 & Hrun & Hstore & _).
  rewrite Hrun. unfold bind at 1. unfold throw at 1.
  unfold bind, logger, throw. cbn [get_world set_world Rag.system_has_world].
  eexists. split; [reflexivity|]. cbn [Rag.vectorStore Rag.world logged].
  split; [exact Hstore|]. eexists. reflexivity.
Qed.

Lemma processQuery_inherited_name_witness :
  In "constructor" object_prototype_names
  /\ fst (Rag.processQuery (host:=ExampleHost.utc_host)
                            "What is our recycled plastic target?"
                            (Some "constructor")
                            (ExampleHost.demo_system (T:=float)))
     = Throw (TypeError "agent.processQuery is not a function").
Proof.
  assert (Hname : In "constructor" object_prototype_names)
    by (left; reflexivity).
  split; [exact Hname|].
  destruct (@processQuery_inherited_name float _ ExampleHost.utc_host
              "What is our recycled plastic target?" "constructor"
              (ExampleHost.demo_system (T:=float)) Hname)
    as (s' & Hrun & _).
  rewrite Hrun. reflexivity.
Defined.

End EdgeLaws.
